(** * Image generation controller: job submission, polling and resolution fallback

    Shallow embedding of [src/api/controllers/images.ts]
    ([detectAspectRatioKey], [getModel], [generateImages],
    [generateImagesWithRetry]) and proofs of properties of its geometry
    resolver, request builder, polling loop and retry wrapper.

    Modelling conventions.
    - A JavaScript string is the list of its UTF-16 code units; the regular
      expression of [detectAspectRatioKey] has no [u] flag and therefore works
      on code units.  Literals are written as Rocq strings (UTF-8 in the
      source file) and decoded by [js].
    - The asynchronous function bodies run on one control flow; they are
      written in a state-and-exception monad over the state of the outside
      world.  The collaborators of [core.ts] and [util.ts] ([request],
      [uploadFile], [getCredit], [receiveCredit], [util.uuid]) and the
      built-ins [Math.random], [Date.now] are fields of an environment record.
    - Every call of a collaborator appends an event to a trace, so that the
      number and order of remote calls can be stated.
    - [logger] calls have no effect on results and are left out, except the
      line that announces an attempt of the retry wrapper, which is the event
      [EvAttempt].
    - A property read [obj[k]] at a key that the controller does not check
      ([MODEL_MAP[model]], [result[historyId]]) goes through the prototype
      chain: an own key first, then the properties of [Object.prototype]
      ([get]).  [RATIO_VALUES[k]] and [dimensionMap[k]] are read at a key for
      which [hasOwnProperty] or [ASPECT_RATIOS.includes] has answered, and are
      lookups among the own keys ([lookup]). *)

From Stdlib Require Import String Ascii NArith ZArith QArith Bool List Lia.
Import ListNotations.

Set Implicit Arguments.

(** ** JavaScript strings and values *)

Module JS.

(** A string is its sequence of UTF-16 code units. *)
Definition jsstring : Type := list N.

(** Decoder of a UTF-8 literal into code units (surrogate pairs above the
    basic plane, U+FFFD for a truncated sequence). *)
Fixpoint js (s : string) : jsstring :=
  match s with
  | EmptyString => []
  | String c1 r1 =>
    let b1 := N_of_ascii c1 in
    if (b1 <? 128)%N then b1 :: js r1
    else if (b1 <? 224)%N then
      match r1 with
      | String c2 r2 =>
        ((b1 mod 32) * 64 + N_of_ascii c2 mod 64)%N :: js r2
      | EmptyString => [65533%N]
      end
    else if (b1 <? 240)%N then
      match r1 with
      | String c2 (String c3 r3) =>
        ((b1 mod 16) * 4096 + (N_of_ascii c2 mod 64) * 64
         + N_of_ascii c3 mod 64)%N :: js r3
      | _ => [65533%N]
      end
    else
      match r1 with
      | String c2 (String c3 (String c4 r4)) =>
        let cp := ((b1 mod 8) * 262144 + (N_of_ascii c2 mod 64) * 4096
                   + (N_of_ascii c3 mod 64) * 64 + N_of_ascii c4 mod 64)%N in
        let v := (cp - 65536)%N in
        (55296 + v / 1024)%N :: (56320 + v mod 1024)%N :: js r4
      | _ => [65533%N]
      end
  end.

(** [a === b] on strings. *)
Fixpoint eqb (a b : jsstring) : bool :=
  match a, b with
  | [], [] => true
  | x :: a', y :: b' => (x =? y)%N && eqb a' b'
  | _, _ => false
  end.

(** [s.startsWith(p)] *)
Fixpoint startsWith (s p : jsstring) : bool :=
  match p, s with
  | [], _ => true
  | y :: p', x :: s' => (x =? y)%N && startsWith s' p'
  | _ :: _, [] => false
  end.

(** [s.includes(p)], also [/p/.test(s)] for a literal pattern. *)
Fixpoint includes (s p : jsstring) : bool :=
  startsWith s p ||
  match s with
  | [] => false
  | _ :: s' => includes s' p
  end.

(** [arr.includes(x)] for an array of strings. *)
Definition array_includes (arr : list jsstring) (x : jsstring) : bool :=
  existsb (eqb x) arr.

(** [arr.indexOf(x)]: the first index, [-1] when absent. *)
Fixpoint indexOf_from (arr : list jsstring) (x : jsstring) (i : Z) : Z :=
  match arr with
  | [] => (-1)%Z
  | y :: arr' => if eqb y x then i else indexOf_from arr' x (i + 1)%Z
  end.

Definition indexOf (arr : list jsstring) (x : jsstring) : Z :=
  indexOf_from arr x 0%Z.

(** Truthiness of a string: the empty string is falsy. *)
Definition truthy (s : jsstring) : bool :=
  match s with [] => false | _ :: _ => true end.

(** Truthiness of a possibly undefined (or null) string. *)
Definition truthy_opt (o : option jsstring) : bool :=
  match o with Some s => truthy s | None => false end.

(** The values that the fields read by the controller can hold. *)
Inductive value : Type :=
| Undefined
| Null
| Number (z : Z)
| Str (s : jsstring).

(** Strict equality [a === b]. *)
Definition strict_eq (a b : value) : bool :=
  match a, b with
  | Undefined, Undefined => true
  | Null, Null => true
  | Number x, Number y => (x =? y)%Z
  | Str x, Str y => eqb x y
  | _, _ => false
  end.

(** A literal object used as a table: own keys in insertion order. *)
Fixpoint lookup {A : Type} (tbl : list (jsstring * A)) (k : jsstring)
  : option A :=
  match tbl with
  | [] => None
  | (k', v) :: tbl' => if eqb k' k then Some v else lookup tbl' k
  end.

(** [tbl.hasOwnProperty(k)] *)
Definition hasOwnProperty {A : Type} (tbl : list (jsstring * A))
           (k : jsstring) : bool :=
  match lookup tbl k with Some _ => true | None => false end.

(** What a literal or parsed object inherits: a native function, by its
    [name], or the object [Object.prototype] itself. *)
Inductive builtin : Type :=
| NativeFunction (name : jsstring)
| ObjectPrototype.

(** The properties of [Object.prototype] (ECMAScript, sections 20.1.3 and
    B.2.2), which every object literal and every object made by [JSON.parse]
    inherits; the accessor [__proto__] reads as the prototype. *)
Definition Object_prototype : list (jsstring * builtin) :=
  [ (js "constructor", NativeFunction (js "Object"));
    (js "__defineGetter__", NativeFunction (js "__defineGetter__"));
    (js "__defineSetter__", NativeFunction (js "__defineSetter__"));
    (js "hasOwnProperty", NativeFunction (js "hasOwnProperty"));
    (js "__lookupGetter__", NativeFunction (js "__lookupGetter__"));
    (js "__lookupSetter__", NativeFunction (js "__lookupSetter__"));
    (js "isPrototypeOf", NativeFunction (js "isPrototypeOf"));
    (js "propertyIsEnumerable", NativeFunction (js "propertyIsEnumerable"));
    (js "toString", NativeFunction (js "toString"));
    (js "valueOf", NativeFunction (js "valueOf"));
    (js "__proto__", ObjectPrototype);
    (js "toLocaleString", NativeFunction (js "toLocaleString")) ].

(** The outcome of a property read [obj[k]]. *)
Inductive property (A : Type) : Type :=
| Own (a : A)
| Inherited (b : builtin)
| Missing.

Arguments Inherited {A} b.
Arguments Missing {A}.

(** [obj[k]]: the own property, else the inherited one, else [undefined]. *)
Definition get {A : Type} (obj : list (jsstring * A)) (k : jsstring)
  : property A :=
  match lookup obj k with
  | Some v => Own v
  | None =>
    match lookup Object_prototype k with
    | Some b => Inherited b
    | None => Missing
    end
  end.

(** Truthiness of what a read of a string-valued table gives: functions and
    objects are truthy. *)
Definition truthy_property (p : property jsstring) : bool :=
  match p with
  | Own s => truthy s
  | Inherited _ => true
  | Missing => false
  end.

(** [`${p}`]: a native function prints as V8 prints it, [Object.prototype]
    through its own [toString]. *)
Definition template_property (p : property jsstring) : jsstring :=
  match p with
  | Own s => s
  | Inherited (NativeFunction name) =>
    js "function " ++ name ++ js "() { [native code] }"
  | Inherited ObjectPrototype => js "[object Object]"
  | Missing => js "undefined"
  end.

(** What [JSON.stringify] writes for a member of an object. *)
Inductive json_member : Type :=
| JsonString (s : jsstring)
| JsonEmptyObject
| JsonOmitted.

(** A function-valued or undefined member is left out; [Object.prototype]
    has no enumerable property of its own. *)
Definition stringify_member (p : property jsstring) : json_member :=
  match p with
  | Own s => JsonString s
  | Inherited (NativeFunction _) => JsonOmitted
  | Inherited ObjectPrototype => JsonEmptyObject
  | Missing => JsonOmitted
  end.

End JS.

Import JS.

(** ** Regular expressions without alternation over one-unit classes

    Enough of the backtracking matcher of ECMAScript for the pattern of
    [detectAspectRatioKey]: classes, greedy [*] and [+] on a class,
    capture groups and concatenation. *)

Module Regex.

Inductive regex : Type :=
| Class (p : N -> bool)
| Star (p : N -> bool)
| Plus (p : N -> bool)
| Group (r : regex)
| Cat (r1 r2 : regex).

(** [\d] *)
Definition digit (c : N) : bool := ((48 <=? c) && (c <=? 57))%N.

(** [\s]: white space and line terminators of ECMAScript. *)
Definition space (c : N) : bool :=
  ((9 <=? c) && (c <=? 13) || (c =? 32) || (c =? 160) || (c =? 5760)
   || (8192 <=? c) && (c <=? 8202) || (c =? 8232) || (c =? 8233)
   || (c =? 8239) || (c =? 8287) || (c =? 12288) || (c =? 65279))%N.

(** A match in progress: the rest of the input and the captures closed so
    far, in the order of their closing parentheses. *)
Definition cont (R : Type) : Type := jsstring -> list jsstring -> option R.

(** Greedy repetition of a class: the longest run first, one unit less on
    each failure of the continuation. *)
Fixpoint star {R : Type} (p : N -> bool) (s : jsstring)
         (k : jsstring -> option R) : option R :=
  match s with
  | c :: s' =>
    if p c then
      match star p s' k with
      | Some r => Some r
      | None => k s
      end
    else k s
  | [] => k []
  end.

Fixpoint exec {R : Type} (r : regex) (s : jsstring) (caps : list jsstring)
         (k : cont R) : option R :=
  match r with
  | Class p =>
    match s with
    | c :: s' => if p c then k s' caps else None
    | [] => None
    end
  | Star p => star p s (fun rest => k rest caps)
  | Plus p =>
    match s with
    | c :: s' => if p c then star p s' (fun rest => k rest caps) else None
    | [] => None
    end
  | Group r1 =>
    exec r1 s caps
         (fun rest caps' =>
            k rest (caps' ++ [firstn (length s - length rest) s]))
  | Cat r1 r2 =>
    exec r1 s caps (fun rest caps' => exec r2 rest caps' k)
  end.

(** One attempt at the start of [s]: the rest after the match and the
    captures. *)
Definition match_here (r : regex) (s : jsstring)
  : option (jsstring * list jsstring) :=
  exec r s [] (fun rest caps => Some (rest, caps)).

(** [[...s.matchAll(r)]] for a global [r]: leftmost matches, each search
    resuming where the previous match ended (one unit further after an
    empty match).  [fuel] bounds the number of start positions. *)
Fixpoint matchAll_from (fuel : nat) (r : regex) (s : jsstring)
  : list (list jsstring) :=
  match fuel with
  | O => []
  | S fuel' =>
    match match_here r s with
    | Some (rest, caps) =>
      caps ::
      (if (length rest <? length s)%nat then matchAll_from fuel' r rest
       else match s with
            | [] => []
            | _ :: s' => matchAll_from fuel' r s'
            end)
    | None =>
      match s with
      | [] => []
      | _ :: s' => matchAll_from fuel' r s'
      end
    end
  end.

Definition matchAll (r : regex) (s : jsstring) : list (list jsstring) :=
  matchAll_from (S (length s)) r s.

End Regex.

(** ** Constants of the controller *)

Definition DEFAULT_ASSISTANT_ID : Z := 513695.
Definition DEFAULT_MODEL : jsstring := js "jimeng-image-4.5".
Definition DRAFT_VERSION : jsstring := js "3.3.8".
Definition MIN_VERSION : jsstring := js "3.0.2".

Definition MODEL_MAP : list (jsstring * jsstring) :=
  [ (js "jimeng-image-4.5", js "high_aes_general_v40l");
    (js "jimeng-image-4.1", js "high_aes_general_v41");
    (js "jimeng-image-4.0", js "high_aes_general_v40");
    (js "jimeng-image-3.1",
     js "high_aes_general_v30l_art_fangzhou:general_v3.0_18b");
    (js "jimeng-image-3.0", js "high_aes_general_v30l:general_v3.0_18b");
    (js "jimeng-image-2.0-pro", js "high_aes_general_v20_L:general_v2.0_L") ].

Definition ASPECT_RATIOS : list jsstring :=
  [ js "21:9"; js "16:9"; js "3:2"; js "4:3";
    js "1:1"; js "3:4"; js "2:3"; js "9:16" ].

Definition RATIO_VALUES : list (jsstring * Z) :=
  [ (js "21:9", 0%Z); (js "16:9", 1%Z); (js "3:2", 2%Z); (js "4:3", 3%Z);
    (js "1:1", 8%Z); (js "3:4", 4%Z); (js "2:3", 5%Z); (js "9:16", 6%Z) ].

Record Dimension : Type := mkDim { width : Z; height : Z }.

Definition DIMENSIONS_1K : list (jsstring * Dimension) :=
  [ (js "21:9", mkDim 2016 846);
    (js "16:9", mkDim 1664 936);
    (js "3:2", mkDim 1584 1056);
    (js "4:3", mkDim 1472 1104);
    (js "1:1", mkDim 1328 1328);
    (js "3:4", mkDim 1104 1472);
    (js "2:3", mkDim 1056 1584);
    (js "9:16", mkDim 936 1664) ].

Definition DIMENSIONS_2K : list (jsstring * Dimension) :=
  [ (js "21:9", mkDim 3024 1296);
    (js "16:9", mkDim 2560 1440);
    (js "3:2", mkDim 2496 1664);
    (js "4:3", mkDim 2304 1728);
    (js "1:1", mkDim 2048 2048);
    (js "3:4", mkDim 1728 2304);
    (js "2:3", mkDim 1664 2496);
    (js "9:16", mkDim 1440 2560) ].

(** ** [detectAspectRatioKey] *)

(** [/(\d+)\s*[:：]\s*(\d+)/g]; the class holds the ASCII colon and the
    full-width colon U+FF1A. *)
Definition colon (c : N) : bool := ((c =? 58) || (c =? 65306))%N.

Definition ratioRegex : Regex.regex :=
  Regex.Cat (Regex.Group (Regex.Plus Regex.digit))
    (Regex.Cat (Regex.Star Regex.space)
       (Regex.Cat (Regex.Class colon)
          (Regex.Cat (Regex.Star Regex.space)
             (Regex.Group (Regex.Plus Regex.digit))))).

(** The template [`${match[1]}:${match[2]}`]; a group that did not take part
    prints as [undefined]. *)
Definition ratio_key (caps : list jsstring) : jsstring :=
  nth 0 caps (js "undefined") ++ js ":" ++ nth 1 caps (js "undefined").

(** The [for] loop over the matches: the first key that is a supported
    aspect code. *)
Fixpoint first_supported (matches : list (list jsstring)) : option jsstring :=
  match matches with
  | [] => None
  | m :: rest =>
    let key := ratio_key m in
    if array_includes ASPECT_RATIOS key then Some key
    else first_supported rest
  end.

Definition detectAspectRatioKey (prompt : jsstring) : option jsstring :=
  let matches := Regex.matchAll ratioRegex prompt in
  match first_supported matches with
  | Some key => Some key
  | None =>
    if includes prompt (js "横屏") || includes prompt (js "横版")
       || includes prompt (js "宽屏")
    then Some (js "16:9")
    else if includes prompt (js "竖屏") || includes prompt (js "竖版")
            || includes prompt (js "手机")
    then Some (js "9:16")
    else if includes prompt (js "方形") || includes prompt (js "正方")
    then Some (js "1:1")
    else None
  end.

(** [getModel]: [MODEL_MAP[model] || MODEL_MAP[DEFAULT_MODEL]].  The result
    is a string of the table, or what [MODEL_MAP] inherits under the name
    [model]. *)
Definition getModel (model : jsstring) : property jsstring :=
  if truthy_property (get MODEL_MAP model) then get MODEL_MAP model
  else get MODEL_MAP DEFAULT_MODEL.

(** ** Geometry resolution (the pure part of [generateImages]) *)

(** A parameter with a default value: the default applies to [undefined]. *)
Definition with_default {A : Type} (o : option A) (d : A) : A :=
  match o with Some v => v | None => d end.

Definition is4xModel (modelName : jsstring) : bool :=
  includes modelName (js "image-4.")
  || eqb modelName (js "jimeng-image-4.5")
  || eqb modelName (js "jimeng-image-4.1")
  || eqb modelName (js "jimeng-image-4.0").

Definition is2xModel (modelName : jsstring) : bool :=
  eqb modelName (js "jimeng-image-2.0-pro").

(** [resolutionType] after the block that starts at
    [let resolutionType = resolution]. *)
Definition select_resolutionType (modelName resolution : jsstring)
  : jsstring :=
  let resolutionType := resolution in
  if is2xModel modelName then js "1k"
  else if negb (array_includes [js "1k"; js "2k"] resolutionType) then
    (if is4xModel modelName then js "2k" else js "1k")
  else resolutionType.

Definition dimensionMap (resolutionType : jsstring)
  : list (jsstring * Dimension) :=
  if eqb resolutionType (js "2k") then DIMENSIONS_2K else DIMENSIONS_1K.

(** [validRatio] after the two [if] statements that follow
    [let validRatio = ratio]. *)
Definition select_validRatio (prompt ratio : jsstring) : jsstring :=
  let detectedRatioKey := detectAspectRatioKey prompt in
  let validRatio := ratio in
  let validRatio :=
    if negb (hasOwnProperty RATIO_VALUES validRatio) then js "1:1"
    else validRatio in
  match detectedRatioKey with
  | Some detected =>
    if truthy detected && eqb validRatio (js "1:1") then detected
    else validRatio
  | None => validRatio
  end.

Record Geometry : Type := mkGeometry {
  resolutionType : jsstring;
  validRatio : jsstring;
  imageRatio : option Z;            (* [RATIO_VALUES[validRatio]] *)
  dimensions : option Dimension     (* [dimensionMap[validRatio]] *)
}.

Definition resolve_geometry (modelName prompt ratio resolution : jsstring)
  : Geometry :=
  let rt := select_resolutionType modelName resolution in
  let vr := select_validRatio prompt ratio in
  mkGeometry rt vr (lookup RATIO_VALUES vr) (lookup (dimensionMap rt) vr).

(** ** Requests, responses and errors *)

(** The options object of [generateImages]; [None] is an absent property. *)
Record Options : Type := mkOptions {
  ratio : option jsstring;
  resolution : option jsstring;
  sampleStrength : option Q;
  negativePrompt : option jsstring;
  filePath : option jsstring
}.

Record LargeImageInfo : Type := mkLargeImageInfo {
  lii_id : jsstring;
  lii_height : Z;
  lii_width : Z;
  lii_resolution_type : jsstring
}.

Record CoreParam : Type := mkCoreParam {
  cp_id : jsstring;
  cp_model : property jsstring;           (* the value of [getModel] *)
  cp_prompt : jsstring;
  cp_negative_prompt : option jsstring;   (* generate shape only *)
  cp_seed : option Z;                     (* generate shape only *)
  cp_sample_strength : Q;
  cp_image_ratio : option Z;
  cp_large_image_info : LargeImageInfo
}.

(** An element of [image_list]; its other fields are the constants
    [type: "image"], [source_from: "upload"], [platform_type: 1],
    [name: ""], [width: 0], [height: 0], [format: ""]. *)
Record ImageRef : Type := mkImageRef {
  img_id : jsstring;
  img_image_uri : jsstring;
  img_uri : jsstring
}.

(** The [byte_edit] ability of a blend request. *)
Record ByteEdit : Type := mkByteEdit {
  be_id : jsstring;
  be_image_uri_list : list jsstring;
  be_image_list : list ImageRef;
  be_strength : Q
}.

Record Blend : Type := mkBlend {
  blend_id : jsstring;
  blend_core_param : CoreParam;
  blend_ability_list : list ByteEdit;
  blend_history_option_id : jsstring;
  blend_placeholder_id : jsstring;        (* with [ability_index: 0] *)
  blend_postedit_id : jsstring            (* with [generate_type: 0] *)
}.

Record Generate : Type := mkGenerate {
  gen_id : jsstring;
  gen_core_param : CoreParam;
  gen_history_option_id : jsstring
}.

Inductive Shape : Type :=
| ShapeBlend (b : Blend)
| ShapeGenerate (g : Generate).

Record Abilities : Type := mkAbilities {
  ab_id : jsstring;
  ab_shape : Shape
}.

(** The element of [sceneOptions] inside [metrics_extra]. *)
Record SceneOption : Type := mkSceneOption {
  so_modelReqKey : property jsstring;
  so_resolutionType : jsstring;
  so_benefitCount : Z;
  so_extraVipFunctionKey : jsstring
}.

Record Metrics : Type := mkMetrics {
  me_sceneOptions : list SceneOption;
  me_generateId : jsstring
}.

Record Component : Type := mkComponent {
  co_id : jsstring;
  co_metadata_id : jsstring;
  co_created_time_in_ms : Z;
  co_generate_type : jsstring;
  co_abilities : Abilities
}.

(** [draft_content], before [JSON.stringify] (as all the request data are:
    see [stringify_member] for what is written for the model key). *)
Record Draft : Type := mkDraft {
  dr_id : jsstring;
  dr_main_component_id : jsstring;
  dr_component_list : list Component
}.

Record RequestData : Type := mkRequestData {
  rd_root_model : property jsstring;
  rd_submit_id : jsstring;
  rd_metrics_extra : option Metrics;
  rd_draft_content : Draft
}.

Definition core_param_of (a : Abilities) : CoreParam :=
  match ab_shape a with
  | ShapeBlend b => blend_core_param b
  | ShapeGenerate g => gen_core_param g
  end.

Definition abilities_of (d : RequestData) : list Abilities :=
  map co_abilities (dr_component_list (rd_draft_content d)).

(** The answer to [/mweb/v1/aigc_draft/generate]. *)
Record AigcData : Type := mkAigcData {
  history_record_id : option jsstring
}.

Record GenerateResponse : Type := mkGenerateResponse {
  aigc_data : option AigcData
}.

(** A result item: [item?.image?.large_images?.[0]?.image_url] and
    [item?.common_attr?.cover_url]. *)
Record Item : Type := mkItem {
  image_url : option jsstring;
  cover_url : option jsstring
}.

(** The entry of a job in the answer to [/mweb/v1/get_history_by_ids]. *)
Record HistoryRecord : Type := mkHistoryRecord {
  status : value;
  fail_code : value;
  item_list : option (list Item)
}.

(** The answer itself: entries by job id. *)
Definition HistoryResponse : Type := list (jsstring * HistoryRecord).

(** The entries of [@/api/consts/exceptions.ts] that the controller names. *)
Inductive EX : Type :=
| API_REQUEST_FAILED
| API_CONTENT_FILTERED
| API_IMAGE_GENERATION_FAILED
| API_IMAGE_GENERATION_INSUFFICIENT_POINTS.

(** What can be thrown: an [APIException] built from an entry and an optional
    message, an error object of a collaborator with the two properties the
    controller reads, or a [TypeError] of the runtime. *)
Inductive Error : Type :=
| APIException (ex : EX) (errmsg : option jsstring)
| Thrown (code : value) (message : option jsstring)
| TypeError (message : jsstring).

(** The exception table and the exception class are declared outside the
    controller: the first element of each entry, and the [code] and [message]
    properties of an [APIException], are parameters. *)
Record Exceptions : Type := mkExceptions {
  entry_code : EX -> value;
  exception_code : EX -> option jsstring -> value;
  exception_message : EX -> option jsstring -> option jsstring
}.

Definition error_code (X : Exceptions) (e : Error) : value :=
  match e with
  | APIException ex m => exception_code X ex m
  | Thrown c _ => c
  | TypeError _ => Undefined
  end.

Definition error_message (X : Exceptions) (e : Error) : option jsstring :=
  match e with
  | APIException ex m => exception_message X ex m
  | Thrown _ m => m
  | TypeError m => Some m
  end.

(** [`${x}`] for a string that may be [undefined]. *)
Definition template (o : option jsstring) : jsstring :=
  with_default o (js "undefined").

(** The classification in the [catch] block of [generateImagesWithRetry]. *)
Definition isInsufficientCredits (X : Exceptions) (error : Error) : bool :=
  strict_eq (error_code X error)
            (entry_code X API_IMAGE_GENERATION_INSUFFICIENT_POINTS)
  || match error_message X error with
     | Some m =>
       truthy m
       && (includes m (js "积分不足") || includes m (js "2039")
           || includes m (js "1006"))
     | None => false
     end.

(** Error values by the names of the error taxonomy. *)
Definition GenerationTimeout : Error :=
  APIException API_IMAGE_GENERATION_FAILED (Some (js "图像生成超时")).

Definition RecordMissing : Error :=
  APIException API_IMAGE_GENERATION_FAILED (Some (js "记录不存在")).

Definition HistoryIdMissing : Error :=
  APIException API_IMAGE_GENERATION_FAILED (Some (js "记录ID不存在")).

Definition GenerationFailed : Error :=
  APIException API_IMAGE_GENERATION_FAILED None.

Definition ContentFiltered : Error :=
  APIException API_CONTENT_FILTERED None.

Definition remediation_text : jsstring :=
  js "积分不足，已自动降至最低画质仍然不足，请前往即梦官网 https://jimeng.jianying.com 充值积分".

Definition InsufficientCredits : Error :=
  APIException API_IMAGE_GENERATION_INSUFFICIENT_POINTS
               (Some remediation_text).

Definition ReferenceUploadFailed (cause : option jsstring) : Error :=
  APIException API_REQUEST_FAILED
               (Some (js "参考图上传失败: " ++ template cause)).

(** ** Effects: the outside world, the trace and the monad *)

(** Calls that leave the controller, in the order they are made. *)
Inductive Event : Type :=
| EvAttempt (resolution : jsstring)
| EvUpload (refreshToken filePath : jsstring)
| EvGetCredit (refreshToken : jsstring)
| EvReceiveCredit (refreshToken : jsstring)
| EvSubmit (refreshToken : jsstring) (data : RequestData)
| EvSleep (ms : Z)
| EvPoll (refreshToken historyId : jsstring).

(** The collaborators, as functions of the state of the world.
    [request_generate] and [request_history] are [request] on the paths
    [/mweb/v1/aigc_draft/generate] and [/mweb/v1/get_history_by_ids];
    [uploadFile] gives the [image_uri] of its result, [getCredit] its
    [totalCredit]; [random_below n] is [Math.floor(Math.random() * n)]. *)
Record Env (World : Type) : Type := mkEnv {
  uploadFile : jsstring -> jsstring -> World -> (Error + option jsstring) * World;
  getCredit : jsstring -> World -> (Error + Z) * World;
  receiveCredit : jsstring -> World -> (Error + unit) * World;
  request_generate :
    jsstring -> RequestData -> World -> (Error + GenerateResponse) * World;
  request_history :
    jsstring -> jsstring -> World -> (Error + HistoryResponse) * World;
  uuid : World -> jsstring * World;
  random_below : Z -> World -> Z * World;
  now : World -> Z * World
}.

(** How a computation ends: a value, an exception, or the fuel of a loop
    model used up (which the loops below never do, see [poll_loop_total] and
    [retry_loop_total]). *)
Inductive Res (A : Type) : Type :=
| Return (a : A)
| Throw (e : Error)
| OutOfFuel.

Arguments Throw {A} e.
Arguments OutOfFuel {A}.

Record State (World : Type) : Type := mkState {
  world : World;
  trace : list Event
}.

Definition M (World A : Type) : Type := State World -> Res A * State World.

Section Monad.

Context {World : Type}.

Definition ret {A : Type} (a : A) : M World A := fun st => (Return a, st).

Definition bind {A B : Type} (c : M World A) (k : A -> M World B)
  : M World B :=
  fun st =>
    match c st with
    | (Return a, st') => k a st'
    | (Throw e, st') => (Throw e, st')
    | (OutOfFuel, st') => (OutOfFuel, st')
    end.

Definition throw {A : Type} (e : Error) : M World A :=
  fun st => (Throw e, st).

Definition out_of_fuel {A : Type} : M World A :=
  fun st => (OutOfFuel, st).

(** [try { c } catch (error) { handler(error) }] *)
Definition try_catch {A : Type} (c : M World A)
           (handler : Error -> M World A) : M World A :=
  fun st =>
    match c st with
    | (Throw e, st') => handler e st'
    | r => r
    end.

Definition emit (ev : Event) : M World unit :=
  fun st => (Return tt, mkState (world st) (trace st ++ [ev])).

(** A call of a collaborator that may throw, recorded in the trace. *)
Definition call {A : Type} (ev : Event)
           (f : World -> (Error + A) * World) : M World A :=
  fun st =>
    let (r, w') := f (world st) in
    (match r with inl e => Throw e | inr a => Return a end,
     mkState w' (trace st ++ [ev])).

(** A draw from the runtime ([util.uuid], [Math.random], [Date.now]). *)
Definition draw {A : Type} (f : World -> A * World) : M World A :=
  fun st =>
    let (a, w') := f (world st) in (Return a, mkState w' (trace st)).

End Monad.

Declare Scope controller_scope.
Delimit Scope controller_scope with ctl.
Notation "x <- c ;; k" := (bind c (fun x => k))
  (at level 61, c at next level, right associativity) : controller_scope.
Notation "c ;;; k" := (bind c (fun _ => k))
  (at level 61, right associativity) : controller_scope.
Local Open Scope controller_scope.

(** ** The controller *)

Definition MAX_POLL_RETRIES : nat := 120.
Definition PROCESSING_STATES : list value := [Number 20; Number 42; Number 45].
Definition FAIL_STATE : value := Number 30.
Definition resolutionLevels : list jsstring := [js "2k"; js "1k"].

(** [PROCESSING_STATES.includes(status)] *)
Definition is_processing (status : value) : bool :=
  existsb (strict_eq status) PROCESSING_STATES.

(** [!item_list || item_list.length === 0] *)
Definition no_items (item_list : option (list Item)) : bool :=
  match item_list with
  | None => true
  | Some l => (List.length l =? 0)%nat
  end.

(** The callback of [item_list.map]. *)
Definition item_url (item : Item) : option jsstring :=
  if negb (truthy_opt (image_url item)) then
    (if truthy_opt (cover_url item) then cover_url item else None)
  else image_url item.

(** The variables of the polling loop. *)
Record PollVars : Type := mkPollVars {
  pv_status : value;
  pv_failCode : value;
  pv_item_list : option (list Item);
  pv_retryCount : nat
}.

Definition poll_init : PollVars :=
  mkPollVars (Number 20) Undefined (Some []) 0.

Definition poll_continues (v : PollVars) : bool :=
  is_processing (pv_status v) && no_items (pv_item_list v)
  && (pv_retryCount v <? MAX_POLL_RETRIES)%nat.

(** The geometry of a call of [generateImages]: the resolver applied to the
    model name, the prompt and the [ratio] and [resolution] parameters with
    their defaults ["1:1"] and ["2k"]. *)
Definition request_geometry (_model prompt : jsstring) (options : Options)
  : Geometry :=
  let ratio := with_default (ratio options) (js "1:1") in
  let resolution := with_default (resolution options) (js "2k") in
  let modelName := _model in
  resolve_geometry modelName prompt ratio resolution.

(** [{ ...options, resolution: level }] *)
Definition set_resolution (options : Options) (level : option jsstring)
  : Options :=
  mkOptions (ratio options) level (sampleStrength options)
            (negativePrompt options) (filePath options).

(** [options.resolution || "2k"], then [Math.max(0, indexOf(...))]. *)
Definition start_index (options : Options) : nat :=
  let requested :=
    if truthy_opt (resolution options)
    then with_default (resolution options) []
    else js "2k" in
  Z.to_nat (Z.max 0 (indexOf resolutionLevels requested)).

Section Controller.

Context {World : Type}.
Variable env : Env World.
Variable X : Exceptions.

Local Abbreviation M := (M World).

Definition util_uuid : M jsstring := draw (uuid env).

(** The [try] block around [uploadFile]. *)
Definition upload_reference (refreshToken filePath : jsstring)
  : M (option jsstring) :=
  try_catch
    (call (EvUpload refreshToken filePath)
          (uploadFile env refreshToken filePath))
    (fun error => throw (ReferenceUploadFailed (error_message X error))).

(** The [abilities] object, with the identifiers drawn in the order of the
    object literal. *)
Definition build_abilities (hasFilePath : bool) (uploadID : option jsstring)
           (model : property jsstring) (prompt negativePrompt : jsstring)
           (sampleStrength : Q)
           (imageRatio : option Z) (finalWidth finalHeight : Z)
           (resolutionType : jsstring) : M Abilities :=
  if hasFilePath && truthy_opt uploadID then
    let uri := with_default uploadID [] in
    id0 <- util_uuid ;;
    id1 <- util_uuid ;;
    id2 <- util_uuid ;;
    id3 <- util_uuid ;;
    id4 <- util_uuid ;;
    id5 <- util_uuid ;;
    id6 <- util_uuid ;;
    id7 <- util_uuid ;;
    id8 <- util_uuid ;;
    ret (mkAbilities id0
           (ShapeBlend
              (mkBlend id1
                 (mkCoreParam id2 model (prompt ++ js "##") None None
                    sampleStrength imageRatio
                    (mkLargeImageInfo id3 finalHeight finalWidth
                                      resolutionType))
                 [mkByteEdit id4 [uri] [mkImageRef id5 uri uri] (1 # 2)]
                 id6 id7 id8)))
  else
    id0 <- util_uuid ;;
    id1 <- util_uuid ;;
    id2 <- util_uuid ;;
    r <- draw (random_below env 100000000) ;;
    id3 <- util_uuid ;;
    id4 <- util_uuid ;;
    ret (mkAbilities id0
           (ShapeGenerate
              (mkGenerate id1
                 (mkCoreParam id2 model prompt (Some negativePrompt)
                    (Some (r + 2500000000)%Z) sampleStrength imageRatio
                    (mkLargeImageInfo id3 finalHeight finalWidth
                                      resolutionType))
                 id4))).

(** The [while] loop of [generateImages]. *)
Fixpoint poll_loop (fuel : nat) (refreshToken historyId : jsstring)
         (v : PollVars) : M PollVars :=
  if poll_continues v then
    match fuel with
    | O => out_of_fuel
    | S fuel' =>
      emit (EvSleep 1000) ;;;
      let retryCount := S (pv_retryCount v) in
      result <- call (EvPoll refreshToken historyId)
                     (request_history env refreshToken historyId) ;;
      match get result historyId with
      | Missing => throw RecordMissing
      | Own record =>
        poll_loop fuel' refreshToken historyId
                  (mkPollVars (status record) (fail_code record)
                              (item_list record) retryCount)
      | Inherited _ =>
        (* a function or [Object.prototype]: truthy, and without the
           properties [status], [fail_code] and [item_list] *)
        poll_loop fuel' refreshToken historyId
                  (mkPollVars Undefined Undefined None retryCount)
      end
    end
  else ret v.

(** What follows the loop. *)
Definition poll_result (v : PollVars) : M (list (option jsstring)) :=
  if (MAX_POLL_RETRIES <=? pv_retryCount v)%nat then throw GenerationTimeout
  else if strict_eq (pv_status v) FAIL_STATE then
    (if strict_eq (pv_failCode v) (Str (js "2038"))
     then throw ContentFiltered
     else throw GenerationFailed)
  else
    match pv_item_list v with
    | Some items => ret (map item_url items)
    | None =>
      throw (TypeError
               (js "Cannot read properties of undefined (reading 'map')"))
    end.

Definition poll (refreshToken historyId : jsstring)
  : M (list (option jsstring)) :=
  v <- poll_loop MAX_POLL_RETRIES refreshToken historyId poll_init ;;
  poll_result v.

(** [generateImages] up to the job id: upload of the reference image,
    geometry, credit check, request data and submission. *)
Definition submit_job (_model prompt : jsstring) (options : Options)
           (refreshToken : jsstring) : M jsstring :=
  let sampleStrength := with_default (sampleStrength options) (1 # 2) in
  let negativePrompt := with_default (negativePrompt options) [] in
  let filePath := with_default (filePath options) [] in
  let hasFilePath := truthy filePath in
  uploadID <- (if hasFilePath then upload_reference refreshToken filePath
               else ret None) ;;
  let modelName := _model in
  let model := getModel modelName in
  let g := request_geometry _model prompt options in
  match dimensions g with
  | None =>
    throw (TypeError
             (js "Cannot read properties of undefined (reading 'width')"))
  | Some dims =>
    let finalWidth := width dims in
    let finalHeight := height dims in
    totalCredit <- call (EvGetCredit refreshToken)
                        (getCredit env refreshToken) ;;
    (if (totalCredit <=? 0)%Z
     then call (EvReceiveCredit refreshToken)
               (receiveCredit env refreshToken)
     else ret tt) ;;;
    componentId <- util_uuid ;;
    abilities <- build_abilities hasFilePath uploadID model prompt
                   negativePrompt sampleStrength (imageRatio g)
                   finalWidth finalHeight (resolutionType g) ;;
    submitId <- util_uuid ;;
    draftId <- util_uuid ;;
    metadataId <- util_uuid ;;
    time <- draw (now env) ;;
    let requestData :=
      mkRequestData model submitId
        (if hasFilePath then None
         else Some (mkMetrics
                      [mkSceneOption model (resolutionType g)
                         (if is4xModel modelName
                             && eqb (resolutionType g) (js "2k")
                          then 4%Z else 1%Z)
                         (template_property model ++ js "-"
                                            ++ resolutionType g)]
                      submitId))
        (mkDraft draftId componentId
           [mkComponent componentId metadataId time
              (if hasFilePath then js "blend" else js "generate")
              abilities]) in
    response <- call (EvSubmit refreshToken requestData)
                     (request_generate env refreshToken requestData) ;;
    match aigc_data response with
    | None =>
      throw (TypeError
               (js "Cannot read properties of undefined (reading 'history_record_id')"))
    | Some data =>
      match history_record_id data with
      | Some historyId =>
        if truthy historyId then ret historyId
        else throw HistoryIdMissing
      | None => throw HistoryIdMissing
      end
    end
  end.

Definition generateImages (_model prompt : jsstring) (options : Options)
           (refreshToken : jsstring) : M (list (option jsstring)) :=
  historyId <- submit_job _model prompt options refreshToken ;;
  poll refreshToken historyId.

(** The [while] loop of [generateImagesWithRetry] over an inner pipeline. *)
Section Retry.

Variable inner : Options -> M (list (option jsstring)).
Variable options : Options.

Fixpoint retry_loop (fuel : nat) (currentResIndex : nat)
  : M (list (option jsstring)) :=
  if (currentResIndex <? List.length resolutionLevels)%nat then
    match fuel with
    | O => out_of_fuel
    | S fuel' =>
      try_catch
        (let level := nth_error resolutionLevels currentResIndex in
         let currentOptions := set_resolution options level in
         emit (EvAttempt (template (resolution currentOptions))) ;;;
         inner currentOptions)
        (fun error =>
           let insufficient := isInsufficientCredits X error in
           if insufficient
              && (currentResIndex <? List.length resolutionLevels - 1)%nat
           then retry_loop fuel' (S currentResIndex)
           else if insufficient then throw InsufficientCredits
           else throw error)
    end
  else
    throw (APIException API_IMAGE_GENERATION_FAILED
                        (Some (js "图像生成失败"))).

End Retry.

Definition generateImagesWithRetry (_model prompt : jsstring)
           (options : Options) (refreshToken : jsstring)
  : M (list (option jsstring)) :=
  retry_loop (fun currentOptions =>
                generateImages _model prompt currentOptions refreshToken)
             options
             (List.length resolutionLevels)
             (start_index options).

End Controller.

(** Running a computation from a world, with an empty trace. *)
Definition run {World A : Type} (c : M World A) (w : World)
  : Res A * State World :=
  c (mkState w []).

(** ** Views of a trace *)

Definition submitted (tr : list Event) : list RequestData :=
  flat_map (fun ev => match ev with EvSubmit _ d => [d] | _ => [] end) tr.

Definition attempts (tr : list Event) : list jsstring :=
  flat_map (fun ev => match ev with EvAttempt r => [r] | _ => [] end) tr.

Definition polls (tr : list Event) : list jsstring :=
  flat_map (fun ev => match ev with EvPoll _ h => [h] | _ => [] end) tr.

(** ** A scripted world

    The answers of the remote service are read from lists, one answer per
    call; identifiers are numbered.  It serves to run the controller on
    concrete scenarios. *)

Module Script.

Record World : Type := mkWorld {
  uploads : list (Error + option jsstring);
  credits : list (Error + Z);
  submissions : list (Error + GenerateResponse);
  histories : list (Error + HistoryResponse);
  counter : N
}.

Definition pop {A : Type} (l : list A) (d : A) : A * list A :=
  match l with
  | [] => (d, [])
  | a :: l' => (a, l')
  end.

Definition env : Env World :=
  mkEnv
    (fun _ _ w =>
       let (r, l) := pop (uploads w) (inr (Some (js "tos-uri"))) in
       (r, mkWorld l (credits w) (submissions w) (histories w) (counter w)))
    (fun _ w =>
       let (r, l) := pop (credits w) (inr 100%Z) in
       (r, mkWorld (uploads w) l (submissions w) (histories w) (counter w)))
    (fun _ w => (inr tt, w))
    (fun _ _ w =>
       let (r, l) :=
         pop (submissions w)
             (inr (mkGenerateResponse
                     (Some (mkAigcData (Some (js "h1")))))) in
       (r, mkWorld (uploads w) (credits w) l (histories w) (counter w)))
    (fun _ _ w =>
       let (r, l) := pop (histories w) (inr []) in
       (r, mkWorld (uploads w) (credits w) (submissions w) l (counter w)))
    (fun w =>
       (js "id-" ++ [(97 + counter w)%N],
        mkWorld (uploads w) (credits w) (submissions w) (histories w)
                (counter w + 1)))
    (fun _ w => (7%Z, w))
    (fun w => (1700000000000%Z, w)).

(** Sample values for the exception table and class. *)
Definition exceptions : Exceptions :=
  mkExceptions
    (fun ex =>
       match ex with
       | API_REQUEST_FAILED => Number (-2001)
       | API_CONTENT_FILTERED => Number (-2006)
       | API_IMAGE_GENERATION_FAILED => Number (-2007)
       | API_IMAGE_GENERATION_INSUFFICIENT_POINTS => Number (-2009)
       end)
    (fun _ _ => Undefined)
    (fun ex m =>
       match m with
       | Some s => Some s
       | None =>
         Some (match ex with
               | API_REQUEST_FAILED => js "请求失败"
               | API_CONTENT_FILTERED => js "内容由于合规问题已被阻止生成"
               | API_IMAGE_GENERATION_FAILED => js "图像生成失败"
               | API_IMAGE_GENERATION_INSUFFICIENT_POINTS => js "即梦积分不足"
               end)
       end).

Definition picture (url : string) : Item := mkItem (Some (js url)) None.

(** An error of [request] that reports the provider's code 2039. *)
Definition no_credit : Error :=
  Thrown Undefined (Some (js "[请求jimeng失败]: 2039 insufficient credit")).

Definition no_options : Options := mkOptions None None None None None.

End Script.

(** ** Vocabulary of the statements *)

(** [wp c post st]: running [c] from [st] ends in a result and a state
    that satisfy [post]. *)
Definition wp {World A : Type} (c : M World A)
           (post : Res A -> State World -> Prop) (st : State World) : Prop :=
  post (fst (c st)) (snd (c st)).

(** The trace after a computation, as the trace before followed by events
    that all satisfy [P]. *)
Definition extends (P : Event -> Prop) (tr tr' : list Event) : Prop :=
  exists evs, tr' = tr ++ evs /\ Forall P evs.

(** The events of one pass of the polling loop, [n] times. *)
Fixpoint ticks (refreshToken historyId : jsstring) (n : nat) : list Event :=
  match n with
  | O => []
  | S n' =>
    EvSleep 1000 :: EvPoll refreshToken historyId
            :: ticks refreshToken historyId n'
  end.

(** The events of the submission stage: the calls before the polling loop,
    with every submitted request satisfying [Q]. *)
Definition job_event (Q : RequestData -> Prop) (ev : Event) : Prop :=
  match ev with
  | EvUpload _ _ | EvGetCredit _ | EvReceiveCredit _ => True
  | EvSubmit _ d => Q d
  | EvAttempt _ | EvSleep _ | EvPoll _ _ => False
  end.

(** A reference image was supplied and its upload gave a usable URI: the
    condition [hasFilePath && uploadID] of the request builder, read off the
    world in which [generateImages] starts. *)
Definition reference_uploaded {World : Type} (env : Env World)
           (options : Options) (refreshToken : jsstring) (w : World) : bool :=
  let filePath := with_default (filePath options) [] in
  truthy filePath
  && match fst (uploadFile env refreshToken filePath w) with
     | inr uploadID => truthy_opt uploadID
     | inl _ => false
     end.

(** The first statement of [generateImages]: the upload of the reference
    image when a path is given. *)
Definition upload_stage {World : Type} (env : Env World) (X : Exceptions)
           (options : Options) (refreshToken : jsstring)
  : M World (option jsstring) :=
  let filePath := with_default (filePath options) [] in
  let hasFilePath := truthy filePath in
  if hasFilePath then upload_reference env X refreshToken filePath
  else ret None.

(** The calls of [generateImages] that come before the request is built:
    the upload of the reference image when a path is given, the balance
    query, and the top-up when the balance is zero or less. *)
Definition credit_stage {World : Type} (env : Env World) (X : Exceptions)
           (options : Options) (refreshToken : jsstring)
  : M World (option jsstring) :=
  uploadID <- upload_stage env X options refreshToken ;;
  totalCredit <- call (EvGetCredit refreshToken)
                      (getCredit env refreshToken) ;;
  (if (totalCredit <=? 0)%Z
   then call (EvReceiveCredit refreshToken) (receiveCredit env refreshToken)
   else ret tt) ;;;
  ret uploadID.

(** What the core parameters of an ability graph hold. *)
Definition abilities_match (blend : bool) (model : property jsstring)
           (prompt : jsstring) (ir : option Z) (fw fh : Z) (rt : jsstring) (a : Abilities) : Prop :=
  let cp := core_param_of a in
  cp_model cp = model
  /\ cp_image_ratio cp = ir
  /\ lii_width (cp_large_image_info cp) = fw
  /\ lii_height (cp_large_image_info cp) = fh
  /\ lii_resolution_type (cp_large_image_info cp) = rt
  /\ if blend
     then (exists b, ab_shape a = ShapeBlend b)
          /\ cp_prompt cp = prompt ++ js "##"
     else (exists g, ab_shape a = ShapeGenerate g) /\ cp_prompt cp = prompt.

(** A submitted request carries one ability graph, built from the geometry
    of the call. *)
Definition request_matches (blend : bool) (_model prompt : jsstring)
           (options : Options) (d : RequestData) : Prop :=
  let g := request_geometry _model prompt options in
  exists a dims,
    abilities_of d = [a]
    /\ dimensions g = Some dims
    /\ abilities_match blend (getModel _model) prompt (imageRatio g)
                       (width dims) (height dims) (resolutionType g) a.

(** [answers env refreshToken historyId w records w']: from the world [w], the successive history
    queries for the job are answered with the entries [records], and leave
    the world [w']. *)
Inductive answers {World : Type} (env : Env World)
          (refreshToken historyId : jsstring)
  : World -> list HistoryRecord -> World -> Prop :=
| answers_nil : forall w, answers env refreshToken historyId w [] w
| answers_cons : forall w response w1 record records w',
    request_history env refreshToken historyId w = (inr response, w1) ->
    lookup response historyId = Some record ->
    answers env refreshToken historyId w1 records w' ->
    answers env refreshToken historyId w (record :: records) w'.

(** The entry keeps the loop going: a processing status, no result. *)
Definition keeps_polling (record : HistoryRecord) : bool :=
  is_processing (status record) && no_items (item_list record).

Definition vars_of (record : HistoryRecord) (retryCount : nat) : PollVars :=
  mkPollVars (status record) (fail_code record) (item_list record)
             retryCount.

(** The loop variables after the entries [records] have been read. *)
Fixpoint vars_after (v : PollVars) (records : list HistoryRecord)
  : PollVars :=
  match records with
  | [] => v
  | record :: rest => vars_after (vars_of record (S (pv_retryCount v))) rest
  end.

(** One attempt of the wrapper: the announcement, then the inner pipeline on
    the options with the resolution of the tier. *)
Definition attempt {World : Type}
           (inner : Options -> M World (list (option jsstring)))
           (options : Options) (level : jsstring) (st : State World)
  : Res (list (option jsstring)) * State World :=
  inner (set_resolution options (Some level))
        (mkState (world st) (trace st ++ [EvAttempt level])).

(** The sixteen pairs of the two dimension tables: tier, aspect code, width,
    height. *)
Definition fixed_pairs : list (jsstring * jsstring * Z * Z) :=
  [ (js "1k", js "21:9", 2016%Z, 846%Z);
    (js "1k", js "16:9", 1664%Z, 936%Z);
    (js "1k", js "3:2", 1584%Z, 1056%Z);
    (js "1k", js "4:3", 1472%Z, 1104%Z);
    (js "1k", js "1:1", 1328%Z, 1328%Z);
    (js "1k", js "3:4", 1104%Z, 1472%Z);
    (js "1k", js "2:3", 1056%Z, 1584%Z);
    (js "1k", js "9:16", 936%Z, 1664%Z);
    (js "2k", js "21:9", 3024%Z, 1296%Z);
    (js "2k", js "16:9", 2560%Z, 1440%Z);
    (js "2k", js "3:2", 2496%Z, 1664%Z);
    (js "2k", js "4:3", 2304%Z, 1728%Z);
    (js "2k", js "1:1", 2048%Z, 2048%Z);
    (js "2k", js "3:4", 1728%Z, 2304%Z);
    (js "2k", js "2:3", 1664%Z, 2496%Z);
    (js "2k", js "9:16", 1440%Z, 2560%Z) ].

(** ** Vocabulary of the further properties *)

(** The input does not go on with a unit of the class [p]. *)
Definition stops (p : N -> bool) (s : jsstring) : Prop :=
  match s with [] => True | c :: _ => p c = false end.

(** The place of a call in the submission stage. *)
Definition stage (ev : Event) : nat :=
  match ev with
  | EvUpload _ _ => 0
  | EvGetCredit _ => 1
  | EvReceiveCredit _ => 2
  | EvSubmit _ _ => 3
  | EvSleep _ | EvPoll _ _ | EvAttempt _ => 4
  end.

(** Strictly ascending places: each call at most once, in the order of the
    source. *)
Fixpoint ascending (l : list nat) : bool :=
  match l with
  | a :: (b :: _) as rest => (a <? b)%nat && ascending rest
  | _ => true
  end.

(** Some balance query for the token was answered with zero or less. *)
Definition balance_exhausted {World : Type} (env : Env World)
           (refreshToken : jsstring) : Prop :=
  exists w totalCredit w1,
    getCredit env refreshToken w = (inr totalCredit, w1)
    /\ (totalCredit <= 0)%Z.

(** A call of the submission stage made for the caller's token (and path),
    with [R] when it is a top-up and [Q] on what is submitted. *)
Definition call_event (refreshToken filePath : jsstring) (R : Prop)
           (Q : RequestData -> Prop) (ev : Event) : Prop :=
  match ev with
  | EvUpload t f => t = refreshToken /\ f = filePath /\ truthy filePath = true
  | EvGetCredit t => t = refreshToken
  | EvReceiveCredit t => t = refreshToken /\ R
  | EvSubmit t d => t = refreshToken /\ Q d
  | EvAttempt _ | EvSleep _ | EvPoll _ _ => False
  end.

(** What the two shapes of an ability graph hold besides the core
    parameters common to both. *)
Definition shape_matches {World : Type} (env : Env World)
           (hasFilePath : bool) (negativePrompt : jsstring) (a : Abilities)
  : Prop :=
  match ab_shape a with
  | ShapeGenerate gen =>
    cp_negative_prompt (gen_core_param gen) = Some negativePrompt
    /\ exists w,
        cp_seed (gen_core_param gen)
        = Some (fst (random_below env 100000000 w) + 2500000000)%Z
  | ShapeBlend b =>
    hasFilePath = true
    /\ cp_negative_prompt (blend_core_param b) = None
    /\ cp_seed (blend_core_param b) = None
    /\ exists uri id4 id5,
        truthy uri = true
        /\ blend_ability_list b
           = [mkByteEdit id4 [uri] [mkImageRef id5 uri uri] (1 # 2)]
  end.

(** What the request data hold around the ability graph. *)
Definition envelope_matches {World : Type} (env : Env World)
           (_model prompt : jsstring) (options : Options) (d : RequestData)
  : Prop :=
  let hasFilePath := truthy (with_default (filePath options) []) in
  let g := request_geometry _model prompt options in
  let model := getModel _model in
  rd_root_model d = model
  /\ rd_metrics_extra d
     = (if hasFilePath then None
        else Some (mkMetrics
                     [mkSceneOption model (resolutionType g)
                        (if is4xModel _model && eqb (resolutionType g) (js "2k")
                         then 4%Z else 1%Z)
                        (template_property model ++ js "-"
                                           ++ resolutionType g)]
                     (rd_submit_id d)))
  /\ exists c,
      dr_component_list (rd_draft_content d) = [c]
      /\ dr_main_component_id (rd_draft_content d) = co_id c
      /\ co_generate_type c = (if hasFilePath then js "blend" else js "generate")
      /\ cp_sample_strength (core_param_of (co_abilities c))
         = with_default (sampleStrength options) (1 # 2)
      /\ shape_matches env hasFilePath
                       (with_default (negativePrompt options) [])
                       (co_abilities c).

(** ** Scenarios on the scripted world *)

Module Scenario.

Import Script.

Definition entry (r : HistoryRecord) : Error + HistoryResponse :=
  inr [(js "h1", r)].

(** A world in which the job ["h1"] is answered with [records], one entry
    per history query, and with no entry afterwards. *)
Definition job_world (records : list HistoryRecord) : World :=
  mkWorld [] [] [] (map entry records) 0.

Definition busy : HistoryRecord :=
  mkHistoryRecord (Number 20) Undefined (Some []).

Definition finished : HistoryRecord :=
  mkHistoryRecord (Number 50) Undefined
                  (Some [picture "https://x/img1.png"]).

Definition rejected : HistoryRecord :=
  mkHistoryRecord (Number 30) (Str (js "2038")) (Some []).

Definition model : jsstring := js "jimeng-image-4.5".
Definition cat : jsstring := js "a cat".
Definition tok : jsstring := js "tok".

(** The submission at ["2k"] is refused for lack of credits, the one at
    ["1k"] goes through. *)
Definition short_of_credit_once : World :=
  mkWorld [] [] [inl no_credit] [entry finished] 0.

(** Both tiers are refused for lack of credits. *)
Definition short_of_credit_twice : World :=
  mkWorld [] [] [inl no_credit; inl no_credit] [entry finished] 0.

(** An answer with a finished status that has no [item_list]. *)
Definition finished_without_list : HistoryRecord :=
  mkHistoryRecord (Number 21) Undefined None.

Definition hangup : Error :=
  Thrown (Str (js "ECONNRESET")) (Some (js "socket hang up")).

Definition with_reference : Options :=
  mkOptions None None None None (Some (js "https://x/ref.png")).

(** The upload of the reference fails. *)
Definition upload_fails : World :=
  mkWorld [inl hangup] [] [] [entry finished] 0.

(** The upload of the reference gives no URI. *)
Definition upload_without_uri : World :=
  mkWorld [inr None] [] [] [entry finished] 0.

(** The balance is zero and the top-up fails. *)
Definition env_without_topup : Env World :=
  mkEnv (uploadFile env) (getCredit env)
        (fun _ w => (inl hangup, w))
        (request_generate env) (request_history env)
        (uuid env) (random_below env) (now env).

Definition no_balance : World :=
  mkWorld [] [inr 0%Z] [] [entry finished] 0.

(** The balance query fails. *)
Definition balance_fails : World :=
  mkWorld [] [inl hangup] [] [entry finished] 0.

(** One busy answer, then the history query fails. *)
Definition poll_fails : World :=
  mkWorld [] [] [] [entry busy; inl hangup] 0.

(** The submission is answered with the job id ["constructor"], and the
    history query with an object that has no entry. *)
Definition job_named_constructor : World :=
  mkWorld [] []
          [inr (mkGenerateResponse
                  (Some (mkAigcData (Some (js "constructor")))))]
          [inr []] 0.

End Scenario.

(** * Properties *)

(** ** Strings and tables *)

Lemma eqb_eq : forall a b, eqb a b = true <-> a = b.
Proof.
  induction a as [|x a IH]; destruct b as [|y b]; simpl; split;
    try congruence; try reflexivity.
  - intros H. apply andb_true_iff in H. destruct H as [Hx Hr].
    apply N.eqb_eq in Hx. apply IH in Hr. congruence.
  - intros H. inversion H; subst. apply andb_true_iff. split.
    + apply N.eqb_refl.
    + apply IH. reflexivity.
Qed.

Lemma eqb_refl : forall a, eqb a a = true.
Proof. intros a. apply eqb_eq. reflexivity. Qed.

Lemma eqb_neq : forall a b, eqb a b = false <-> a <> b.
Proof.
  intros a b. split.
  - intros H E. apply eqb_eq in E. congruence.
  - intros H. destruct (eqb a b) eqn:E; [|reflexivity].
    apply eqb_eq in E. contradiction.
Qed.

Lemma array_includes_In : forall arr x, array_includes arr x = true <-> In x arr.
Proof.
  intros arr x. unfold array_includes. rewrite existsb_exists. split.
  - intros [y [Hin Heq]]. apply eqb_eq in Heq. subst. exact Hin.
  - intros Hin. exists x. split; [exact Hin | apply eqb_refl].
Qed.

Lemma lookup_In : forall (A : Type) (tbl : list (jsstring * A)) k v,
    lookup tbl k = Some v -> In k (map fst tbl).
Proof.
  induction tbl as [|[k' v'] tbl IH]; simpl; intros k v H; [discriminate|].
  destruct (eqb k' k) eqn:E.
  - left. apply eqb_eq. exact E.
  - right. eapply IH. exact H.
Qed.

Lemma In_lookup : forall (A : Type) (tbl : list (jsstring * A)) k,
    In k (map fst tbl) -> exists v, lookup tbl k = Some v.
Proof.
  induction tbl as [|[k' v'] tbl IH]; simpl; intros k H; [contradiction|].
  destruct (eqb k' k) eqn:E.
  - eexists. reflexivity.
  - destruct H as [H|H].
    + subst. rewrite eqb_refl in E. discriminate.
    + apply IH. exact H.
Qed.

Lemma hasOwnProperty_In : forall (A : Type) (tbl : list (jsstring * A)) k,
    hasOwnProperty tbl k = true <-> In k (map fst tbl).
Proof.
  intros A tbl k. unfold hasOwnProperty. split.
  - destruct (lookup tbl k) eqn:E; [|discriminate].
    intros _. eapply lookup_In. exact E.
  - intros H. apply In_lookup in H. destruct H as [v Hv]. rewrite Hv.
    reflexivity.
Qed.

Lemma RATIO_VALUES_keys : map fst RATIO_VALUES = ASPECT_RATIOS.
Proof. reflexivity. Qed.

Lemma DIMENSIONS_1K_keys : map fst DIMENSIONS_1K = ASPECT_RATIOS.
Proof. reflexivity. Qed.

Lemma DIMENSIONS_2K_keys : map fst DIMENSIONS_2K = ASPECT_RATIOS.
Proof. reflexivity. Qed.

Lemma ASPECT_RATIOS_truthy : forall k, In k ASPECT_RATIOS -> truthy k = true.
Proof.
  intros k H. unfold ASPECT_RATIOS in H. simpl in H.
  repeat (destruct H as [H|H]; [subst; reflexivity|]). contradiction.
Qed.

(** ** The prompt detector *)

Example js_fullwidth_colon : js "：" = [65306%N].
Proof. reflexivity. Qed.

Example js_keyword : js "横屏" = [27178%N; 23631%N].
Proof. reflexivity. Qed.

Example detect_plain :
  detectAspectRatioKey (js "a cat 16:9 wide") = Some (js "16:9").
Proof. vm_compute. reflexivity. Qed.

Example detect_fullwidth :
  detectAspectRatioKey (js "比例 3 ： 4 的海报") = Some (js "3:4").
Proof. vm_compute. reflexivity. Qed.

Example detect_skips_unsupported :
  detectAspectRatioKey (js "at 10:30 draw 5:4 then 2:3 or 16:9")
  = Some (js "2:3").
Proof. vm_compute. reflexivity. Qed.

Example detect_leading_zero :
  detectAspectRatioKey (js "016:9") = None.
Proof. vm_compute. reflexivity. Qed.

Example detect_keyword :
  detectAspectRatioKey (js "手机壁纸") = Some (js "9:16").
Proof. vm_compute. reflexivity. Qed.

Lemma first_supported_In : forall matches key,
    first_supported matches = Some key -> In key ASPECT_RATIOS.
Proof.
  induction matches as [|m rest IH]; cbn [first_supported]; intros key H;
    [discriminate|].
  cbv zeta in H.
  destruct (array_includes ASPECT_RATIOS (ratio_key m)) eqn:E.
  - inversion H; subst. apply array_includes_In. exact E.
  - apply IH. exact H.
Qed.

Lemma detectAspectRatioKey_supported : forall prompt key,
    detectAspectRatioKey prompt = Some key -> In key ASPECT_RATIOS.
Proof.
  intros prompt key. unfold detectAspectRatioKey.
  destruct (first_supported (Regex.matchAll ratioRegex prompt)) eqn:E.
  - intros H. inversion H; subst. eapply first_supported_In. exact E.
  - repeat match goal with
           | |- context [if ?c then _ else _] => destruct c
           end; intros H; inversion H; subst;
      apply array_includes_In; reflexivity.
Qed.

(** A match of [ratioRegex] takes at least one code unit, so the fuel of
    [matchAll] is never what stops the search. *)
Lemma star_shorter : forall (R : Type) p s (k : jsstring -> option R) r,
    Regex.star p s k = Some r ->
    exists rest, (List.length rest <= List.length s)%nat /\ k rest = Some r.
Proof.
  induction s as [|c s IH]; simpl; intros k r H.
  - exists []. split; [simpl; lia | exact H].
  - destruct (p c).
    + destruct (Regex.star p s k) eqn:E.
      * inversion H; subst. apply IH in E. destruct E as [rest [Hl Hk]].
        exists rest. split; [lia | exact Hk].
      * exists (c :: s). split; [simpl; lia | exact H].
    + exists (c :: s). split; [simpl; lia | exact H].
Qed.

Lemma ratioRegex_consumes : forall s rest caps,
    Regex.match_here ratioRegex s = Some (rest, caps) ->
    (List.length rest < List.length s)%nat.
Proof.
  intros s rest caps. unfold Regex.match_here, ratioRegex. simpl.
  destruct s as [|c s]; [discriminate|].
  destruct (Regex.digit c); [|discriminate].
  intros H. apply star_shorter in H. destruct H as [r1 [L1 H]].
  apply star_shorter in H. destruct H as [r2 [L2 H]].
  destruct r2 as [|c2 r2]; [discriminate|].
  destruct (colon c2); [|discriminate].
  apply star_shorter in H. destruct H as [r3 [L3 H]].
  destruct r3 as [|c3 r3]; [discriminate|].
  destruct (Regex.digit c3); [|discriminate].
  apply star_shorter in H. destruct H as [r4 [L4 H]].
  inversion H; subst. simpl in *. lia.
Qed.

Lemma matchAll_fuel : forall fuel s,
    (List.length s < fuel)%nat ->
    Regex.matchAll_from fuel ratioRegex s = Regex.matchAll ratioRegex s.
Proof.
  unfold Regex.matchAll.
  intros fuel s. remember (List.length s) as n eqn:Hn.
  revert fuel s Hn.
  induction n as [n IH] using lt_wf_ind. intros fuel s Hn Hlt.
  destruct fuel as [|fuel]; [lia|]. simpl.
  destruct (Regex.match_here ratioRegex s) as [[rest caps]|] eqn:E.
  - pose proof (ratioRegex_consumes _ E) as Hc.
    assert (Hb : (List.length rest <? List.length s)%nat = true)
      by (apply Nat.ltb_lt; exact Hc).
    rewrite Hb. f_equal.
    rewrite (IH (List.length rest)) by (try reflexivity; lia).
    destruct n as [|n]; [lia|].
    rewrite (IH (List.length rest) ltac:(lia) (S n)) by (try reflexivity; lia).
    reflexivity.
  - destruct s as [|c s]; [reflexivity|]. simpl in Hn.
    rewrite (IH (List.length s)) by (try reflexivity; lia).
    destruct n as [|n]; [lia|].
    rewrite (IH (List.length s) ltac:(lia) (S n)) by (try reflexivity; lia).
    reflexivity.
Qed.

(** ** The geometry resolver *)

Lemma select_validRatio_supported : forall prompt ratio,
    In (select_validRatio prompt ratio) ASPECT_RATIOS.
Proof.
  intros prompt ratio. unfold select_validRatio.
  assert (Hv : In (if negb (hasOwnProperty RATIO_VALUES ratio)
                   then js "1:1" else ratio) ASPECT_RATIOS).
  { destruct (hasOwnProperty RATIO_VALUES ratio) eqn:E; cbn [negb].
    - apply hasOwnProperty_In in E. rewrite RATIO_VALUES_keys in E. exact E.
    - apply array_includes_In. reflexivity. }
  destruct (detectAspectRatioKey prompt) as [d|] eqn:D; [|exact Hv].
  destruct (truthy d && _); [|exact Hv].
  eapply detectAspectRatioKey_supported. exact D.
Qed.

Lemma select_resolutionType_tier : forall modelName resolution,
    In (select_resolutionType modelName resolution) [js "1k"; js "2k"].
Proof.
  intros modelName resolution. unfold select_resolutionType.
  destruct (is2xModel modelName); [left; reflexivity|].
  destruct (array_includes [js "1k"; js "2k"] resolution) eqn:E; cbn [negb].
  - apply array_includes_In. exact E.
  - destruct (is4xModel modelName); [right; left|left]; reflexivity.
Qed.

Lemma dimensionMap_keys : forall rt, map fst (dimensionMap rt) = ASPECT_RATIOS.
Proof.
  intros rt. unfold dimensionMap. destruct (eqb rt (js "2k")); reflexivity.
Qed.

(** The lookup [dimensionMap[validRatio]] never gives [undefined]. *)
Lemma request_geometry_dimensions : forall _model prompt options,
    exists d, dimensions (request_geometry _model prompt options) = Some d.
Proof.
  intros. unfold request_geometry, resolve_geometry. cbn [dimensions].
  apply In_lookup. rewrite dimensionMap_keys.
  apply select_validRatio_supported.
Qed.

(** ** Reasoning about computations *)

Section WP.

Context {World : Type}.

Local Abbreviation wp := (wp (World:=World)).

Lemma wp_ret : forall (A : Type) (a : A) post st,
    post (Return a) st -> wp (ret a) post st.
Proof. intros. exact H. Qed.

Lemma wp_throw : forall (A : Type) e (post : Res A -> _ -> Prop) st,
    post (Throw e) st -> wp (throw e) post st.
Proof. intros. exact H. Qed.

Lemma wp_bind : forall (A B : Type) (c : M World A) (k : A -> M World B)
                       post st,
    wp c (fun r st' =>
            match r with
            | Return a => wp (k a) post st'
            | Throw e => post (Throw e) st'
            | OutOfFuel => post OutOfFuel st'
            end) st ->
    wp (bind c k) post st.
Proof.
  unfold wp, bind. intros A B c k post st H.
  destruct (c st) as [[a|e|] st']; exact H.
Qed.

Lemma wp_try_catch : forall (A : Type) (c : M World A) handler post st,
    wp c (fun r st' =>
            match r with
            | Throw e => wp (handler e) post st'
            | _ => post r st'
            end) st ->
    wp (try_catch c handler) post st.
Proof.
  unfold wp, try_catch. intros A c handler post st H.
  destruct (c st) as [[a|e|] st']; exact H.
Qed.

Lemma wp_emit : forall ev post st,
    post (Return tt) (mkState (world st) (trace st ++ [ev])) ->
    wp (emit ev) post st.
Proof. intros. exact H. Qed.

Lemma wp_call : forall (A : Type) ev
                       (f : World -> (Error + A) * World) post st,
    (forall r w', f (world st) = (r, w') ->
                  post (match r with inl e => Throw e | inr a => Return a end)
                       (mkState w' (trace st ++ [ev]))) ->
    wp (call ev f) post st.
Proof.
  unfold wp, call. intros A ev f post st H.
  destruct (f (world st)) as [r w'] eqn:E. apply H. reflexivity.
Qed.

Lemma wp_draw : forall (A : Type) (f : World -> A * World) post st,
    (forall a w', f (world st) = (a, w') ->
                  post (Return a) (mkState w' (trace st))) ->
    wp (draw f) post st.
Proof.
  unfold wp, draw. intros A f post st H.
  destruct (f (world st)) as [a w'] eqn:E. apply H. reflexivity.
Qed.

Lemma wp_mono : forall (A : Type) (c : M World A)
                       (post post' : Res A -> State World -> Prop) st,
    wp c post st ->
    (forall r st', post r st' -> post' r st') ->
    wp c post' st.
Proof. unfold wp. intros. auto. Qed.

Lemma extends_refl : forall P tr, extends P tr tr.
Proof. intros P tr. exists []. rewrite app_nil_r. auto. Qed.

Lemma extends_snoc : forall P tr tr' ev,
    extends P tr tr' -> P ev -> extends P tr (tr' ++ [ev]).
Proof.
  intros P tr tr' ev [evs [E F]] H. exists (evs ++ [ev]). split.
  - rewrite E. rewrite app_assoc. reflexivity.
  - apply Forall_app. auto.
Qed.

Lemma extends_trans : forall P tr tr' tr'',
    extends P tr tr' -> extends P tr' tr'' -> extends P tr tr''.
Proof.
  intros P tr tr' tr'' [e1 [E1 F1]] [e2 [E2 F2]]. exists (e1 ++ e2). split.
  - rewrite E2, E1. rewrite app_assoc. reflexivity.
  - apply Forall_app. auto.
Qed.

Lemma extends_weaken : forall (P P' : Event -> Prop) tr tr',
    (forall ev, P ev -> P' ev) -> extends P tr tr' -> extends P' tr tr'.
Proof.
  intros P P' tr tr' H [evs [E F]]. exists evs. split; [exact E|].
  eapply Forall_impl; eauto.
Qed.

End WP.

Ltac wp_step :=
  lazymatch goal with
  | |- wp (bind _ _) _ _ => apply wp_bind
  | |- wp (ret _) _ _ => apply wp_ret
  | |- wp (throw _) _ _ => apply wp_throw
  | |- wp (emit _) _ _ => apply wp_emit
  | |- wp (try_catch _ _) _ _ => apply wp_try_catch
  | |- wp (call _ _) _ _ =>
    let r := fresh "r" in
    let w := fresh "w" in
    let H := fresh "Hcall" in
    apply wp_call; intros r w H; destruct r; cbv beta iota
  | |- wp (draw _) _ _ =>
    let a := fresh "a" in
    let w := fresh "w" in
    let H := fresh "Hdraw" in
    apply wp_draw; intros a w H; cbv beta iota
  | |- wp (util_uuid _) _ _ => unfold util_uuid
  end.

(** ** Traces *)

Lemma submitted_app : forall a b, submitted (a ++ b) = submitted a ++ submitted b.
Proof. intros. unfold submitted. apply flat_map_app. Qed.

Lemma attempts_app : forall a b, attempts (a ++ b) = attempts a ++ attempts b.
Proof. intros. unfold attempts. apply flat_map_app. Qed.

Lemma polls_app : forall a b, polls (a ++ b) = polls a ++ polls b.
Proof. intros. unfold polls. apply flat_map_app. Qed.

Lemma ticks_snoc : forall t h n,
    ticks t h n ++ [EvSleep 1000; EvPoll t h] = ticks t h (S n).
Proof.
  induction n as [|n IH]; [reflexivity|].
  cbn [ticks app]. rewrite IH. reflexivity.
Qed.

Lemma ticks_polls : forall t h n, polls (ticks t h n) = repeat h n.
Proof.
  induction n as [|n IH]; [reflexivity|].
  cbn [ticks]. unfold polls in *. cbn [flat_map app repeat]. rewrite IH.
  reflexivity.
Qed.

Lemma ticks_attempts : forall t h n, attempts (ticks t h n) = [].
Proof.
  induction n as [|n IH]; [reflexivity|].
  cbn [ticks]. unfold attempts in *. cbn [flat_map app]. exact IH.
Qed.

Lemma ticks_submitted : forall t h n, submitted (ticks t h n) = [].
Proof.
  induction n as [|n IH]; [reflexivity|].
  cbn [ticks]. unfold submitted in *. cbn [flat_map app]. exact IH.
Qed.

Lemma job_events_attempts : forall Q evs,
    Forall (job_event Q) evs -> attempts evs = [].
Proof.
  induction 1 as [|ev evs H _ IH]; [reflexivity|].
  unfold attempts in *. cbn [flat_map]. rewrite IH.
  destruct ev; try reflexivity; contradiction.
Qed.

Lemma job_events_polls : forall Q evs,
    Forall (job_event Q) evs -> polls evs = [].
Proof.
  induction 1 as [|ev evs H _ IH]; [reflexivity|].
  unfold polls in *. cbn [flat_map]. rewrite IH.
  destruct ev; try reflexivity; contradiction.
Qed.

Lemma job_events_submitted : forall Q evs,
    Forall (job_event Q) evs -> Forall Q (submitted evs).
Proof.
  induction 1 as [|ev evs H _ IH]; [constructor|].
  unfold submitted in *. cbn [flat_map].
  destruct ev; cbn [app]; try exact IH. constructor; assumption.
Qed.

(** ** The submission stage *)

Lemma build_abilities_spec :
  forall (World : Type) (env : Env World) h u model prompt neg ss ir fw fh rt
         (st : State World),
    wp (build_abilities env h u model prompt neg ss ir fw fh rt)
       (fun r st' =>
          exists a w',
            r = Return a /\ st' = mkState w' (trace st)
            /\ abilities_match (h && truthy_opt u) model prompt ir fw fh rt a)
       st.
Proof.
  intros. unfold build_abilities.
  destruct (h && truthy_opt u); cbv zeta;
    repeat (first [wp_step | progress cbv beta iota]);
    cbn [trace]; do 2 eexists; (split; [reflexivity|]);
      (split; [reflexivity|]);
      unfold abilities_match, core_param_of; cbn;
        repeat split; eauto.
Qed.

Ltac leaf :=
  split;
  [ cbn [trace]; repeat (apply extends_snoc; [|exact I]); assumption
  | discriminate ].

(** The submission stage calls the upload, the credit service and the
    submission endpoint only, and what it submits is built from the geometry
    of the call and from the outcome of the upload. *)
Lemma submit_job_events :
  forall (World : Type) (env : Env World) X _model prompt options token
         (st : State World),
    wp (submit_job env X _model prompt options token)
       (fun r st' =>
          extends
            (job_event
               (request_matches
                  (reference_uploaded env options token (world st))
                  _model prompt options))
            (trace st) (trace st')
          /\ r <> OutOfFuel)
       st.
Proof.
  intros. unfold submit_job. cbv zeta.
  set (fp := with_default (filePath options) []).
  set (Q := request_matches _ _ _ _).
  apply wp_bind.
  apply wp_mono with
      (post := fun r st1 =>
                 extends (job_event Q) (trace st) (trace st1)
                 /\ match r with
                    | Return u =>
                      truthy fp && truthy_opt u
                      = reference_uploaded env options token (world st)
                    | Throw _ => True
                    | OutOfFuel => False
                    end).
  - unfold reference_uploaded. fold fp. destruct (truthy fp) eqn:Hfp.
    + unfold upload_reference. wp_step. wp_step.
      * wp_step. split; [|exact I].
        cbn [trace]. apply extends_snoc; [apply extends_refl | exact I].
      * split.
        -- cbn [trace]. apply extends_snoc; [apply extends_refl | exact I].
        -- rewrite Hcall. reflexivity.
    + wp_step. split; [apply extends_refl | reflexivity].
  - intros [u|e|] st1 [Hext Hu];
      [| split; [exact Hext | discriminate] | contradiction].
    destruct (request_geometry_dimensions _model prompt options) as [dims Hd].
    rewrite Hd.
    assert (HQ : forall a submitId draftId componentId metadataId time m gt,
               abilities_match (truthy fp && truthy_opt u) (getModel _model)
                 prompt (imageRatio (request_geometry _model prompt options))
                 (width dims) (height dims)
                 (resolutionType (request_geometry _model prompt options)) a ->
               Q (mkRequestData (getModel _model) submitId m
                    (mkDraft draftId componentId
                       [mkComponent componentId metadataId time gt a]))).
    { intros a ? ? ? ? ? ? ? Ha. exists a, dims.
      split; [reflexivity|]. split; [exact Hd|].
      rewrite <- Hu. exact Ha. }
    wp_step. wp_step; [leaf|].
    wp_step.
    apply wp_mono with
        (post := fun r st2 =>
                   extends (job_event Q) (trace st) (trace st2)
                   /\ r <> OutOfFuel).
    { match goal with
      | |- context [(?t <=? 0)%Z] => destruct (t <=? 0)%Z
      end; wp_step; leaf. }
    intros [[]|e|] st2 [Hext2 Hr]; [| leaf | contradiction].
    wp_step. wp_step. wp_step.
    wp_step. eapply wp_mono; [apply build_abilities_spec|].
    intros r st3 [ab [w3 [-> [-> Ha]]]]. cbv beta iota.
    repeat (first [wp_step | progress cbv beta iota]).
    + split; [|discriminate]. cbn [trace].
      apply extends_snoc; [assumption | apply HQ; exact Ha].
    + match goal with
      | |- context [aigc_data ?resp] =>
        destruct (aigc_data resp) as [data|];
          [destruct (history_record_id data) as [h|]; [destruct (truthy h)|]|]
      end;
        wp_step; (split; [|discriminate]); cbn [trace];
          (apply extends_snoc; [assumption | apply HQ; exact Ha]).
Qed.

(** ** The polling loop *)

Lemma poll_continues_budget : forall v,
    poll_continues v = true -> (pv_retryCount v < MAX_POLL_RETRIES)%nat.
Proof.
  intros v H. unfold poll_continues in H.
  apply andb_true_iff in H. destruct H as [_ H].
  apply Nat.ltb_lt. exact H.
Qed.

(** The loop only sleeps and polls, in pairs; the number of pairs is bounded
    by what is left of the budget; a normal exit leaves the loop condition
    false; the model runs out of fuel only if it was given less than the
    budget left. *)
Lemma poll_loop_events :
  forall (World : Type) (env : Env World) token hid fuel v (st : State World),
    wp (poll_loop env fuel token hid v)
       (fun r st' =>
          exists n,
            trace st' = trace st ++ ticks token hid n
            /\ (n <= MAX_POLL_RETRIES - pv_retryCount v)%nat
            /\ (r = OutOfFuel ->
                (fuel + pv_retryCount v < MAX_POLL_RETRIES)%nat)
            /\ (forall v', r = Return v' ->
                           pv_retryCount v' = (pv_retryCount v + n)%nat
                           /\ poll_continues v' = false))
       st.
Proof.
  intros World env token hid fuel.
  induction fuel as [|fuel IH]; intros v st; cbn [poll_loop];
    destruct (poll_continues v) eqn:Hc;
    try (exists 0%nat; cbn [ticks]; rewrite app_nil_r;
         cbv [ret out_of_fuel fst snd];
         try apply poll_continues_budget in Hc;
         split; [reflexivity|]; split; [lia|]; split;
         [ intros E; try discriminate; lia
         | intros v' E; inversion E; subst; (split; [lia | exact Hc]) ]).
  apply poll_continues_budget in Hc.
  wp_step. wp_step. wp_step. wp_step.
  - exists 1%nat. cbn [trace ticks]. rewrite <- app_assoc.
    split; [reflexivity|]. split; [lia|].
    split; intros; discriminate.
  - match goal with
    | |- context [get ?resp hid] => destruct (get resp hid) as [record|b|]
    end.
    + eapply wp_mono; [apply IH|].
      intros r st' [n [Ht [Hn [Hf Hv]]]]. cbn [trace pv_retryCount] in *.
      exists (S n). rewrite Ht. rewrite <- !app_assoc.
      split; [reflexivity|]. split; [lia|]. split.
      * intros E. apply Hf in E. lia.
      * intros v' E. apply Hv in E. destruct E as [E1 E2].
        split; [lia | exact E2].
    + eapply wp_mono; [apply IH|].
      intros r st' [n [Ht [Hn [Hf Hv]]]]. cbn [trace pv_retryCount] in *.
      exists (S n). rewrite Ht. rewrite <- !app_assoc.
      split; [reflexivity|]. split; [lia|]. split.
      * intros E. apply Hf in E. lia.
      * intros v' E. apply Hv in E. destruct E as [E1 E2].
        split; [lia | exact E2].
    + wp_step. exists 1%nat. cbn [trace ticks]. rewrite <- app_assoc.
      split; [reflexivity|]. split; [lia|].
      split; intros; discriminate.
Qed.

Lemma poll_events :
  forall (World : Type) (env : Env World) token hid (st : State World),
    wp (poll env token hid)
       (fun r st' =>
          exists n,
            trace st' = trace st ++ ticks token hid n
            /\ (n <= MAX_POLL_RETRIES)%nat
            /\ r <> OutOfFuel)
       st.
Proof.
  intros. unfold poll. wp_step.
  eapply wp_mono; [apply poll_loop_events|].
  intros r st' [n [Ht [Hn [Hf Hv]]]]. cbn [poll_init pv_retryCount] in *.
  destruct r as [v'| e |].
  - unfold poll_result.
    repeat match goal with
           | |- wp (if ?b then _ else _) _ _ => destruct b
           | |- wp (match ?x with _ => _ end) _ _ => destruct x
           end; wp_step; exists n;
      (split; [exact Ht|]); (split; [lia | discriminate]).
  - exists n. split; [exact Ht|]. split; [lia | discriminate].
  - specialize (Hf eq_refl). lia.
Qed.

(** The polling loop of the controller never exhausts the fuel of its model. *)
Lemma poll_loop_total :
  forall (World : Type) (env : Env World) token hid (st : State World),
    fst (poll_loop env MAX_POLL_RETRIES token hid poll_init st) <> OutOfFuel.
Proof.
  intros World env token hid st E.
  destruct (poll_loop_events env token hid MAX_POLL_RETRIES poll_init st)
    as [n [_ [_ [Hf _]]]].
  apply Hf in E. cbn [poll_init pv_retryCount] in E. lia.
Qed.

(** The events of a whole call of [generateImages]. *)
Lemma generateImages_events :
  forall (World : Type) (env : Env World) X _model prompt options token
         (st : State World),
    wp (generateImages env X _model prompt options token)
       (fun r st' =>
          exists evs hid n,
            trace st' = trace st ++ evs ++ ticks token hid n
            /\ Forall (job_event
                         (request_matches
                            (reference_uploaded env options token (world st))
                            _model prompt options)) evs
            /\ (n <= MAX_POLL_RETRIES)%nat
            /\ r <> OutOfFuel)
       st.
Proof.
  intros. unfold generateImages. wp_step.
  eapply wp_mono; [apply submit_job_events|].
  intros r st1 [[evs [Ht Hf]] Hr]. destruct r as [hid|e|].
  - eapply wp_mono; [apply poll_events|].
    intros r st2 [n [Ht2 [Hn Hr2]]].
    exists evs, hid, n. rewrite Ht2, Ht. rewrite <- app_assoc.
    split; [reflexivity|]. split; [exact Hf|]. split; assumption.
  - exists evs, [], 0%nat. cbn [ticks]. rewrite app_nil_r.
    split; [exact Ht|]. split; [exact Hf|]. split; [lia | discriminate].
  - contradiction.
Qed.

Lemma generateImages_total :
  forall (World : Type) (env : Env World) X _model prompt options token
         (st : State World),
    fst (generateImages env X _model prompt options token st) <> OutOfFuel.
Proof.
  intros.
  destruct (generateImages_events env X _model prompt options token st)
    as [evs [hid [n [_ [_ [_ H]]]]]].
  exact H.
Qed.

Lemma generateImages_attempts :
  forall (World : Type) (env : Env World) X _model prompt options token
         (st : State World),
    attempts (trace (snd (generateImages env X _model prompt options token st)))
    = attempts (trace st).
Proof.
  intros.
  destruct (generateImages_events env X _model prompt options token st)
    as [evs [hid [n [Ht [Hf _]]]]].
  rewrite Ht. rewrite !attempts_app.
  rewrite (job_events_attempts Hf), ticks_attempts, !app_nil_r. reflexivity.
Qed.

(** ** Answers of the history query *)

Section Answers.

Context {World : Type}.
Variable env : Env World.
Variables refreshToken historyId : jsstring.

Local Abbreviation answers := (answers env refreshToken historyId).

Lemma answers_app : forall w l1 l2 w',
    answers w (l1 ++ l2) w' ->
    exists wm, answers w l1 wm /\ answers wm l2 w'.
Proof.
  intros w l1. revert w.
  induction l1 as [|r l1 IH]; cbn [app]; intros w l2 w' H.
  - exists w. split; [constructor | exact H].
  - inversion H; subst.
    match goal with
    | Hr : answers _ (l1 ++ l2) _ |- _ =>
      apply IH in Hr; destruct Hr as [wm [Ha Hb]]
    end.
    exists wm. split; [econstructor; eauto | exact Hb].
Qed.

Lemma vars_after_snoc : forall records v record,
    vars_after v (records ++ [record])
    = vars_of record (S (pv_retryCount v + List.length records)).
Proof.
  induction records as [|r records IH]; intros v record; cbn [app vars_after].
  - cbn [List.length]. rewrite Nat.add_0_r. reflexivity.
  - rewrite IH. cbn [vars_of pv_retryCount List.length].
    f_equal. lia.
Qed.

Lemma vars_after_retryCount : forall records v,
    pv_retryCount (vars_after v records)
    = (pv_retryCount v + List.length records)%nat.
Proof.
  induction records as [|r records IH]; intros v; cbn [vars_after List.length].
  - lia.
  - rewrite IH. cbn [vars_of pv_retryCount]. lia.
Qed.

Lemma vars_after_keeps : forall records v,
    is_processing (pv_status v) && no_items (pv_item_list v) = true ->
    Forall (fun r => keeps_polling r = true) records ->
    is_processing (pv_status (vars_after v records))
    && no_items (pv_item_list (vars_after v records)) = true.
Proof.
  induction records as [|r records IH]; intros v Hv Hall; cbn [vars_after].
  - exact Hv.
  - inversion Hall; subst. apply IH; [|assumption].
    cbn [vars_of pv_status pv_item_list]. assumption.
Qed.

(** One pass of the loop on an answer that holds the entry. *)
Lemma poll_loop_step : forall fuel v w tr response w1 record,
    poll_continues v = true ->
    request_history env refreshToken historyId w = (inr response, w1) ->
    lookup response historyId = Some record ->
    poll_loop env (S fuel) refreshToken historyId v (mkState w tr)
    = poll_loop env fuel refreshToken historyId
                (vars_of record (S (pv_retryCount v)))
                (mkState w1 (tr ++ ticks refreshToken historyId 1)).
Proof.
  intros fuel v w tr response w1 record Hc Hq Hl.
  cbn [poll_loop]. rewrite Hc.
  unfold bind, emit, call, get. cbn [world trace]. rewrite Hq, Hl.
  rewrite <- app_assoc. reflexivity.
Qed.

(** One pass of the loop on an answer without the entry, for a job id
    under which the answer inherits nothing. *)
Lemma poll_loop_missing : forall fuel v w tr response w1,
    poll_continues v = true ->
    request_history env refreshToken historyId w = (inr response, w1) ->
    lookup response historyId = None ->
    lookup Object_prototype historyId = None ->
    poll_loop env (S fuel) refreshToken historyId v (mkState w tr)
    = (Throw RecordMissing,
       mkState w1 (tr ++ ticks refreshToken historyId 1)).
Proof.
  intros fuel v w tr response w1 Hc Hq Hl Hp.
  cbn [poll_loop]. rewrite Hc.
  unfold bind, emit, call, get. cbn [world trace]. rewrite Hq, Hl, Hp.
  rewrite <- app_assoc. reflexivity.
Qed.

(** One pass of the loop on an answer without the entry, for a job id that
    names a property of [Object.prototype]: the guard does not fire, and
    the three variables are read as [undefined]. *)
Lemma poll_loop_inherited : forall fuel v w tr response w1 b,
    poll_continues v = true ->
    request_history env refreshToken historyId w = (inr response, w1) ->
    lookup response historyId = None ->
    lookup Object_prototype historyId = Some b ->
    poll_loop env (S fuel) refreshToken historyId v (mkState w tr)
    = poll_loop env fuel refreshToken historyId
                (mkPollVars Undefined Undefined None (S (pv_retryCount v)))
                (mkState w1 (tr ++ ticks refreshToken historyId 1)).
Proof.
  intros fuel v w tr response w1 b Hc Hq Hl Hp.
  cbn [poll_loop]. rewrite Hc.
  unfold bind, emit, call, get. cbn [world trace]. rewrite Hq, Hl, Hp.
  rewrite <- app_assoc. reflexivity.
Qed.

Lemma poll_loop_exit : forall fuel v st,
    poll_continues v = false ->
    poll_loop env fuel refreshToken historyId v st = (Return v, st).
Proof.
  intros fuel v st Hc. destruct fuel; cbn [poll_loop]; rewrite Hc;
    reflexivity.
Qed.

Lemma ticks_add : forall n m,
    ticks refreshToken historyId n ++ ticks refreshToken historyId m
    = ticks refreshToken historyId (n + m).
Proof.
  induction n as [|n IH]; intros m; [reflexivity|].
  cbn [ticks app Nat.add]. rewrite IH. reflexivity.
Qed.

(** The loop over a run of entries that all keep it going. *)
Lemma poll_loop_answers : forall w records w',
    answers w records w' ->
    forall fuel v tr,
      Forall (fun r => keeps_polling r = true) records ->
      is_processing (pv_status v) && no_items (pv_item_list v) = true ->
      (pv_retryCount v + List.length records <= MAX_POLL_RETRIES)%nat ->
      poll_loop env (List.length records + fuel) refreshToken historyId v
                (mkState w tr)
      = poll_loop env fuel refreshToken historyId (vars_after v records)
                  (mkState w'
                     (tr ++ ticks refreshToken historyId
                                  (List.length records))).
Proof.
  induction 1 as [w | w response w1 record records w' Hq Hl _ IH];
    intros fuel v tr Hall Hv Hb.
  - cbn [List.length ticks vars_after Nat.add]. rewrite app_nil_r.
    reflexivity.
  - cbn [List.length] in *. inversion Hall; subst.
    cbn [Nat.add].
    assert (Hc : poll_continues v = true).
    { unfold poll_continues. rewrite Hv. cbn [andb].
      apply Nat.ltb_lt. lia. }
    erewrite poll_loop_step; [| exact Hc | exact Hq | exact Hl].
    rewrite IH; try assumption.
    + cbn [vars_after]. rewrite <- app_assoc, ticks_add. reflexivity.
    + cbn [vars_of pv_retryCount]. lia.
Qed.

End Answers.

(** ** Polling runs *)

Section PollingRuns.

Context {World : Type}.
Variable env : Env World.
Variables refreshToken historyId : jsstring.

Local Abbreviation answers := (answers env refreshToken historyId).
Local Abbreviation ticks := (ticks refreshToken historyId).

Lemma poll_init_keeps :
  is_processing (pv_status poll_init) && no_items (pv_item_list poll_init)
  = true.
Proof. reflexivity. Qed.

(** Entries that keep the loop going, then one that does not: the loop
    leaves with the variables read from that entry. *)
Lemma poll_leaves_on : forall w records record w' tr,
    answers w (records ++ [record]) w' ->
    Forall (fun r => keeps_polling r = true) records ->
    keeps_polling record = false ->
    (List.length records < MAX_POLL_RETRIES)%nat ->
    poll env refreshToken historyId (mkState w tr)
    = poll_result (vars_of record (S (List.length records)))
                  (mkState w' (tr ++ ticks (S (List.length records)))).
Proof.
  intros w records record w' tr Ha Hall Hlast Hlen.
  apply answers_app in Ha. destruct Ha as [wm [Ha Hb]].
  inversion Hb as [|? response w1 ? ? ? Hq Hl Hnil]; subst.
  inversion Hnil; subst.
  unfold poll, bind.
  replace MAX_POLL_RETRIES
    with (List.length records + S (MAX_POLL_RETRIES - S (List.length records)))%nat
    at 1 by lia.
  rewrite (poll_loop_answers Ha _ _ _ Hall poll_init_keeps)
    by (cbn [poll_init pv_retryCount]; lia).
  erewrite poll_loop_step; [| | exact Hq | exact Hl].
  - rewrite poll_loop_exit.
    + rewrite vars_after_retryCount. cbn [poll_init pv_retryCount Nat.add].
      rewrite <- app_assoc, ticks_add.
      replace (List.length records + 1)%nat with (S (List.length records))
        by lia.
      reflexivity.
    + unfold poll_continues. cbn [vars_of pv_status pv_item_list].
      unfold keeps_polling in Hlast. rewrite Hlast. reflexivity.
  - unfold poll_continues.
    rewrite (vars_after_keeps poll_init poll_init_keeps Hall). cbn [andb].
    rewrite vars_after_retryCount. cbn [poll_init pv_retryCount].
    apply Nat.ltb_lt. lia.
Qed.

(** As many entries that keep the loop going as the budget allows. *)
Lemma poll_exhausts_budget : forall w records w' tr,
    answers w records w' ->
    Forall (fun r => keeps_polling r = true) records ->
    List.length records = MAX_POLL_RETRIES ->
    poll env refreshToken historyId (mkState w tr)
    = (Throw GenerationTimeout, mkState w' (tr ++ ticks MAX_POLL_RETRIES)).
Proof.
  intros w records w' tr Ha Hall Hlen.
  unfold poll, bind.
  replace MAX_POLL_RETRIES with (List.length records + 0)%nat at 1 by lia.
  rewrite (poll_loop_answers Ha _ _ _ Hall poll_init_keeps)
    by (cbn [poll_init pv_retryCount]; lia).
  rewrite poll_loop_exit.
  - unfold poll_result. rewrite vars_after_retryCount.
    cbn [poll_init pv_retryCount Nat.add]. rewrite Hlen.
    rewrite Nat.leb_refl. reflexivity.
  - unfold poll_continues. rewrite vars_after_retryCount.
    cbn [poll_init pv_retryCount Nat.add]. rewrite Hlen.
    rewrite Nat.ltb_irrefl. apply andb_false_r.
Qed.

(** Entries that keep the loop going, then an answer without the entry. *)
Lemma poll_record_missing : forall w records w' response w'' tr,
    answers w records w' ->
    Forall (fun r => keeps_polling r = true) records ->
    (List.length records < MAX_POLL_RETRIES)%nat ->
    request_history env refreshToken historyId w' = (inr response, w'') ->
    lookup response historyId = None ->
    lookup Object_prototype historyId = None ->
    poll env refreshToken historyId (mkState w tr)
    = (Throw RecordMissing,
       mkState w'' (tr ++ ticks (S (List.length records)))).
Proof.
  intros w records w' response w'' tr Ha Hall Hlen Hq Hl Hp.
  unfold poll, bind.
  replace MAX_POLL_RETRIES
    with (List.length records + S (MAX_POLL_RETRIES - S (List.length records)))%nat
    at 1 by lia.
  rewrite (poll_loop_answers Ha _ _ _ Hall poll_init_keeps)
    by (cbn [poll_init pv_retryCount]; lia).
  erewrite poll_loop_missing; [| | exact Hq | exact Hl | exact Hp].
  - rewrite <- app_assoc, ticks_add.
    replace (List.length records + 1)%nat with (S (List.length records))
      by lia.
    reflexivity.
  - unfold poll_continues.
    rewrite (vars_after_keeps poll_init poll_init_keeps Hall). cbn [andb].
    rewrite vars_after_retryCount. cbn [poll_init pv_retryCount].
    apply Nat.ltb_lt. lia.
Qed.

(** Entries that keep the loop going, then an answer without the entry, for
    a job id that names a property of [Object.prototype]: the guard
    [!result[historyId]] reads the inherited property and does not fire; the
    loop leaves with [undefined] variables, and [item_list.map] raises. *)
Lemma poll_record_inherited : forall w records w' response w'' tr b,
    answers w records w' ->
    Forall (fun r => keeps_polling r = true) records ->
    (S (List.length records) < MAX_POLL_RETRIES)%nat ->
    request_history env refreshToken historyId w' = (inr response, w'') ->
    lookup response historyId = None ->
    lookup Object_prototype historyId = Some b ->
    poll env refreshToken historyId (mkState w tr)
    = (Throw (TypeError
                (js "Cannot read properties of undefined (reading 'map')")),
       mkState w'' (tr ++ ticks (S (List.length records)))).
Proof.
  intros w records w' response w'' tr b Ha Hall Hlen Hq Hl Hp.
  unfold poll, bind.
  replace MAX_POLL_RETRIES
    with (List.length records + S (MAX_POLL_RETRIES - S (List.length records)))%nat
    at 1 by lia.
  rewrite (poll_loop_answers Ha _ _ _ Hall poll_init_keeps)
    by (cbn [poll_init pv_retryCount]; lia).
  erewrite poll_loop_inherited; [| | exact Hq | exact Hl | exact Hp].
  - rewrite poll_loop_exit by reflexivity.
    unfold poll_result. cbn [pv_retryCount pv_status pv_item_list].
    rewrite vars_after_retryCount. cbn [poll_init pv_retryCount Nat.add].
    assert (E : (MAX_POLL_RETRIES <=? S (List.length records))%nat = false)
      by (apply Nat.leb_gt; exact Hlen).
    rewrite E. cbn [strict_eq FAIL_STATE].
    rewrite <- app_assoc, ticks_add.
    replace (List.length records + 1)%nat with (S (List.length records))
      by lia.
    reflexivity.
  - unfold poll_continues.
    rewrite (vars_after_keeps poll_init poll_init_keeps Hall). cbn [andb].
    rewrite vars_after_retryCount. cbn [poll_init pv_retryCount].
    apply Nat.ltb_lt. lia.
Qed.

(** After the loop, with budget left: no timeout. *)
Lemma poll_result_in_budget : forall v st,
    (pv_retryCount v < MAX_POLL_RETRIES)%nat ->
    fst (poll_result (World:=World) v st) <> Throw GenerationTimeout
    /\ fst (poll_result (World:=World) v st) <> OutOfFuel.
Proof.
  intros v st H. unfold poll_result.
  assert (E : (MAX_POLL_RETRIES <=? pv_retryCount v)%nat = false)
    by (apply Nat.leb_gt; exact H).
  rewrite E.
  destruct (strict_eq (pv_status v) FAIL_STATE);
    [destruct (strict_eq (pv_failCode v) (Str (js "2038")))
    | destruct (pv_item_list v)];
    split; discriminate.
Qed.

(** After the loop, with budget left and the fail state: the fail code
    decides between the two errors. *)
Lemma poll_result_fail_state : forall v st,
    (pv_retryCount v < MAX_POLL_RETRIES)%nat ->
    pv_status v = FAIL_STATE ->
    poll_result (World:=World) v st
    = (Throw (if strict_eq (pv_failCode v) (Str (js "2038"))
              then ContentFiltered else GenerationFailed), st).
Proof.
  intros v st H Hs. unfold poll_result.
  assert (E : (MAX_POLL_RETRIES <=? pv_retryCount v)%nat = false)
    by (apply Nat.leb_gt; exact H).
  rewrite E, Hs. cbn [strict_eq FAIL_STATE]. rewrite Z.eqb_refl.
  destruct (strict_eq (pv_failCode v) (Str (js "2038"))); reflexivity.
Qed.

(** After the loop, with the budget used up: the timeout, whatever the
    status. *)
Lemma poll_result_out_of_budget : forall v st,
    (MAX_POLL_RETRIES <= pv_retryCount v)%nat ->
    poll_result (World:=World) v st = (Throw GenerationTimeout, st).
Proof.
  intros v st H. unfold poll_result.
  assert (E : (MAX_POLL_RETRIES <=? pv_retryCount v)%nat = true)
    by (apply Nat.leb_le; exact H).
  rewrite E. reflexivity.
Qed.

End PollingRuns.

Lemma generateImages_poll :
  forall (World : Type) (env : Env World) X _model prompt options token
         (st st1 : State World) hid,
    submit_job env X _model prompt options token st = (Return hid, st1) ->
    generateImages env X _model prompt options token st
    = poll env token hid st1.
Proof.
  intros. unfold generateImages, bind. rewrite H. reflexivity.
Qed.

(** ** The retry wrapper *)

Section RetryFacts.

Context {World : Type}.
Variable X : Exceptions.
Variable inner : Options -> M World (list (option jsstring)).
Variable options : Options.

(** The loop at the higher tier. *)
Lemma retry_loop_2k : forall fuel st,
    retry_loop X inner options (S (S fuel)) 0 st
    = match attempt inner options (js "2k") st with
      | (Throw e, st1) =>
        if isInsufficientCredits X e
        then retry_loop X inner options (S fuel) 1 st1
        else (Throw e, st1)
      | r => r
      end.
Proof.
  intros fuel st. unfold attempt.
  change (retry_loop X inner options (S (S fuel)) 0 st)
    with (try_catch
            (emit (EvAttempt (js "2k")) ;;;
             inner (set_resolution options (Some (js "2k"))))
            (fun error =>
               let insufficient := isInsufficientCredits X error in
               if insufficient && true
               then retry_loop X inner options (S fuel) 1
               else if insufficient then throw InsufficientCredits
                    else throw error) st).
  unfold try_catch, bind, emit.
  destruct (inner _ _) as [[a|e|] st1]; try reflexivity.
  cbv zeta. destruct (isInsufficientCredits X e); reflexivity.
Qed.

(** The loop at the lowest tier. *)
Lemma retry_loop_1k : forall fuel st,
    retry_loop X inner options (S fuel) 1 st
    = match attempt inner options (js "1k") st with
      | (Throw e, st1) =>
        (Throw (if isInsufficientCredits X e
                then InsufficientCredits else e), st1)
      | r => r
      end.
Proof.
  intros fuel st. unfold attempt.
  change (retry_loop X inner options (S fuel) 1 st)
    with (try_catch
            (emit (EvAttempt (js "1k")) ;;;
             inner (set_resolution options (Some (js "1k"))))
            (fun error =>
               let insufficient := isInsufficientCredits X error in
               if insufficient && false
               then retry_loop X inner options fuel 2
               else if insufficient then throw InsufficientCredits
                    else throw error) st).
  unfold try_catch, bind, emit.
  destruct (inner _ _) as [[a|e|] st1]; try reflexivity.
  cbv zeta. destruct (isInsufficientCredits X e); reflexivity.
Qed.

(** The wrapper never exhausts the fuel of its model, as long as the inner
    pipeline does not. *)
Lemma retry_loop_total : forall st i,
    (forall o s, fst (inner o s) <> OutOfFuel) ->
    (i <= 1)%nat ->
    fst (retry_loop X inner options (List.length resolutionLevels) i st)
    <> OutOfFuel.
Proof.
  intros st i Hin Hi.
  change (List.length resolutionLevels) with 2%nat.
  assert (H1 : forall s, fst (retry_loop X inner options 1 1 s) <> OutOfFuel).
  { intros s. rewrite retry_loop_1k. unfold attempt.
    specialize (Hin (set_resolution options (Some (js "1k")))
                    (mkState (world s) (trace s ++ [EvAttempt (js "1k")]))).
    destruct (inner _ _) as [[a|e|] s1]; cbn [fst] in *;
      try discriminate. contradiction. }
  destruct i as [|[|i]]; [| | lia].
  - rewrite retry_loop_2k. unfold attempt.
    specialize (Hin (set_resolution options (Some (js "2k")))
                    (mkState (world st) (trace st ++ [EvAttempt (js "2k")]))).
    destruct (inner _ _) as [[a|e|] s1]; cbn [fst] in *;
      try discriminate; [|contradiction].
    destruct (isInsufficientCredits X e); [apply H1 | discriminate].
  - rewrite retry_loop_1k. unfold attempt.
    specialize (Hin (set_resolution options (Some (js "1k")))
                    (mkState (world st) (trace st ++ [EvAttempt (js "1k")]))).
    destruct (inner _ _) as [[a|e|] s1]; cbn [fst] in *;
      try discriminate. contradiction.
Qed.

End RetryFacts.

(** The wrapper starts at the higher tier unless the caller asked for
    ["1k"]. *)
Lemma start_index_cases : forall options,
    (resolution options = Some (js "1k") /\ start_index options = 1%nat)
    \/ (resolution options <> Some (js "1k") /\ start_index options = 0%nat).
Proof.
  intros options. unfold start_index.
  destruct (resolution options) as [r|]; cbn [truthy_opt with_default].
  - destruct (truthy r) eqn:Ht.
    + unfold indexOf, resolutionLevels. cbn [indexOf_from].
      destruct (eqb (js "2k") r) eqn:E2.
      * right. split; [|reflexivity].
        apply eqb_eq in E2. subst. discriminate.
      * destruct (eqb (js "1k") r) eqn:E1.
        -- left. apply eqb_eq in E1. subst. split; reflexivity.
        -- right. split; [|reflexivity].
           intros E. inversion E; subst. discriminate.
    + right. split; [|reflexivity].
      intros E. inversion E; subst. discriminate.
  - right. split; [discriminate | reflexivity].
Qed.

Lemma attempt_attempts :
  forall (World : Type) (env : Env World) X _model prompt options token level
         (st : State World),
    attempts
      (trace (snd (attempt
                     (fun o => generateImages env X _model prompt o token)
                     options level st)))
    = attempts (trace st) ++ [level].
Proof.
  intros. unfold attempt. rewrite generateImages_attempts.
  cbn [trace]. rewrite attempts_app. reflexivity.
Qed.

(** The wrapper always ends with a value or an exception. *)
Lemma generateImagesWithRetry_total :
  forall (World : Type) (env : Env World) X _model prompt options token
         (st : State World),
    fst (generateImagesWithRetry env X _model prompt options token st)
    <> OutOfFuel.
Proof.
  intros. unfold generateImagesWithRetry. apply retry_loop_total.
  - intros o s. apply generateImages_total.
  - destruct (start_index_cases options) as [[_ H]|[_ H]]; rewrite H; lia.
Qed.

(** With the sample exception table, the errors that [generateImages]
    raises by itself do not carry the insufficient-credits signature. *)
Example own_errors_not_insufficient :
  map (isInsufficientCredits Script.exceptions)
      [GenerationTimeout; RecordMissing; HistoryIdMissing; GenerationFailed;
       ContentFiltered; ReferenceUploadFailed (Some (js "ENOENT"))]
  = [false; false; false; false; false; false].
Proof. vm_compute. reflexivity. Qed.

(** * The claims *)

(** ** Resilience wrapper *)

(** C1. A failure of the inner pipeline that is classified as insufficient
    credits makes [generateImagesWithRetry] run the whole inner pipeline
    once more at the next lower tier of [["2k"; "1k"]], and the outcome of
    that second run is the outcome of the call, except that a second
    insufficient-credits failure becomes [InsufficientCredits] with the
    remediation text.  Starting at ["2k"] the inner pipeline is entered
    exactly twice, at ["2k"] then at ["1k"]; starting at ["1k"], the lowest
    tier, an insufficient-credits failure ends the call with
    [InsufficientCredits] after one run. *)
Theorem C1_credit_downgrade :
  forall (World : Type) (env : Env World) (X : Exceptions)
         (_model prompt : jsstring) (options : Options) (token : jsstring)
         (st : State World),
    let pipeline := fun o => generateImages env X _model prompt o token in
    let wrapper := generateImagesWithRetry env X _model prompt options token in
    (start_index options = 0%nat ->
     forall e1 st1,
       attempt pipeline options (js "2k") st = (Throw e1, st1) ->
       isInsufficientCredits X e1 = true ->
       wrapper st
       = match attempt pipeline options (js "1k") st1 with
         | (Throw e2, st2) =>
           (Throw (if isInsufficientCredits X e2
                   then InsufficientCredits else e2), st2)
         | r => r
         end
       /\ attempts (trace (snd (wrapper st)))
          = attempts (trace st) ++ [js "2k"; js "1k"])
    /\ (start_index options = 1%nat ->
        forall e1 st1,
          attempt pipeline options (js "1k") st = (Throw e1, st1) ->
          isInsufficientCredits X e1 = true ->
          wrapper st = (Throw InsufficientCredits, st1)
          /\ attempts (trace (snd (wrapper st)))
             = attempts (trace st) ++ [js "1k"]).
Proof.
  intros World env X _model prompt options token st pipeline wrapper.
  subst wrapper. unfold generateImagesWithRetry. fold pipeline.
  change (List.length resolutionLevels) with 2%nat.
  split; intros Hstart e1 st1 Hrun Hic; rewrite Hstart.
  - rewrite retry_loop_2k, Hrun, Hic, retry_loop_1k.
    split; [reflexivity|].
    assert (Ha1 : attempts (trace st1) = attempts (trace st) ++ [js "2k"]).
    { pose proof (attempt_attempts env X _model prompt options token
                                   (js "2k") st) as H.
      fold pipeline in H. rewrite Hrun in H. exact H. }
    pose proof (attempt_attempts env X _model prompt options token
                                 (js "1k") st1) as H2.
    fold pipeline in H2.
    destruct (attempt pipeline options (js "1k") st1) as [[a|e2|] st2];
      cbn [snd] in *; rewrite H2, Ha1, <- app_assoc; reflexivity.
  - rewrite retry_loop_1k, Hrun, Hic. split; [reflexivity|].
    pose proof (attempt_attempts env X _model prompt options token
                                 (js "1k") st) as H.
    fold pipeline in H. rewrite Hrun in H. exact H.
Qed.

(** C8. An error of the inner pipeline that does not match the
    insufficient-credits signature leaves [generateImagesWithRetry] as it
    is, in the state in which the inner pipeline raised it: on the first
    attempt, whatever the starting tier, and on the second attempt after a
    downgrade.  No further attempt is made. *)
Theorem C8_other_errors_propagate :
  forall (World : Type) (env : Env World) (X : Exceptions)
         (_model prompt : jsstring) (options : Options) (token : jsstring)
         (st : State World),
    let pipeline := fun o => generateImages env X _model prompt o token in
    let wrapper := generateImagesWithRetry env X _model prompt options token in
    (forall level e st1,
        nth_error resolutionLevels (start_index options) = Some level ->
        attempt pipeline options level st = (Throw e, st1) ->
        isInsufficientCredits X e = false ->
        wrapper st = (Throw e, st1)
        /\ attempts (trace st1) = attempts (trace st) ++ [level])
    /\ (forall e1 st1 e2 st2,
           start_index options = 0%nat ->
           attempt pipeline options (js "2k") st = (Throw e1, st1) ->
           isInsufficientCredits X e1 = true ->
           attempt pipeline options (js "1k") st1 = (Throw e2, st2) ->
           isInsufficientCredits X e2 = false ->
           wrapper st = (Throw e2, st2)
           /\ attempts (trace st2) = attempts (trace st) ++ [js "2k"; js "1k"]).
Proof.
  intros World env X _model prompt options token st pipeline wrapper.
  subst wrapper. unfold generateImagesWithRetry. fold pipeline.
  change (List.length resolutionLevels) with 2%nat.
  split.
  - intros level e st1 Hlevel Hrun Hic.
    pose proof (attempt_attempts env X _model prompt options token level st)
      as Ha.
    fold pipeline in Ha. rewrite Hrun in Ha. cbn [snd] in Ha.
    split; [|exact Ha].
    destruct (start_index_cases options) as [[_ Hs]|[_ Hs]];
      rewrite Hs in *.
    + assert (El : level = js "1k")
        by (cbn [nth_error resolutionLevels] in Hlevel; congruence).
      subst level. rewrite retry_loop_1k, Hrun, Hic. reflexivity.
    + assert (El : level = js "2k")
        by (cbn [nth_error resolutionLevels] in Hlevel; congruence).
      subst level. rewrite retry_loop_2k, Hrun, Hic. reflexivity.
  - intros e1 st1 e2 st2 Hstart Hrun1 Hic1 Hrun2 Hic2. rewrite Hstart.
    rewrite retry_loop_2k, Hrun1, Hic1, retry_loop_1k, Hrun2, Hic2.
    split; [reflexivity|].
    pose proof (attempt_attempts env X _model prompt options token
                                 (js "2k") st) as Ha1.
    pose proof (attempt_attempts env X _model prompt options token
                                 (js "1k") st1) as Ha2.
    fold pipeline in Ha1, Ha2. rewrite Hrun1 in Ha1. rewrite Hrun2 in Ha2.
    cbn [snd] in *. rewrite Ha2, Ha1, <- app_assoc. reflexivity.
Qed.

(** ** Polling state machine *)

(** C2. The polling loop of [generateImages] issues at most 120 history
    queries.  When the entries read keep a processing status and no result
    until one that does not, and that one is read before the 120th query,
    the call ends with what follows the loop for that entry, which is not
    the timeout error.  When 120 entries in a row keep a processing status
    and no result, the call fails with [GenerationTimeout]. *)
Theorem C2_polling_bounded :
  forall (World : Type) (env : Env World) (X : Exceptions)
         (_model prompt : jsstring) (options : Options) (token : jsstring)
         (st : State World),
    let call := generateImages env X _model prompt options token in
    (List.length (polls (trace (snd (call st))))
     <= List.length (polls (trace st)) + 120)%nat
    /\ (forall hid st1 records record w',
           submit_job env X _model prompt options token st
           = (Return hid, st1) ->
           answers env token hid (world st1) (records ++ [record]) w' ->
           Forall (fun r => keeps_polling r = true) records ->
           keeps_polling record = false ->
           (S (List.length records) < 120)%nat ->
           call st
           = poll_result (vars_of record (S (List.length records)))
               (mkState w' (trace st1
                            ++ ticks token hid (S (List.length records))))
           /\ fst (call st) <> Throw GenerationTimeout
           /\ fst (call st) <> OutOfFuel)
    /\ (forall hid st1 records w',
           submit_job env X _model prompt options token st
           = (Return hid, st1) ->
           answers env token hid (world st1) records w' ->
           Forall (fun r => keeps_polling r = true) records ->
           List.length records = 120%nat ->
           call st
           = (Throw GenerationTimeout,
              mkState w' (trace st1 ++ ticks token hid 120))).
Proof.
  intros World env X _model prompt options token st call. subst call.
  split; [|split].
  - destruct (generateImages_events env X _model prompt options token st)
      as [evs [hid [n [Ht [Hf [Hn _]]]]]].
    rewrite Ht. rewrite !polls_app.
    rewrite (job_events_polls Hf), ticks_polls. cbn [app].
    rewrite length_app, repeat_length.
    unfold MAX_POLL_RETRIES in Hn. lia.
  - intros hid st1 records record w' Hsub Hans Hall Hlast Hlen.
    rewrite (generateImages_poll env X _model prompt options token st Hsub).
    destruct st1 as [w1 tr1]. cbn [world trace] in *.
    rewrite (poll_leaves_on record tr1 Hans Hall Hlast)
      by (unfold MAX_POLL_RETRIES; lia).
    split; [reflexivity|].
    apply poll_result_in_budget.
    cbn [vars_of pv_retryCount]. unfold MAX_POLL_RETRIES. lia.
  - intros hid st1 records w' Hsub Hans Hall Hlen.
    rewrite (generateImages_poll env X _model prompt options token st Hsub).
    destruct st1 as [w1 tr1]. cbn [world trace] in *.
    rewrite (poll_exhausts_budget tr1 Hans Hall) by exact Hlen.
    reflexivity.
Qed.

(** The missing-record guard where it works.  When an answer to the history
    query has no entry for the job, and the job id is not the name of a
    property of [Object.prototype], then after any number (below the budget)
    of entries that kept the loop going the call fails at once with the
    [API_IMAGE_GENERATION_FAILED] exception "record missing": the trace ends
    with that query and the world is the one that query left, so no further
    query is made. *)
Lemma missing_record_guard :
  forall (World : Type) (env : Env World) (X : Exceptions)
         (_model prompt : jsstring) (options : Options) (token : jsstring)
         (st : State World) hid st1 records w' response w'',
    submit_job env X _model prompt options token st = (Return hid, st1) ->
    answers env token hid (world st1) records w' ->
    Forall (fun r => keeps_polling r = true) records ->
    (List.length records < 120)%nat ->
    request_history env token hid w' = (inr response, w'') ->
    lookup response hid = None ->
    lookup Object_prototype hid = None ->
    generateImages env X _model prompt options token st
    = (Throw (APIException API_IMAGE_GENERATION_FAILED
                           (Some (js "记录不存在"))),
       mkState w'' (trace st1 ++ ticks token hid (S (List.length records)))).
Proof.
  intros World env X _model prompt options token st hid st1 records w'
         response w'' Hsub Hans Hall Hlen Hq Hl Hp.
  rewrite (generateImages_poll env X _model prompt options token st Hsub).
  destruct st1 as [w1 tr1]. cbn [world trace] in *.
  assert (Hb : (List.length records < MAX_POLL_RETRIES)%nat)
    by (unfold MAX_POLL_RETRIES; exact Hlen).
  rewrite (poll_record_missing tr1 Hans Hall Hb Hq Hl Hp). reflexivity.
Qed.

(** C7, at the inputs where the code and the claim part.  When the job id is
    the name of a property of [Object.prototype] (["constructor"],
    ["toString"], ["__proto__"], ...) and an answer to the history query has
    no entry for the job, the guard [!result[historyId]] reads the inherited
    property, which is truthy, and does not fire: the call does not fail
    with the "record missing" exception but with the [TypeError] of
    [item_list.map], after that query (read before the 120th). *)
Theorem C7_missing_record_inherited_id :
  forall (World : Type) (env : Env World) (X : Exceptions)
         (_model prompt : jsstring) (options : Options) (token : jsstring)
         (st : State World) hid st1 records w' response w'' b,
    submit_job env X _model prompt options token st = (Return hid, st1) ->
    answers env token hid (world st1) records w' ->
    Forall (fun r => keeps_polling r = true) records ->
    (S (List.length records) < 120)%nat ->
    request_history env token hid w' = (inr response, w'') ->
    lookup response hid = None ->
    lookup Object_prototype hid = Some b ->
    generateImages env X _model prompt options token st
    = (Throw (TypeError
                (js "Cannot read properties of undefined (reading 'map')")),
       mkState w'' (trace st1 ++ ticks token hid (S (List.length records))))
    /\ fst (generateImages env X _model prompt options token st)
       <> Throw RecordMissing.
Proof.
  intros World env X _model prompt options token st hid st1 records w'
         response w'' b Hsub Hans Hall Hlen Hq Hl Hp.
  rewrite (generateImages_poll env X _model prompt options token st Hsub).
  destruct st1 as [w1 tr1]. cbn [world trace] in *.
  assert (Hb : (S (List.length records) < MAX_POLL_RETRIES)%nat)
    by (unfold MAX_POLL_RETRIES; exact Hlen).
  rewrite (poll_record_inherited tr1 Hans Hall Hb Hq Hl Hp).
  split; [reflexivity | discriminate].
Qed.

(** C9. When the first entry that does not keep the loop going (a status
    outside the processing set, or a result) is the one read by the 120th
    query, the call fails with [GenerationTimeout] whatever that entry
    holds: the test [retryCount >= 120] comes first after the loop. *)
Theorem C9_last_poll_discarded :
  forall (World : Type) (env : Env World) (X : Exceptions)
         (_model prompt : jsstring) (options : Options) (token : jsstring)
         (st : State World) hid st1 records record w',
    submit_job env X _model prompt options token st = (Return hid, st1) ->
    answers env token hid (world st1) (records ++ [record]) w' ->
    Forall (fun r => keeps_polling r = true) records ->
    keeps_polling record = false ->
    List.length records = 119%nat ->
    generateImages env X _model prompt options token st
    = (Throw GenerationTimeout,
       mkState w' (trace st1 ++ ticks token hid 120)).
Proof.
  intros World env X _model prompt options token st hid st1 records record w'
         Hsub Hans Hall Hlast Hlen.
  rewrite (generateImages_poll env X _model prompt options token st Hsub).
  destruct st1 as [w1 tr1]. cbn [world trace] in *.
  rewrite (poll_leaves_on record tr1 Hans Hall Hlast)
    by (unfold MAX_POLL_RETRIES; lia).
  rewrite Hlen. apply poll_result_out_of_budget.
  cbn [vars_of pv_retryCount]. unfold MAX_POLL_RETRIES. lia.
Qed.

(** The classification of the fail state, for a polling run that leaves the
    loop with budget left. *)
Lemma fail_state_classification :
  forall (World : Type) (env : Env World) (X : Exceptions)
         (_model prompt : jsstring) (options : Options) (token : jsstring)
         (st : State World) hid st1 records record w',
    submit_job env X _model prompt options token st = (Return hid, st1) ->
    answers env token hid (world st1) (records ++ [record]) w' ->
    Forall (fun r => keeps_polling r = true) records ->
    status record = Number 30 ->
    (S (List.length records) < 120)%nat ->
    fst (generateImages env X _model prompt options token st)
    = Throw (if strict_eq (fail_code record) (Str (js "2038"))
             then ContentFiltered else GenerationFailed).
Proof.
  intros World env X _model prompt options token st hid st1 records record w'
         Hsub Hans Hall Hstatus Hlen.
  rewrite (generateImages_poll env X _model prompt options token st Hsub).
  destruct st1 as [w1 tr1]. cbn [world trace] in *.
  rewrite (poll_leaves_on record tr1 Hans Hall)
    by (try (unfold keeps_polling; rewrite Hstatus; reflexivity);
        unfold MAX_POLL_RETRIES; lia).
  rewrite poll_result_fail_state.
  - reflexivity.
  - cbn [vars_of pv_retryCount]. unfold MAX_POLL_RETRIES. lia.
  - exact Hstatus.
Qed.

(** ** Aspect and resolution resolver *)

(** The tier chosen from the model name and from the [resolution] parameter
    (after its default ["2k"] has been applied). *)
Lemma tier_selection :
  forall (_model prompt : jsstring) (options : Options),
    let hint := with_default (resolution options) (js "2k") in
    let tier := resolutionType (request_geometry _model prompt options) in
    (_model = js "jimeng-image-2.0-pro" -> tier = js "1k")
    /\ (_model <> js "jimeng-image-2.0-pro" ->
        In hint [js "1k"; js "2k"] -> tier = hint)
    /\ (_model <> js "jimeng-image-2.0-pro" ->
        ~ In hint [js "1k"; js "2k"] ->
        tier = if is4xModel _model then js "2k" else js "1k").
Proof.
  intros _model prompt options hint tier. subst hint tier.
  unfold request_geometry, resolve_geometry. cbn [resolutionType].
  unfold select_resolutionType, is2xModel.
  split; [|split].
  - intros ->. rewrite eqb_refl. reflexivity.
  - intros Hm Hin. apply eqb_neq in Hm. rewrite Hm.
    apply array_includes_In in Hin. rewrite Hin. reflexivity.
  - intros Hm Hin. apply eqb_neq in Hm. rewrite Hm.
    destruct (array_includes [js "1k"; js "2k"]
                             (with_default (resolution options) (js "2k")))
             eqn:E; [|reflexivity].
    apply array_includes_In in E. contradiction.
Qed.

(** C4, at the input where the code and the claim part: with the
    [resolution] option absent, the parameter default ["2k"] is what the
    tier selection sees, so a 3.x model is given tier ["2k"] and the 2K
    table, not ["1k"]. *)
Theorem C4_unspecified_hint_older_model :
  forall (prompt : jsstring) ratio strength negative file,
    let options := mkOptions ratio None strength negative file in
    resolutionType (request_geometry (js "jimeng-image-3.0") prompt options)
    = js "2k"
    /\ resolutionType (request_geometry (js "jimeng-image-3.1") prompt options)
       = js "2k"
    /\ dimensions (request_geometry (js "jimeng-image-3.0") (js "a cat")
                                    (mkOptions None None None None None))
       = Some (mkDim 2048 2048).
Proof.
  intros. split; [|split]; reflexivity.
Qed.

(** C5. The ratio used by [generateImages]: a hint that is a supported
    aspect code other than ["1:1"] is kept whatever the prompt holds; with
    no hint, or a hint that is not a supported code, the code detected in
    the prompt is used, and ["1:1"] when none is detected; a hint of exactly
    ["1:1"] gives way to a code detected in the prompt.  The detector finds
    ["16:9"] in ["a cat 16:9 wide"]. *)
Theorem C5_ratio_precedence :
  forall (_model prompt : jsstring) (options : Options),
    let selected := validRatio (request_geometry _model prompt options) in
    (forall hint,
        ratio options = Some hint ->
        In hint ASPECT_RATIOS -> hint <> js "1:1" ->
        selected = hint)
    /\ (ratio options = None
        \/ (exists hint, ratio options = Some hint /\ ~ In hint ASPECT_RATIOS) ->
        selected = with_default (detectAspectRatioKey prompt) (js "1:1"))
    /\ (forall detected,
           ratio options = Some (js "1:1") ->
           detectAspectRatioKey prompt = Some detected ->
           selected = detected)
    /\ detectAspectRatioKey (js "a cat 16:9 wide") = Some (js "16:9").
Proof.
  intros _model prompt options selected. subst selected.
  unfold request_geometry, resolve_geometry. cbn [validRatio].
  unfold select_validRatio.
  assert (Hdefault :
            (if negb (hasOwnProperty RATIO_VALUES (js "1:1")) then js "1:1"
             else js "1:1") = js "1:1") by reflexivity.
  assert (Hdet : forall p d v,
             detectAspectRatioKey p = Some d ->
             (if truthy d && eqb v (js "1:1") then d else v)
             = if eqb v (js "1:1") then d else v).
  { intros p d v Hd. apply detectAspectRatioKey_supported in Hd.
    rewrite (ASPECT_RATIOS_truthy Hd). reflexivity. }
  split; [|split; [|split]].
  - intros hint Hr Hin Hne. rewrite Hr. cbn [with_default].
    assert (Hown : hasOwnProperty RATIO_VALUES hint = true)
      by (apply hasOwnProperty_In; rewrite RATIO_VALUES_keys; exact Hin).
    rewrite Hown. cbn [negb]. apply eqb_neq in Hne.
    destruct (detectAspectRatioKey prompt) as [d|]; [|reflexivity].
    rewrite Hne, andb_false_r. reflexivity.
  - intros [Hr | [hint [Hr Hin]]]; rewrite Hr; cbn [with_default].
    + destruct (detectAspectRatioKey prompt) as [d|] eqn:Hd;
        cbn [with_default]; [|reflexivity].
      rewrite (Hdet prompt d _ Hd). reflexivity.
    + assert (Hown : hasOwnProperty RATIO_VALUES hint = false).
      { destruct (hasOwnProperty RATIO_VALUES hint) eqn:E; [|reflexivity].
        apply hasOwnProperty_In in E. rewrite RATIO_VALUES_keys in E.
        contradiction. }
      rewrite Hown. cbn [negb].
      destruct (detectAspectRatioKey prompt) as [d|] eqn:Hd;
        cbn [with_default]; [|reflexivity].
      rewrite (Hdet prompt d _ Hd). reflexivity.
  - intros detected Hr Hd. rewrite Hr, Hd. cbn [with_default].
    rewrite (Hdet prompt detected _ Hd). reflexivity.
  - vm_compute. reflexivity.
Qed.

(** Each of the sixteen pairs is met by some call: a 4.x model, an empty
    prompt, and the aspect code and the tier as hints. *)
Lemma fixed_pairs_reachable :
  Forall (fun '(tier, code, wd, ht) =>
            let g := request_geometry (js "jimeng-image-4.5") []
                       (mkOptions (Some code) (Some tier) None None None) in
            resolutionType g = tier /\ validRatio g = code
            /\ dimensions g = Some (mkDim wd ht))
         fixed_pairs.
Proof.
  unfold fixed_pairs.
  repeat (constructor; [vm_compute; repeat split; reflexivity|]).
  constructor.
Qed.

Lemma geometry_dimensions_eq : forall _model prompt options,
    dimensions (request_geometry _model prompt options)
    = lookup (dimensionMap
                (resolutionType (request_geometry _model prompt options)))
             (validRatio (request_geometry _model prompt options)).
Proof. reflexivity. Qed.

(** What every request submitted by a call of [generateImages] holds. *)
(** The calls before the request is built submit nothing, and end in a
    value or in the error of the call that failed. *)
Lemma upload_stage_submitted :
  forall (World : Type) (env : Env World) X options token (st : State World),
    submitted (trace (snd (upload_stage env X options token st)))
    = submitted (trace st)
    /\ fst (upload_stage env X options token st) <> OutOfFuel.
Proof.
  intros. unfold upload_stage. cbv zeta.
  destruct (truthy (with_default (filePath options) []));
    [|split; [reflexivity | discriminate]].
  unfold upload_reference, try_catch, call.
  destruct (uploadFile env token _ (world st)) as [[e|u] w1];
    cbn [fst snd trace throw]; rewrite submitted_app;
      cbn [submitted flat_map app]; rewrite app_nil_r;
        split; try reflexivity; discriminate.
Qed.

Lemma credit_stage_submitted :
  forall (World : Type) (env : Env World) X options token (st : State World),
    submitted (trace (snd (credit_stage env X options token st)))
    = submitted (trace st)
    /\ fst (credit_stage env X options token st) <> OutOfFuel.
Proof.
  intros. unfold credit_stage, bind.
  destruct (upload_stage_submitted env X options token st) as [Hs Hf].
  destruct (upload_stage env X options token st) as [[u|e|] st0];
    cbn [fst snd] in *; [| split; [exact Hs | discriminate] | contradiction].
  unfold call.
  destruct (getCredit env token (world st0)) as [[e|c] w1];
    cbn [fst snd trace world].
  - rewrite submitted_app. cbn [submitted flat_map app].
    rewrite app_nil_r. split; [exact Hs | discriminate].
  - destruct (c <=? 0)%Z; cbn [world trace ret].
    + destruct (receiveCredit env token w1) as [[e|[]] w2];
        cbn [fst snd trace world ret]; rewrite !submitted_app;
          cbn [submitted flat_map app]; rewrite !app_nil_r;
            (split; [exact Hs | discriminate]).
    + cbn [fst snd trace ret]. rewrite submitted_app.
      cbn [submitted flat_map app]. rewrite app_nil_r.
      split; [exact Hs | discriminate].
Qed.

(** When one of the calls before the request fails, the whole call fails
    with that error, in the state that call left. *)
Lemma generateImages_credit_stage_throws :
  forall (World : Type) (env : Env World) X _model prompt options token
         (st st0 : State World) e,
    credit_stage env X options token st = (Throw e, st0) ->
    generateImages env X _model prompt options token st = (Throw e, st0).
Proof.
  intros World env X _model prompt options token st st0 e H.
  destruct (request_geometry_dimensions _model prompt options) as [dims Hd].
  unfold credit_stage, bind in H.
  unfold generateImages, submit_job, bind. cbv zeta.
  change (if truthy (with_default (filePath options) [])
          then upload_reference env X token (with_default (filePath options) [])
          else ret None)
    with (upload_stage env X options token).
  destruct (upload_stage env X options token st) as [[u|e0|] st1];
    [| inversion H; reflexivity | discriminate].
  rewrite Hd. unfold call in *.
  destruct (getCredit env token (world st1)) as [[e1|c] w1];
    cbn [world trace] in *; [inversion H; reflexivity|].
  destruct (c <=? 0)%Z; cbn [world trace ret] in *; [|discriminate].
  destruct (receiveCredit env token w1) as [[e2|[]] w2];
    [inversion H; reflexivity | discriminate].
Qed.

(** When they all succeed, the request is built and submitted, once. *)
Lemma generateImages_credit_stage_returns :
  forall (World : Type) (env : Env World) X _model prompt options token
         (st st0 : State World) u,
    credit_stage env X options token st = (Return u, st0) ->
    exists d,
      submitted (trace (snd (generateImages env X _model prompt options token
                                            st)))
      = submitted (trace st) ++ [d].
Proof.
  intros World env X _model prompt options token st st0 u H.
  destruct (request_geometry_dimensions _model prompt options) as [dims Hd].
  pose proof (credit_stage_submitted env X options token st) as [Hsub _].
  rewrite H in Hsub. cbn [snd] in Hsub. rewrite <- Hsub.
  unfold credit_stage, bind in H.
  cut (wp (generateImages env X _model prompt options token)
          (fun _ st' =>
             exists d, submitted (trace st')
                       = submitted (trace st0) ++ [d]) st);
    [intros Hwp; exact Hwp|].
  assert (Hpoll : forall d hid w2,
             wp (poll env token hid)
                (fun _ st' =>
                   exists d', submitted (trace st')
                              = submitted (trace st0) ++ [d'])
                (mkState w2 (trace st0 ++ [EvSubmit token d]))).
  { intros d hid w2. eapply wp_mono; [apply poll_events|].
    intros r st' [n [Ht _]]. exists d. rewrite Ht. cbn [trace].
    rewrite !submitted_app, ticks_submitted, app_nil_r. reflexivity. }
  assert (Hleaf : forall d,
             exists d', submitted (trace st0 ++ [EvSubmit token d])
                        = submitted (trace st0) ++ [d']).
  { intros d. exists d. rewrite submitted_app. reflexivity. }
  unfold generateImages, submit_job. cbv zeta.
  change (if truthy (with_default (filePath options) [])
          then upload_reference env X token (with_default (filePath options) [])
          else ret None)
    with (upload_stage env X options token).
  apply wp_bind. apply wp_bind. unfold wp at 1.
  destruct (upload_stage env X options token st) as [[u1|e0|] st1];
    [| discriminate | discriminate].
  cbn [fst snd]. rewrite Hd.
  wp_step. wp_step.
  { unfold call in H. rewrite Hcall in H. discriminate. }
  unfold call in H. rewrite Hcall in H. cbn [world trace] in H.
  wp_step.
  apply wp_mono with
      (post := fun r st2 => r = Return tt /\ trace st2 = trace st0).
  { destruct (z <=? 0)%Z.
    - wp_step.
      + rewrite Hcall0 in H. discriminate.
      + rewrite Hcall0 in H. inversion H; subst. cbn [trace].
        destruct u0. split; reflexivity.
    - wp_step. cbn [ret] in H. inversion H; subst. split; reflexivity. }
  intros r st2 [-> Htr]. destruct st2 as [w2 tr2]. cbn [trace] in Htr.
  subst tr2.
  wp_step. wp_step. wp_step.
  wp_step. eapply wp_mono; [apply build_abilities_spec|].
  intros r st3 [ab [w3 [-> [-> Ha]]]]. cbv beta iota. cbn [trace].
  repeat (first [wp_step | progress cbv beta iota]); cbn [trace].
  - apply Hleaf.
  - match goal with
    | |- context [aigc_data ?resp] =>
      destruct (aigc_data resp) as [data|];
        [destruct (history_record_id data) as [h|]; [destruct (truthy h)|]|]
    end; wp_step; first [apply Hpoll | apply Hleaf].
Qed.

Lemma generateImages_submitted :
  forall (World : Type) (env : Env World) X _model prompt options token
         (w : World),
    Forall (request_matches (reference_uploaded env options token w)
                            _model prompt options)
           (submitted
              (trace (snd (run (generateImages env X _model prompt options
                                               token) w)))).
Proof.
  intros. unfold run.
  destruct (generateImages_events env X _model prompt options token
                                  (mkState w []))
    as [evs [hid [n [Ht [Hf _]]]]].
  rewrite Ht. cbn [trace app world] in *.
  rewrite submitted_app, ticks_submitted, app_nil_r.
  apply job_events_submitted. exact Hf.
Qed.

(** C6. For each of the eight aspect codes and each of the two tiers, the
    width and height that [generateImages] uses, and places in the large
    image information of the request it submits, are the pair of the
    dimension table of that tier; every call falls under one of the sixteen
    pairs. *)
Theorem C6_dimension_table :
  forall (World : Type) (env : Env World) (X : Exceptions)
         (_model prompt : jsstring) (options : Options) (token : jsstring)
         (w : World),
    let g := request_geometry _model prompt options in
    (exists wd ht, In (resolutionType g, validRatio g, wd, ht) fixed_pairs)
    /\ forall tier code wd ht,
        In (tier, code, wd, ht) fixed_pairs ->
        resolutionType g = tier ->
        validRatio g = code ->
        dimensions g = Some (mkDim wd ht)
        /\ Forall
             (fun d =>
                Forall
                  (fun a =>
                     let info := cp_large_image_info (core_param_of a) in
                     lii_width info = wd /\ lii_height info = ht
                     /\ lii_resolution_type info = tier)
                  (abilities_of d))
             (submitted
                (trace (snd (run (generateImages env X _model prompt options
                                                 token) w)))).
Proof.
  intros World env X _model prompt options token w g.
  split.
  - pose proof (select_resolutionType_tier
                  _model (with_default (resolution options) (js "2k"))) as Ht.
    pose proof (select_validRatio_supported
                  prompt (with_default (ratio options) (js "1:1"))) as Hr.
    change (In (resolutionType g) [js "1k"; js "2k"]) in Ht.
    change (In (validRatio g) ASPECT_RATIOS) in Hr.
    unfold ASPECT_RATIOS in Hr. cbn [In] in Ht, Hr.
    destruct Ht as [Ht|[Ht|[]]]; rewrite <- Ht;
      repeat (destruct Hr as [Hr|Hr]; [rewrite <- Hr|]); try contradiction;
        do 2 eexists; unfold fixed_pairs; cbn [In];
          repeat (first [left; reflexivity | right]).
  - intros tier code wd ht Hin Htier Hcode.
    assert (Hd : dimensions g = Some (mkDim wd ht)).
    { subst g. rewrite geometry_dimensions_eq, Htier, Hcode.
      unfold fixed_pairs in Hin. cbn [In] in Hin.
      repeat (destruct Hin as [Hin|Hin];
              [inversion Hin; subst; reflexivity|]).
      contradiction. }
    split; [exact Hd|].
    eapply Forall_impl;
      [|apply (generateImages_submitted env X _model prompt options token w)].
    intros d [a [dims [Hab [Hdims Hm]]]]. fold g in Hdims.
    rewrite Hd in Hdims. inversion Hdims; subst dims.
    rewrite Hab. constructor; [|constructor].
    destruct Hm as [_ [_ [Hw [Hh [Hrt _]]]]].
    cbn [width height] in *. fold g in Hrt. rewrite Htier in Hrt. auto.
Qed.

(** ** Job request builder *)

(** C10. A call of [generateImages] whose calls before the request (the
    upload of the reference image when a path is given, the balance query,
    the top-up when the balance is zero or less) succeed submits exactly one
    request.  It carries one ability graph: with the blend shape and the
    prompt followed by ["##"] when a reference image was supplied and
    uploaded, with the generate shape and the prompt as given otherwise.
    When one of those calls fails, the call fails with that error and
    nothing is submitted. *)
Theorem C10_prompt_suffix :
  forall (World : Type) (env : Env World) (X : Exceptions)
         (_model prompt : jsstring) (options : Options) (token : jsstring)
         (w : World),
    let result := run (generateImages env X _model prompt options token) w in
    let carries :=
        fun d =>
          exists a,
            abilities_of d = [a]
            /\ if reference_uploaded env options token w
               then (exists b, ab_shape a = ShapeBlend b)
                    /\ cp_prompt (core_param_of a) = prompt ++ js "##"
               else (exists g, ab_shape a = ShapeGenerate g)
                    /\ cp_prompt (core_param_of a) = prompt in
    Forall carries (submitted (trace (snd result)))
    /\ match fst (run (credit_stage env X options token) w) with
       | Return _ =>
         exists d, submitted (trace (snd result)) = [d] /\ carries d
       | Throw e =>
         fst result = Throw e /\ submitted (trace (snd result)) = []
       | OutOfFuel => False
       end.
Proof.
  intros World env X _model prompt options token w result carries.
  assert (Hall : Forall carries (submitted (trace (snd result)))).
  { eapply Forall_impl;
      [|apply (generateImages_submitted env X _model prompt options token w)].
    intros d [a [dims [Hab [_ Hm]]]]. exists a. split; [exact Hab|].
    destruct Hm as [_ [_ [_ [_ [_ Hshape]]]]]. exact Hshape. }
  split; [exact Hall|].
  subst result. unfold run in *.
  pose proof (credit_stage_submitted env X options token (mkState w []))
    as [Hnone Hfuel].
  destruct (credit_stage env X options token (mkState w []))
    as [[u|e|] st0] eqn:Hc; cbn [fst snd trace] in *.
  - destruct (generateImages_credit_stage_returns
                env X _model prompt options token _ Hc) as [d Hd].
    cbn [trace submitted flat_map app] in Hd.
    exists d. split; [exact Hd|].
    rewrite Hd in Hall. inversion Hall; assumption.
  - rewrite (generateImages_credit_stage_throws
               env X _model prompt options token _ Hc).
    cbn [fst snd]. split; [reflexivity | exact Hnone].
  - apply Hfuel. reflexivity.
Qed.

(** * Scenarios on the scripted world *)

Module ScenarioFacts.

Import Script Scenario.

Lemma answers_scripted : forall token records u c s n,
    answers env token (js "h1")
            (mkWorld u c s (map entry records) n) records
            (mkWorld u c s [] n).
Proof.
  induction records as [|r records IH]; intros u c s n; cbn [map].
  - constructor.
  - econstructor; [reflexivity | reflexivity | apply IH].
Qed.

Lemma repeat_busy : forall n,
    Forall (fun r => keeps_polling r = true) (repeat busy n).
Proof.
  intros n. apply Forall_forall. intros r Hr.
  apply repeat_spec in Hr. subst. reflexivity.
Qed.

(** The submission stage in a job world: the job id is ["h1"], and the
    answers to the history queries are still to be read. *)
Lemma submit_scripted : forall records,
    exists tr,
      submit_job env exceptions model cat no_options tok
                 (mkState (job_world records) [])
      = (Return (js "h1"),
         mkState (mkWorld [] [] [] (map entry records) 9) tr).
Proof.
  intros records. eexists. unfold job_world. vm_compute. reflexivity.
Qed.

(** A plain run: one busy answer, then the picture. *)
Example run_succeeds :
  fst (run (generateImages env exceptions model cat no_options tok)
           (job_world [busy; finished]))
  = Return [Some (js "https://x/img1.png")].
Proof. vm_compute. reflexivity. Qed.

(** Downgrade: the submission at ["2k"] is refused, the one at ["1k"] goes
    through. *)
Example downgrade_succeeds :
  let r := run (generateImagesWithRetry env exceptions model cat no_options
                                        tok) short_of_credit_once in
  fst r = Return [Some (js "https://x/img1.png")]
  /\ attempts (trace (snd r)) = [js "2k"; js "1k"]
  /\ List.length (submitted (trace (snd r))) = 2%nat.
Proof. vm_compute. repeat split; reflexivity. Qed.

(** Both tiers are refused for lack of credits. *)
Example downgrade_exhausted :
  let r := run (generateImagesWithRetry env exceptions model cat no_options
                                        tok) short_of_credit_twice in
  fst r = Throw InsufficientCredits
  /\ attempts (trace (snd r)) = [js "2k"; js "1k"]
  /\ List.length (submitted (trace (snd r))) = 2%nat.
Proof. vm_compute. repeat split; reflexivity. Qed.

(** Blend mode: the uploaded reference and the suffixed prompt. *)
Example blend_prompt :
  map (fun d => map (fun a => cp_prompt (core_param_of a)) (abilities_of d))
      (submitted
         (trace (snd (run (generateImages env exceptions model cat
                             (mkOptions None None None None
                                        (Some (js "https://x/ref.png")))
                             tok)
                          (job_world [finished])))))
  = [[js "a cat##"]].
Proof. vm_compute. reflexivity. Qed.

Example generate_prompt :
  map (fun d => map (fun a => cp_prompt (core_param_of a)) (abilities_of d))
      (submitted
         (trace (snd (run (generateImages env exceptions model cat
                             no_options tok)
                          (job_world [finished])))))
  = [[js "a cat"]].
Proof. vm_compute. reflexivity. Qed.

(** The fail state read before the budget is used up. *)
Example content_filtered :
  fst (run (generateImages env exceptions model cat no_options tok)
           (job_world [busy; rejected]))
  = Throw ContentFiltered.
Proof. vm_compute. reflexivity. Qed.

End ScenarioFacts.

(** C3, at the input where the code and the claim part: the polling run
    reads 119 processing entries and then, on the 120th query, the fail
    state 30 with fail code ["2038"]; the call fails with the timeout
    exception, not with [ContentFiltered]. *)
Theorem C3_fail_state_on_last_poll :
  fst (run (generateImages Script.env Script.exceptions Scenario.model
                           Scenario.cat Script.no_options Scenario.tok)
           (Scenario.job_world
              (repeat Scenario.busy 119 ++ [Scenario.rejected])))
  = Throw GenerationTimeout
  /\ GenerationTimeout <> ContentFiltered.
Proof.
  split; [vm_compute; reflexivity | discriminate].
Qed.

(** * Instances of the conditional statements on the scripted world *)

Lemma C1_credit_downgrade_witness :
  let pipeline :=
      fun o => generateImages Script.env Script.exceptions Scenario.model
                              Scenario.cat o Scenario.tok in
  let wrapper :=
      generateImagesWithRetry Script.env Script.exceptions Scenario.model
                              Scenario.cat Script.no_options Scenario.tok in
  let st := mkState Scenario.short_of_credit_twice [] in
  let st1 := snd (attempt pipeline Script.no_options (js "2k") st) in
  (start_index Script.no_options = 0%nat
   /\ attempt pipeline Script.no_options (js "2k") st
      = (Throw Script.no_credit, st1)
   /\ isInsufficientCredits Script.exceptions Script.no_credit = true)
  /\ wrapper st
     = match attempt pipeline Script.no_options (js "1k") st1 with
       | (Throw e2, st2) =>
         (Throw (if isInsufficientCredits Script.exceptions e2
                 then InsufficientCredits else e2), st2)
       | r => r
       end
  /\ attempts (trace (snd (wrapper st)))
     = attempts (trace st) ++ [js "2k"; js "1k"].
Proof.
  intros pipeline wrapper st st1.
  assert (H0 : start_index Script.no_options = 0%nat) by reflexivity.
  assert (H1 : attempt pipeline Script.no_options (js "2k") st
               = (Throw Script.no_credit, st1))
    by (vm_compute; reflexivity).
  assert (H2 : isInsufficientCredits Script.exceptions Script.no_credit = true)
    by (vm_compute; reflexivity).
  split; [auto|].
  exact (proj1 (C1_credit_downgrade Script.env Script.exceptions
                                    Scenario.model Scenario.cat
                                    Script.no_options Scenario.tok st)
               H0 Script.no_credit st1 H1 H2).
Defined.

Lemma C8_other_errors_propagate_witness :
  let hangup := Thrown (Str (js "ECONNRESET")) (Some (js "socket hang up")) in
  let pipeline :=
      fun o => generateImages Script.env Script.exceptions Scenario.model
                              Scenario.cat o Scenario.tok in
  let st := mkState (Script.mkWorld [] [] [inl hangup] [] 0) [] in
  let st1 := snd (attempt pipeline Script.no_options (js "2k") st) in
  (nth_error resolutionLevels (start_index Script.no_options)
   = Some (js "2k")
   /\ attempt pipeline Script.no_options (js "2k") st = (Throw hangup, st1)
   /\ isInsufficientCredits Script.exceptions hangup = false)
  /\ generateImagesWithRetry Script.env Script.exceptions Scenario.model
                             Scenario.cat Script.no_options Scenario.tok st
     = (Throw hangup, st1)
  /\ attempts (trace st1) = attempts (trace st) ++ [js "2k"].
Proof.
  intros hangup pipeline st st1.
  assert (H0 : nth_error resolutionLevels (start_index Script.no_options)
               = Some (js "2k")) by reflexivity.
  assert (H1 : attempt pipeline Script.no_options (js "2k") st
               = (Throw hangup, st1))
    by (vm_compute; reflexivity).
  assert (H2 : isInsufficientCredits Script.exceptions hangup = false)
    by (vm_compute; reflexivity).
  split; [auto|].
  exact (proj1 (C8_other_errors_propagate Script.env Script.exceptions
                                          Scenario.model Scenario.cat
                                          Script.no_options Scenario.tok st)
               (js "2k") hangup st1 H0 H1 H2).
Defined.

Lemma C2_polling_bounded_witness :
  let call :=
      generateImages Script.env Script.exceptions Scenario.model Scenario.cat
                     Script.no_options Scenario.tok in
  let early := mkState (Scenario.job_world [Scenario.busy; Scenario.finished])
                       [] in
  let never := mkState (Scenario.job_world (repeat Scenario.busy 120)) [] in
  (fst (call early) <> Throw GenerationTimeout
   /\ fst (call early) <> OutOfFuel)
  /\ fst (call never) = Throw GenerationTimeout.
Proof.
  intros call early never.
  destruct (ScenarioFacts.submit_scripted [Scenario.busy; Scenario.finished])
    as [tr1 Hs1].
  destruct (ScenarioFacts.submit_scripted (repeat Scenario.busy 120))
    as [tr2 Hs2].
  split.
  - destruct (C2_polling_bounded Script.env Script.exceptions Scenario.model
                                 Scenario.cat Script.no_options Scenario.tok
                                 early) as [_ [Hleave _]].
    refine (proj2 (Hleave (js "h1") _ [Scenario.busy] Scenario.finished _
                          Hs1 _ _ _ _)).
    + exact (ScenarioFacts.answers_scripted
               Scenario.tok [Scenario.busy; Scenario.finished] [] [] [] 9).
    + exact (ScenarioFacts.repeat_busy 1).
    + reflexivity.
    + cbn [List.length]. lia.
  - destruct (C2_polling_bounded Script.env Script.exceptions Scenario.model
                                 Scenario.cat Script.no_options Scenario.tok
                                 never) as [_ [_ Hout]].
    unfold call.
    rewrite (Hout (js "h1") _ (repeat Scenario.busy 120) _ Hs2
                  (ScenarioFacts.answers_scripted
                     Scenario.tok (repeat Scenario.busy 120) [] [] [] 9)
                  (ScenarioFacts.repeat_busy 120)
                  (repeat_length Scenario.busy 120)).
    reflexivity.
Defined.

(** The guard on a job id under which nothing is inherited: two busy
    answers, then an answer without the entry. *)
Example missing_record_after_two :
  fst (generateImages Script.env Script.exceptions Scenario.model Scenario.cat
                      Script.no_options Scenario.tok
                      (mkState (Scenario.job_world
                                  [Scenario.busy; Scenario.busy]) []))
  = Throw RecordMissing.
Proof.
  destruct (ScenarioFacts.submit_scripted [Scenario.busy; Scenario.busy])
    as [tr Hs].
  assert (Hlen : (List.length [Scenario.busy; Scenario.busy] < 120)%nat)
    by (cbn [List.length]; lia).
  rewrite (@missing_record_guard
             _ Script.env Script.exceptions Scenario.model Scenario.cat
             Script.no_options Scenario.tok _ (js "h1") _
             [Scenario.busy; Scenario.busy] _
             [] (Script.mkWorld [] [] [] [] 9) Hs
             (ScenarioFacts.answers_scripted
                Scenario.tok [Scenario.busy; Scenario.busy] [] [] [] 9)
             (ScenarioFacts.repeat_busy 2) Hlen eq_refl eq_refl eq_refl).
  reflexivity.
Qed.

Lemma C7_missing_record_inherited_id_witness :
  let st := mkState Scenario.job_named_constructor [] in
  let call :=
      generateImages Script.env Script.exceptions Scenario.model Scenario.cat
                     Script.no_options Scenario.tok in
  (fst (submit_job Script.env Script.exceptions Scenario.model Scenario.cat
                   Script.no_options Scenario.tok st)
   = Return (js "constructor")
   /\ fst (Script.env.(request_history) Scenario.tok (js "constructor")
             (world (snd (submit_job Script.env Script.exceptions
                                     Scenario.model Scenario.cat
                                     Script.no_options Scenario.tok st))))
      = inr []
   /\ lookup Object_prototype (js "constructor")
      = Some (NativeFunction (js "Object")))
  /\ fst (call st)
     = Throw (TypeError
                (js "Cannot read properties of undefined (reading 'map')"))
  /\ List.length (polls (trace (snd (call st)))) = 1%nat.
Proof.
  intros st call.
  split; [repeat split; vm_compute; reflexivity|].
  assert (Hs : exists tr,
             submit_job Script.env Script.exceptions Scenario.model
                        Scenario.cat Script.no_options Scenario.tok st
             = (Return (js "constructor"),
                mkState (Script.mkWorld [] [] [] [inr []] 9) tr))
    by (eexists; vm_compute; reflexivity).
  destruct Hs as [tr Hs].
  assert (Hlen : (S (List.length (@nil HistoryRecord)) < 120)%nat)
    by (cbn [List.length]; lia).
  destruct (@C7_missing_record_inherited_id
              _ Script.env Script.exceptions Scenario.model Scenario.cat
              Script.no_options Scenario.tok st (js "constructor") _
              [] _ [] (Script.mkWorld [] [] [] [] 9)
              (NativeFunction (js "Object")) Hs
              (answers_nil Script.env Scenario.tok (js "constructor") _)
              (Forall_nil _) Hlen eq_refl eq_refl eq_refl) as [Hrun _].
  unfold call. rewrite Hrun. cbn [fst snd trace].
  split; [reflexivity|].
  rewrite polls_app, ticks_polls, length_app, repeat_length.
  pose proof (f_equal (fun r => polls (trace (snd r))) Hs) as Htr.
  cbn [snd trace] in Htr. rewrite <- Htr. vm_compute. reflexivity.
Defined.

Lemma C10_prompt_suffix_witness :
  let blend :=
      run (generateImages Script.env Script.exceptions Scenario.model
                          Scenario.cat Scenario.with_reference Scenario.tok)
          (Scenario.job_world [Scenario.finished]) in
  let plain :=
      run (generateImages Script.env Script.exceptions Scenario.model
                          Scenario.cat Script.no_options Scenario.tok)
          (Scenario.job_world [Scenario.finished]) in
  (exists d a,
      submitted (trace (snd blend)) = [d] /\ abilities_of d = [a]
      /\ (exists b, ab_shape a = ShapeBlend b)
      /\ cp_prompt (core_param_of a) = js "a cat##")
  /\ (exists d a,
         submitted (trace (snd plain)) = [d] /\ abilities_of d = [a]
         /\ (exists g, ab_shape a = ShapeGenerate g)
         /\ cp_prompt (core_param_of a) = js "a cat").
Proof.
  intros blend plain. split.
  - pose proof (@C10_prompt_suffix
                  _ Script.env Script.exceptions Scenario.model
                  Scenario.cat Scenario.with_reference Scenario.tok
                  (Scenario.job_world [Scenario.finished])) as H.
    cbv zeta in H. destruct H as [_ H].
    assert (Hc : fst (run (credit_stage Script.env Script.exceptions
                                        Scenario.with_reference Scenario.tok)
                          (Scenario.job_world [Scenario.finished]))
                 = Return (Some (js "tos-uri")))
      by (vm_compute; reflexivity).
    assert (Hu : reference_uploaded Script.env Scenario.with_reference
                                    Scenario.tok
                                    (Scenario.job_world [Scenario.finished])
                 = true)
      by (vm_compute; reflexivity).
    rewrite Hc in H. cbv beta in H. rewrite Hu in H.
    destruct H as [d [Hd [a [Ha [Hb Hp]]]]].
    exists d, a. repeat split; assumption.
  - pose proof (@C10_prompt_suffix
                  _ Script.env Script.exceptions Scenario.model
                  Scenario.cat Script.no_options Scenario.tok
                  (Scenario.job_world [Scenario.finished])) as H.
    cbv zeta in H. destruct H as [_ H].
    assert (Hc : fst (run (credit_stage Script.env Script.exceptions
                                        Script.no_options Scenario.tok)
                          (Scenario.job_world [Scenario.finished]))
                 = Return None)
      by (vm_compute; reflexivity).
    assert (Hu : reference_uploaded Script.env Script.no_options
                                    Scenario.tok
                                    (Scenario.job_world [Scenario.finished])
                 = false)
      by (vm_compute; reflexivity).
    rewrite Hc in H. cbv beta in H. rewrite Hu in H.
    destruct H as [d [Hd [a [Ha [Hb Hp]]]]].
    exists d, a. repeat split; assumption.
Defined.

Lemma C9_last_poll_discarded_witness :
  fst (generateImages Script.env Script.exceptions Scenario.model Scenario.cat
                      Script.no_options Scenario.tok
                      (mkState (Scenario.job_world
                                  (repeat Scenario.busy 119
                                   ++ [Scenario.finished])) []))
  = Throw GenerationTimeout.
Proof.
  destruct (ScenarioFacts.submit_scripted
              (repeat Scenario.busy 119 ++ [Scenario.finished])) as [tr Hs].
  rewrite (@C9_last_poll_discarded
             _ Script.env Script.exceptions Scenario.model Scenario.cat
             Script.no_options Scenario.tok _ (js "h1") _
             (repeat Scenario.busy 119) Scenario.finished _ Hs
             (ScenarioFacts.answers_scripted
                Scenario.tok
                (repeat Scenario.busy 119 ++ [Scenario.finished]) [] [] [] 9)
             (ScenarioFacts.repeat_busy 119) eq_refl
             (repeat_length Scenario.busy 119)).
  reflexivity.
Defined.

Lemma C5_ratio_precedence_witness :
  let wide := js "a cat 16:9 wide" in
  let hinted := mkOptions (Some (js "4:3")) None None None None in
  (ratio hinted = Some (js "4:3") /\ In (js "4:3") ASPECT_RATIOS
   /\ js "4:3" <> js "1:1")
  /\ validRatio (request_geometry Scenario.model wide hinted) = js "4:3"
  /\ validRatio (request_geometry Scenario.model wide Script.no_options)
     = js "16:9"
  /\ validRatio (request_geometry Scenario.model wide
                   (mkOptions (Some (js "1:1")) None None None None))
     = js "16:9".
Proof.
  intros wide hinted.
  assert (H1 : ratio hinted = Some (js "4:3")) by reflexivity.
  assert (H2 : In (js "4:3") ASPECT_RATIOS)
    by (unfold ASPECT_RATIOS; cbn [In]; do 3 right; left; reflexivity).
  assert (H3 : js "4:3" <> js "1:1") by (vm_compute; discriminate).
  split; [auto|]. split; [|split].
  - exact (proj1 (C5_ratio_precedence Scenario.model wide hinted)
                 (js "4:3") H1 H2 H3).
  - rewrite (proj1 (proj2 (C5_ratio_precedence Scenario.model wide
                                               Script.no_options))
                   (or_introl eq_refl)).
    vm_compute. reflexivity.
  - apply (proj1 (proj2 (proj2 (C5_ratio_precedence
                                  Scenario.model wide
                                  (mkOptions (Some (js "1:1")) None None
                                             None None))))).
    + reflexivity.
    + vm_compute. reflexivity.
Defined.

Lemma C6_dimension_table_witness :
  let options := mkOptions (Some (js "16:9")) (Some (js "1k")) None None None in
  let g := request_geometry Scenario.model Scenario.cat options in
  (In (js "1k", js "16:9", 1664%Z, 936%Z) fixed_pairs
   /\ resolutionType g = js "1k" /\ validRatio g = js "16:9")
  /\ dimensions g = Some (mkDim 1664 936).
Proof.
  intros options g.
  assert (H1 : In (js "1k", js "16:9", 1664%Z, 936%Z) fixed_pairs)
    by (unfold fixed_pairs; cbn [In]; right; left; reflexivity).
  assert (H2 : resolutionType g = js "1k") by (vm_compute; reflexivity).
  assert (H3 : validRatio g = js "16:9") by (vm_compute; reflexivity).
  split; [auto|].
  exact (proj1 (proj2 (C6_dimension_table
                         Script.env Script.exceptions Scenario.model
                         Scenario.cat options Scenario.tok
                         (Scenario.job_world [Scenario.finished]))
                      (js "1k") (js "16:9") 1664%Z 936%Z H1 H2 H3)).
Defined.

(** * Further properties *)

(** ** The matcher on the ratio pattern *)

Lemma star_stop : forall (R : Type) p s (k : jsstring -> option R),
    match s with [] => True | c :: _ => p c = false end ->
    Regex.star p s k = k s.
Proof.
  intros R p s k H. destruct s as [|c s]; [reflexivity|].
  cbn [Regex.star]. rewrite H. reflexivity.
Qed.

Lemma star_run : forall (R : Type) p units rest (k : jsstring -> option R) r,
    Forall (fun c => p c = true) units ->
    Regex.star p rest k = Some r ->
    Regex.star p (units ++ rest) k = Some r.
Proof.
  induction units as [|c units IH]; intros rest k r Hall H; [exact H|].
  inversion Hall as [|? ? Hc Hrest]; subst. cbn [app Regex.star].
  rewrite Hc. rewrite (IH rest k r); auto.
Qed.

Lemma star_suffix : forall (R : Type) p s (k : jsstring -> option R) r,
    Regex.star p s k = Some r ->
    exists pre rest, s = pre ++ rest /\ k rest = Some r.
Proof.
  induction s as [|c s IH]; cbn [Regex.star]; intros k r H.
  - exists [], []. auto.
  - destruct (p c).
    + destruct (Regex.star p s k) eqn:E.
      * inversion H; subst. apply IH in E. destruct E as [pre [rest [Hs Hk]]].
        exists (c :: pre), rest. subst. auto.
      * exists [], (c :: s). auto.
    + exists [], (c :: s). auto.
Qed.

Lemma firstn_app_length : forall (A : Type) (a b : list A),
    firstn (List.length (a ++ b) - List.length b) (a ++ b) = a.
Proof.
  intros. rewrite length_app.
  replace (List.length a + List.length b - List.length b)%nat
    with (List.length a + 0)%nat by lia.
  rewrite firstn_app_2. cbn [firstn]. apply app_nil_r.
Qed.

Lemma digit_not_space : forall c, Regex.digit c = true -> Regex.space c = false.
Proof.
  intros c H. unfold Regex.digit in H. apply andb_true_iff in H.
  destruct H as [H1 H2]. apply N.leb_le in H1. apply N.leb_le in H2.
  unfold Regex.space.
  repeat match goal with
         | |- context [(?a <=? ?b)%N] => destruct (N.leb_spec a b)
         | |- context [(?a =? ?b)%N] => destruct (N.eqb_spec a b)
         end; cbn; try reflexivity; lia.
Qed.

Lemma space_not_digit : forall c, Regex.space c = true -> Regex.digit c = false.
Proof.
  intros c H. destruct (Regex.digit c) eqn:E; [|reflexivity].
  apply digit_not_space in E. congruence.
Qed.

Lemma colon_not_digit : forall c, colon c = true -> Regex.digit c = false.
Proof.
  intros c H. unfold colon in H. apply orb_true_iff in H.
  destruct H as [H|H]; apply N.eqb_eq in H; subst; reflexivity.
Qed.

Lemma colon_not_space : forall c, colon c = true -> Regex.space c = false.
Proof.
  intros c H. unfold colon in H. apply orb_true_iff in H.
  destruct H as [H|H]; apply N.eqb_eq in H; subst; reflexivity.
Qed.

Lemma match_here_ratio :
  forall d1 ws1 c ws2 d2 post,
    d1 <> [] -> Forall (fun x => Regex.digit x = true) d1 ->
    Forall (fun x => Regex.space x = true) ws1 ->
    colon c = true ->
    Forall (fun x => Regex.space x = true) ws2 ->
    d2 <> [] -> Forall (fun x => Regex.digit x = true) d2 ->
    stops Regex.digit post ->
    Regex.match_here ratioRegex (d1 ++ ws1 ++ [c] ++ ws2 ++ d2 ++ post)
    = Some (post, [d1; d2]).
Proof.
  intros d1 ws1 c ws2 d2 post Hd1 Hd1d Hws1 Hc Hws2 Hd2 Hd2d Hpost.
  destruct d1 as [|a d1]; [contradiction|].
  destruct d2 as [|b d2]; [contradiction|].
  inversion Hd1d as [|? ? Ha Hd1']; subst.
  inversion Hd2d as [|? ? Hb Hd2']; subst.
  unfold Regex.match_here, ratioRegex. cbn [Regex.exec].
  set (s := (a :: d1) ++ ws1 ++ [c] ++ ws2 ++ (b :: d2) ++ post).
  assert (Hs : s = a :: (d1 ++ (ws1 ++ c :: (ws2 ++ b :: (d2 ++ post))))) by reflexivity.
  rewrite Hs at 1. rewrite Ha.
  apply star_run; [exact Hd1'|].
  rewrite star_stop.
  2:{ destruct ws1 as [|x ws1]; cbn [app].
      - apply colon_not_digit; exact Hc.
      - inversion Hws1; subst. apply space_not_digit; assumption. }
  apply star_run; [exact Hws1|].
  rewrite star_stop by (cbn; apply colon_not_space; exact Hc).
  rewrite Hc.
  apply star_run; [exact Hws2|].
  rewrite star_stop by (cbn; apply digit_not_space; exact Hb).
  rewrite Hb.
  apply star_run; [exact Hd2'|].
  rewrite star_stop by exact Hpost.
  f_equal. f_equal. cbn [app].
  f_equal; [|f_equal].
  - subst s.
    change (ws1 ++ c :: ws2 ++ b :: d2 ++ post)
      with (ws1 ++ [c] ++ ws2 ++ (b :: d2) ++ post).
    apply firstn_app_length.
  - change (b :: d2 ++ post) with ((b :: d2) ++ post).
    apply firstn_app_length.
Qed.

Lemma match_here_needs_digit : forall c s,
    Regex.digit c = false -> Regex.match_here ratioRegex (c :: s) = None.
Proof.
  intros c s H. unfold Regex.match_here, ratioRegex. cbn [Regex.exec].
  rewrite H. reflexivity.
Qed.

Lemma match_here_needs_colon : forall s,
    Forall (fun c => colon c = false) s ->
    Regex.match_here ratioRegex s = None.
Proof.
  intros s Hall.
  destruct (Regex.match_here ratioRegex s) as [[rest caps]|] eqn:E;
    [|reflexivity].
  exfalso. unfold Regex.match_here, ratioRegex in E. cbn [Regex.exec] in E.
  destruct s as [|c s]; [discriminate|].
  destruct (Regex.digit c); [|discriminate].
  inversion Hall as [|? ? _ Hs]; subst.
  apply star_suffix in E. destruct E as [p1 [r1 [E1 E]]].
  apply star_suffix in E. destruct E as [p2 [r2 [E2 E]]].
  destruct r2 as [|c2 r2]; [discriminate|].
  assert (Hc2 : colon c2 = false).
  { subst s r1. apply Forall_app in Hs. destruct Hs as [_ Hs].
    apply Forall_app in Hs. destruct Hs as [_ Hs].
    inversion Hs; assumption. }
  rewrite Hc2 in E. discriminate.
Qed.

Lemma matchAll_skip : forall c s,
    Regex.match_here ratioRegex (c :: s) = None ->
    Regex.matchAll ratioRegex (c :: s) = Regex.matchAll ratioRegex s.
Proof.
  intros c s H. unfold Regex.matchAll. cbn [List.length].
  cbn [Regex.matchAll_from]. rewrite H. reflexivity.
Qed.

Lemma matchAll_hit : forall s rest caps,
    Regex.match_here ratioRegex s = Some (rest, caps) ->
    Regex.matchAll ratioRegex s = caps :: Regex.matchAll ratioRegex rest.
Proof.
  intros s rest caps H.
  assert (Hlt : (List.length rest < List.length s)%nat)
    by (eapply ratioRegex_consumes; exact H).
  unfold Regex.matchAll at 1. cbn [Regex.matchAll_from]. rewrite H.
  assert (Hb : (List.length rest <? List.length s)%nat = true)
    by (apply Nat.ltb_lt; exact Hlt).
  rewrite Hb. f_equal. apply matchAll_fuel. exact Hlt.
Qed.

Lemma matchAll_no_colon : forall s,
    Forall (fun c => colon c = false) s ->
    Regex.matchAll ratioRegex s = [].
Proof.
  induction s as [|c s IH]; intros Hall.
  - reflexivity.
  - rewrite matchAll_skip by (apply match_here_needs_colon; exact Hall).
    apply IH. inversion Hall; assumption.
Qed.

Lemma matchAll_no_digit_prefix : forall pre s,
    Forall (fun c => Regex.digit c = false) pre ->
    Regex.matchAll ratioRegex (pre ++ s) = Regex.matchAll ratioRegex s.
Proof.
  induction pre as [|c pre IH]; intros s Hall; [reflexivity|].
  inversion Hall; subst. cbn [app].
  rewrite matchAll_skip by (apply match_here_needs_digit; assumption).
  apply IH. assumption.
Qed.

(** ** The calls of the submission stage *)

Lemma build_abilities_full :
  forall (World : Type) (env : Env World) h u model prompt neg ss ir fw fh rt
         (st : State World),
    wp (build_abilities env h u model prompt neg ss ir fw fh rt)
       (fun r st' =>
          exists a w',
            r = Return a /\ st' = mkState w' (trace st)
            /\ cp_sample_strength (core_param_of a) = ss
            /\ shape_matches env h neg a)
       st.
Proof.
  intros. unfold build_abilities.
  destruct (h && truthy_opt u) eqn:E; cbv zeta;
    repeat (first [wp_step | progress cbv beta iota]);
    cbn [trace]; do 2 eexists; (split; [reflexivity|]);
      (split; [reflexivity|]); (split; [reflexivity|]);
        unfold shape_matches; cbn [ab_shape gen_core_param blend_core_param
                                     cp_negative_prompt cp_seed
                                     blend_ability_list].
  - apply andb_true_iff in E. destruct E as [Eh Eu].
    split; [exact Eh|]. split; [reflexivity|]. split; [reflexivity|].
    destruct u as [uri|]; [|discriminate]. cbn [truthy_opt with_default] in *.
    do 3 eexists. split; [exact Eu | reflexivity].
  - split; [reflexivity|].
    match goal with
    | H : random_below env _ ?w = (?a, _) |- _ =>
      exists w; rewrite H; reflexivity
    end.
Qed.

Ltac calls_evs HQ :=
  cbn [trace world];
  eexists; split; [rewrite <- ?app_assoc; reflexivity|];
  cbn [app];
  split; [reflexivity|];
  split;
  [ repeat (first [apply Forall_nil | apply Forall_cons]);
    cbn [call_event]; auto;
    first
      [ split; [reflexivity | apply HQ; assumption]
      | split;
        [ reflexivity
        | do 3 eexists; split; [eassumption | apply Z.leb_le; eassumption] ] ]
  | split; [cbn; lia|] ].

Ltac calls_leaf HQ :=
  calls_evs HQ; intros ? Habs; discriminate Habs.

Ltac calls_after_credit HQ :=
  repeat (first [wp_step | progress cbv beta iota]);
  (eapply wp_mono; [apply build_abilities_full|]);
  (let r := fresh "r" in
   let st3 := fresh "st" in
   let ab := fresh "ab" in
   let w3 := fresh "w" in
   let Hss := fresh "Hss" in
   let Hsh := fresh "Hsh" in
   intros r st3 [ab [w3 [-> [-> [Hss Hsh]]]]]);
  cbv beta iota;
  repeat (first [wp_step | progress cbv beta iota]);
  [ calls_leaf HQ
  | match goal with
    | |- context [aigc_data ?resp] =>
      destruct (aigc_data resp) as [data|];
      [destruct (history_record_id data) as [h|];
       [destruct (truthy h) eqn:?|]|]
    end;
    wp_step;
    [ calls_evs HQ;
      intros ? Heq; inversion Heq; subst; (split; [assumption | reflexivity])
    | calls_leaf HQ .. ] ].

Ltac calls_tail HQ :=
  wp_step; wp_step; [calls_leaf HQ|];
  wp_step;
  match goal with
  | |- context [(?t <=? 0)%Z] => destruct (t <=? 0)%Z eqn:?
  end;
  [ wp_step; [calls_leaf HQ | calls_after_credit HQ]
  | wp_step; calls_after_credit HQ ].

Lemma submit_job_calls :
  forall (World : Type) (env : Env World) X _model prompt options token
         (st : State World),
    wp (submit_job env X _model prompt options token)
       (fun r st' =>
          exists evs,
            trace st' = trace st ++ evs
            /\ ascending (map stage evs) = true
            /\ Forall (call_event token (with_default (filePath options) [])
                                  (balance_exhausted env token)
                                  (envelope_matches env _model prompt options))
                      evs
            /\ (List.length (submitted evs) <= 1)%nat
            /\ (forall hid, r = Return hid ->
                            truthy hid = true
                            /\ List.length (submitted evs) = 1%nat))
       st.
Proof.
  intros. unfold submit_job. cbv zeta.
  set (fp := with_default (filePath options) []).
  destruct (request_geometry_dimensions _model prompt options) as [dims Hd].
  rewrite Hd.
  assert (HQ : forall a submitId draftId componentId metadataId time,
             cp_sample_strength (core_param_of a)
             = with_default (sampleStrength options) (1 # 2) ->
             shape_matches env (truthy fp)
                           (with_default (negativePrompt options) []) a ->
             envelope_matches env _model prompt options
               (mkRequestData (getModel _model) submitId
                  (if truthy fp then None
                   else Some (mkMetrics
                                [mkSceneOption (getModel _model)
                                   (resolutionType (request_geometry _model prompt options))
                                   (if is4xModel _model
                                       && eqb (resolutionType (request_geometry _model prompt options)) (js "2k")
                                    then 4%Z else 1%Z)
                                   (template_property (getModel _model)
                                    ++ js "-"
                                    ++ resolutionType (request_geometry _model prompt options))]
                                submitId))
                  (mkDraft draftId componentId
                     [mkComponent componentId metadataId time
                        (if truthy fp then js "blend" else js "generate") a]))).
  { intros a ? ? ? ? ? Hss Hsh. unfold envelope_matches. fold fp.
    cbn [rd_root_model rd_metrics_extra rd_submit_id rd_draft_content
         dr_component_list dr_main_component_id].
    split; [reflexivity|]. split; [reflexivity|].
    eexists. split; [reflexivity|].
    cbn [co_id co_generate_type co_abilities]. auto. }
  apply wp_bind.
  destruct (truthy fp) eqn:Hfp.
  - unfold upload_reference. wp_step. wp_step; [wp_step; calls_leaf HQ|].
    calls_tail HQ.
  - wp_step. calls_tail HQ.
Qed.

(** ** Further properties of the detector and of the resolver *)

(** X1. Whatever the prompt, a key returned by [detectAspectRatioKey] is one
    of the eight supported aspect codes: a ratio such as ["5:4"] or
    ["016:9"] written in the prompt is never returned. *)
Theorem X1_detect_only_supported :
  forall prompt key,
    detectAspectRatioKey prompt = Some key -> In key ASPECT_RATIOS.
Proof.
  intros prompt key H. eapply detectAspectRatioKey_supported. exact H.
Qed.

(** X2. A prompt without a colon (ASCII or full-width) is decided by the
    keywords alone, the landscape keywords before the portrait ones, and
    these before the square ones; with no keyword, nothing is detected. *)
Theorem X2_detect_without_colon :
  forall prompt,
    Forall (fun c => colon c = false) prompt ->
    detectAspectRatioKey prompt
    = if includes prompt (js "横屏") || includes prompt (js "横版")
         || includes prompt (js "宽屏")
      then Some (js "16:9")
      else if includes prompt (js "竖屏") || includes prompt (js "竖版")
              || includes prompt (js "手机")
      then Some (js "9:16")
      else if includes prompt (js "方形") || includes prompt (js "正方")
      then Some (js "1:1")
      else None.
Proof.
  intros prompt H. unfold detectAspectRatioKey.
  rewrite matchAll_no_colon by exact H. reflexivity.
Qed.

(** X3. A supported ratio spelled as digits, optional white space, a colon
    (ASCII or full-width), optional white space, digits, is detected in its
    normal form ["W:H"] when no digit comes before it in the prompt and no
    digit follows it at once; keywords and further ratios elsewhere in the
    prompt do not change the result. *)
Theorem X3_detect_spelled_ratio :
  forall pre d1 ws1 c ws2 d2 post,
    Forall (fun x => Regex.digit x = false) pre ->
    d1 <> [] -> Forall (fun x => Regex.digit x = true) d1 ->
    Forall (fun x => Regex.space x = true) ws1 ->
    colon c = true ->
    Forall (fun x => Regex.space x = true) ws2 ->
    d2 <> [] -> Forall (fun x => Regex.digit x = true) d2 ->
    stops Regex.digit post ->
    In (d1 ++ js ":" ++ d2) ASPECT_RATIOS ->
    detectAspectRatioKey (pre ++ d1 ++ ws1 ++ [c] ++ ws2 ++ d2 ++ post)
    = Some (d1 ++ js ":" ++ d2).
Proof.
  intros pre d1 ws1 c ws2 d2 post Hpre Hd1 Hd1d Hws1 Hc Hws2 Hd2 Hd2d Hpost Hin.
  unfold detectAspectRatioKey.
  rewrite matchAll_no_digit_prefix by exact Hpre.
  erewrite matchAll_hit by (apply match_here_ratio; eassumption).
  cbn [first_supported]. cbv zeta.
  change (ratio_key [d1; d2]) with (d1 ++ js ":" ++ d2).
  apply array_includes_In in Hin. rewrite Hin. reflexivity.
Qed.

Lemma lookup_value_In : forall (A : Type) (tbl : list (jsstring * A)) k v,
    lookup tbl k = Some v -> In v (map snd tbl).
Proof.
  induction tbl as [|[k' v'] tbl IH]; cbn [lookup map snd In]; intros k v H;
    [discriminate|].
  destruct (eqb k' k).
  - left. congruence.
  - right. eapply IH. exact H.
Qed.

Lemma MODEL_MAP_values_truthy : forall v,
    In v (map snd MODEL_MAP) -> truthy v = true.
Proof.
  intros v H. unfold MODEL_MAP in H. cbn [map snd In] in H.
  repeat (destruct H as [H|H]; [subst; reflexivity|]). contradiction.
Qed.

Lemma Object_prototype_not_models : forall model b,
    lookup Object_prototype model = Some b -> lookup MODEL_MAP model = None.
Proof.
  intros model b H. apply lookup_In in H.
  unfold Object_prototype in H. cbn [map fst In] in H.
  repeat (destruct H as [H|H]; [subst model; vm_compute; reflexivity|]).
  contradiction.
Qed.

Lemma getModel_own : forall model v,
    lookup MODEL_MAP model = Some v -> getModel model = Own v.
Proof.
  intros model v E. unfold getModel, get. rewrite E. cbn [truthy_property].
  rewrite MODEL_MAP_values_truthy by (eapply lookup_value_In; exact E).
  reflexivity.
Qed.

Lemma getModel_inherited : forall model b,
    lookup Object_prototype model = Some b -> getModel model = Inherited b.
Proof.
  intros model b Hb. unfold getModel, get.
  rewrite (Object_prototype_not_models model Hb), Hb. reflexivity.
Qed.

Lemma getModel_default : forall model,
    lookup MODEL_MAP model = None ->
    lookup Object_prototype model = None ->
    getModel model = Own (js "high_aes_general_v40l").
Proof.
  intros model E Ep. unfold getModel, get. rewrite E, Ep. reflexivity.
Qed.

Lemma getModel_mapped : forall model,
    lookup Object_prototype model = None ->
    exists v, getModel model = Own v /\ In v (map snd MODEL_MAP).
Proof.
  intros model Ep. destruct (lookup MODEL_MAP model) as [v|] eqn:E.
  - exists v. split; [apply getModel_own; exact E|].
    eapply lookup_value_In. exact E.
  - exists (js "high_aes_general_v40l").
    split; [apply getModel_default; assumption|].
    unfold MODEL_MAP. cbn [map snd In]. left. reflexivity.
Qed.

(** X4. [getModel] gives the string of [MODEL_MAP] for a name that is a key
    of the map.  For a name that is the name of a property of
    [Object.prototype] (["constructor"], ["toString"], ["__proto__"], ...)
    the read [MODEL_MAP[model]] gives that inherited function or object,
    which is truthy: the default is not used, the result is not one of the
    mapped strings, and [JSON.stringify] writes no string for it.  For every
    other name the result is the string of the default model
    ["jimeng-image-4.5"]; so for a name that [Object.prototype] does not
    hold, the result is one of the six mapped strings. *)
Theorem X4_getModel_cases :
  forall model,
    (forall v, lookup MODEL_MAP model = Some v -> getModel model = Own v)
    /\ (forall b,
           lookup Object_prototype model = Some b ->
           getModel model = Inherited b
           /\ (forall v, getModel model <> Own v)
           /\ forall s, stringify_member (getModel model) <> JsonString s)
    /\ (lookup MODEL_MAP model = None ->
        lookup Object_prototype model = None ->
        getModel model = Own (js "high_aes_general_v40l"))
    /\ (lookup Object_prototype model = None ->
        exists v, getModel model = Own v /\ In v (map snd MODEL_MAP)).
Proof.
  intros model.
  split; [apply getModel_own|].
  split; [|split; [apply getModel_default | apply getModel_mapped]].
  intros b Hb. rewrite (getModel_inherited model Hb).
  split; [reflexivity|]. split; [discriminate|].
  intros s. destruct b; discriminate.
Qed.

(** X5. For every model name, prompt and options, the geometry is defined:
    the tier is ["1k"] or ["2k"], the ratio is a supported code, the
    provider's ratio number is one of 0..6 and 8, and the width and height
    are found in the table (so the reads of [dimensions.width] and
    [dimensions.height] never meet [undefined]), between 936 and 3024 and
    between 846 and 2560. *)
Theorem X5_geometry_always_defined :
  forall (_model prompt : jsstring) (options : Options),
    let g := request_geometry _model prompt options in
    In (resolutionType g) [js "1k"; js "2k"]
    /\ In (validRatio g) ASPECT_RATIOS
    /\ exists r d,
        imageRatio g = Some r /\ dimensions g = Some d
        /\ In r [0; 1; 2; 3; 4; 5; 6; 8]%Z
        /\ (936 <= width d <= 3024)%Z /\ (846 <= height d <= 2560)%Z.
Proof.
  intros _model prompt options g.
  pose proof (select_resolutionType_tier
                _model (with_default (resolution options) (js "2k"))) as Ht.
  pose proof (select_validRatio_supported
                prompt (with_default (ratio options) (js "1:1"))) as Hr.
  change (In (resolutionType g) [js "1k"; js "2k"]) in Ht.
  change (In (validRatio g) ASPECT_RATIOS) in Hr.
  split; [exact Ht|]. split; [exact Hr|].
  assert (Hi : imageRatio g = lookup RATIO_VALUES (validRatio g))
    by reflexivity.
  assert (Hd : dimensions g
               = lookup (dimensionMap (resolutionType g)) (validRatio g))
    by reflexivity.
  rewrite Hi, Hd.
  unfold ASPECT_RATIOS in Hr. cbn [In] in Ht, Hr.
  destruct Ht as [Ht|[Ht|[]]]; rewrite <- Ht;
    repeat (destruct Hr as [Hr|Hr]; [rewrite <- Hr|]); try contradiction;
      do 2 eexists; (split; [reflexivity|]); (split; [reflexivity|]);
        (split; [cbn [In]; tauto|]); cbn [width height]; lia.
Qed.

(** X6. For the model ["jimeng-image-2.0-pro"] the geometry does not depend
    on the resolution option: the tier is ["1k"] whatever is asked, so the
    retry of the wrapper at the lower tier submits the same size as the
    attempt at ["2k"]. *)
Theorem X6_legacy_model_ignores_resolution :
  forall (prompt : jsstring) (options : Options) r1 r2,
    request_geometry (js "jimeng-image-2.0-pro") prompt
                     (set_resolution options r1)
    = request_geometry (js "jimeng-image-2.0-pro") prompt
                       (set_resolution options r2)
    /\ resolutionType (request_geometry (js "jimeng-image-2.0-pro") prompt
                                        (set_resolution options r1))
       = js "1k".
Proof.
  intros. split; reflexivity.
Qed.

(** X7. A resolution hint other than ["1k"] and ["2k"] is read differently
    by the two entry points: [generateImages] called with it falls back to
    the default of the model (["1k"] for ["jimeng-image-3.0"]), while
    [generateImagesWithRetry] starts at the first tier and calls
    [generateImages] with ["2k"]. *)
Theorem X7_unrecognised_hint_entry_points :
  forall (prompt : jsstring) (options : Options) hint,
    resolution options = Some hint ->
    hint <> js "1k" -> hint <> js "2k" ->
    resolutionType (request_geometry (js "jimeng-image-3.0") prompt options)
    = js "1k"
    /\ nth_error resolutionLevels (start_index options) = Some (js "2k")
    /\ resolutionType
         (request_geometry (js "jimeng-image-3.0") prompt
            (set_resolution options
               (nth_error resolutionLevels (start_index options))))
       = js "2k".
Proof.
  intros prompt options hint Hr H1 H2.
  assert (Hs : start_index options = 0%nat).
  { destruct (start_index_cases options) as [[E _]|[_ E]]; [|exact E].
    rewrite Hr in E. inversion E. contradiction. }
  rewrite Hs. split; [|split; reflexivity].
  unfold request_geometry, resolve_geometry. cbn [resolutionType].
  rewrite Hr. cbn [with_default]. unfold select_resolutionType.
  assert (Hin : array_includes [js "1k"; js "2k"] hint = false).
  { destruct (array_includes [js "1k"; js "2k"] hint) eqn:E; [|reflexivity].
    apply array_includes_In in E. cbn [In] in E.
    destruct E as [E|[E|[]]]; congruence. }
  rewrite Hin. reflexivity.
Qed.

(** ** Further properties of a call of [generateImages] *)

Lemma call_events_submitted : forall token fp R Q evs,
    Forall (call_event token fp R Q) evs -> Forall Q (submitted evs).
Proof.
  induction 1 as [|ev evs H _ IH]; [constructor|].
  unfold submitted in *. cbn [flat_map].
  destruct ev; cbn [app]; try exact IH.
  constructor; [apply H | exact IH].
Qed.

Lemma call_events_weaken :
  forall token fp R (Q Q' : RequestData -> Prop) evs,
    (forall d, Q d -> Q' d) ->
    Forall (call_event token fp R Q) evs ->
    Forall (call_event token fp R Q') evs.
Proof.
  intros token fp R Q Q' evs HQ H. eapply Forall_impl; [|exact H].
  intros ev Hev. destruct ev; cbn [call_event] in *; try assumption.
  destruct Hev as [Ht Hd]. split; [exact Ht | apply HQ; exact Hd].
Qed.

(** The calls of a whole call of [generateImages]. *)
Lemma generateImages_calls :
  forall (World : Type) (env : Env World) X _model prompt options token
         (st : State World),
    wp (generateImages env X _model prompt options token)
       (fun r st' =>
          exists evs hid n,
            trace st' = trace st ++ evs ++ ticks token hid n
            /\ ascending (map stage evs) = true
            /\ Forall (call_event token (with_default (filePath options) [])
                                  (balance_exhausted env token)
                                  (envelope_matches env _model prompt options))
                      evs
            /\ (n <= MAX_POLL_RETRIES)%nat
            /\ ((0 < n)%nat ->
                truthy hid = true /\ List.length (submitted evs) = 1%nat))
       st.
Proof.
  intros. unfold generateImages. wp_step.
  eapply wp_mono; [apply submit_job_calls|].
  intros r st1 [evs [Ht [Ha [Hf [Hl Hr]]]]]. destruct r as [hid|e|].
  - eapply wp_mono; [apply poll_events|].
    intros r st2 [n [Ht2 [Hn _]]].
    exists evs, hid, n. rewrite Ht2, Ht, <- app_assoc.
    split; [reflexivity|]. split; [exact Ha|]. split; [exact Hf|].
    split; [exact Hn|]. intros _. apply Hr. reflexivity.
  - exists evs, [], 0%nat. cbn [ticks]. rewrite app_nil_r.
    split; [exact Ht|]. split; [exact Ha|]. split; [exact Hf|].
    split; lia.
  - exists evs, [], 0%nat. cbn [ticks]. rewrite app_nil_r.
    split; [exact Ht|]. split; [exact Ha|]. split; [exact Hf|].
    split; lia.
Qed.

Lemma generateImages_envelopes :
  forall (World : Type) (env : Env World) X _model prompt options token
         (w : World),
    Forall (envelope_matches env _model prompt options)
           (submitted
              (trace (snd (run (generateImages env X _model prompt options
                                               token) w)))).
Proof.
  intros. unfold run.
  destruct (generateImages_calls env X _model prompt options token
                                 (mkState w []))
    as [evs [hid [n [Ht [_ [Hf _]]]]]].
  rewrite Ht. cbn [trace app].
  rewrite submitted_app, ticks_submitted, app_nil_r.
  eapply call_events_submitted. exact Hf.
Qed.

(** X8. In every world, the remote calls of one call of [generateImages]
    come in the order of the source, each of the first four at most once and
    with the caller's token: the upload (only for a non-empty path), the
    balance query, the top-up (only when a balance query was answered with
    zero or less), the submission; then pairs of a one-second sleep and a
    history query, at most 120, all for one job id.  A history query is made
    only after exactly one submission, and only for a non-empty job id. *)
Theorem X8_call_order :
  forall (World : Type) (env : Env World) (X : Exceptions)
         (_model prompt : jsstring) (options : Options) (token : jsstring)
         (w : World),
  exists evs hid n,
    trace (snd (run (generateImages env X _model prompt options token) w))
    = evs ++ ticks token hid n
    /\ ascending (map stage evs) = true
    /\ Forall (call_event token (with_default (filePath options) [])
                          (balance_exhausted env token) (fun _ => True)) evs
    /\ (n <= 120)%nat
    /\ ((0 < n)%nat ->
        truthy hid = true /\ List.length (submitted evs) = 1%nat).
Proof.
  intros. unfold run.
  destruct (generateImages_calls env X _model prompt options token
                                 (mkState w []))
    as [evs [hid [n [Ht [Ha [Hf [Hn Hp]]]]]]].
  exists evs, hid, n. rewrite Ht. cbn [trace app].
  split; [reflexivity|]. split; [exact Ha|].
  split; [eapply call_events_weaken; [|exact Hf]; auto|].
  split; [exact Hn | exact Hp].
Qed.

(** X9. When a path of a reference image is given and the upload fails, the
    call fails with the [API_REQUEST_FAILED] exception whose message is
    "reference upload failed: " followed by the message of the cause, and
    the upload is the only remote call made: no balance query, no
    submission, no history query. *)
Theorem X9_upload_failure :
  forall (World : Type) (env : Env World) (X : Exceptions)
         (_model prompt : jsstring) (options : Options) (token : jsstring)
         (st : State World) e w',
    truthy (with_default (filePath options) []) = true ->
    uploadFile env token (with_default (filePath options) []) (world st)
    = (inl e, w') ->
    generateImages env X _model prompt options token st
    = (Throw (APIException API_REQUEST_FAILED
                (Some (js "参考图上传失败: " ++ template (error_message X e)))),
       mkState w'
               (trace st
                ++ [EvUpload token (with_default (filePath options) [])])).
Proof.
  intros World env X _model prompt options token st e w' Hfp Hup.
  unfold generateImages, submit_job, bind. cbv zeta. rewrite Hfp.
  unfold upload_reference, try_catch, call. rewrite Hup. reflexivity.
Qed.

(** X10. A failure of the balance query, or of the top-up that follows a
    balance of zero or less, ends the call with that error as it is, and
    nothing is submitted: the trace ends with the failed call. *)
Theorem X10_credit_failure_aborts :
  forall (World : Type) (env : Env World) (X : Exceptions)
         (_model prompt : jsstring) (options : Options) (token : jsstring)
         (st st0 : State World) uploadID,
    upload_stage env X options token st = (Return uploadID, st0) ->
    (forall e w1,
        getCredit env token (world st0) = (inl e, w1) ->
        generateImages env X _model prompt options token st
        = (Throw e, mkState w1 (trace st0 ++ [EvGetCredit token])))
    /\ (forall totalCredit w1 e w2,
           getCredit env token (world st0) = (inr totalCredit, w1) ->
           (totalCredit <= 0)%Z ->
           receiveCredit env token w1 = (inl e, w2) ->
           generateImages env X _model prompt options token st
           = (Throw e,
              mkState w2 (trace st0 ++ [EvGetCredit token;
                                        EvReceiveCredit token]))).
Proof.
  intros World env X _model prompt options token st st0 uploadID Hup.
  unfold upload_stage in Hup. cbv zeta in Hup.
  destruct (request_geometry_dimensions _model prompt options) as [dims Hd].
  split.
  - intros e w1 Hc.
    unfold generateImages, submit_job, bind. cbv zeta.
    rewrite Hup, Hd. unfold call. rewrite Hc. reflexivity.
  - intros totalCredit w1 e w2 Hc Hle Hr.
    apply Z.leb_le in Hle.
    unfold generateImages, submit_job, bind. cbv zeta.
    rewrite Hup, Hd. unfold call. rewrite Hc, Hle. cbn [world trace].
    rewrite Hr. rewrite <- app_assoc. reflexivity.
Qed.

(** ** Further properties of the polling loop *)

Lemma item_url_truthy : forall item u,
    item_url item = Some u -> truthy u = true.
Proof.
  intros item u. unfold item_url.
  destruct (truthy_opt (image_url item)) eqn:Ei; cbn [negb].
  - intros H. rewrite H in Ei. exact Ei.
  - destruct (truthy_opt (cover_url item)) eqn:Ec; [|discriminate].
    intros H. rewrite H in Ec. exact Ec.
Qed.

(** One pass of the loop on a history query that throws. *)
Lemma poll_loop_raises :
  forall (World : Type) (env : Env World) token hid fuel v (w : World) tr e w1,
    poll_continues v = true ->
    request_history env token hid w = (inl e, w1) ->
    poll_loop env (S fuel) token hid v (mkState w tr)
    = (Throw e, mkState w1 (tr ++ ticks token hid 1)).
Proof.
  intros World env token hid fuel v w tr e w1 Hc Hq.
  cbn [poll_loop]. rewrite Hc.
  unfold bind, emit, call. cbn [world trace]. rewrite Hq.
  rewrite <- app_assoc. reflexivity.
Qed.

Lemma poll_request_error :
  forall (World : Type) (env : Env World) token hid (w : World) records w'
         e w'' tr,
    answers env token hid w records w' ->
    Forall (fun r => keeps_polling r = true) records ->
    (List.length records < MAX_POLL_RETRIES)%nat ->
    request_history env token hid w' = (inl e, w'') ->
    poll env token hid (mkState w tr)
    = (Throw e, mkState w'' (tr ++ ticks token hid (S (List.length records)))).
Proof.
  intros World env token hid w records w' e w'' tr Ha Hall Hlen Hq.
  unfold poll, bind.
  replace MAX_POLL_RETRIES
    with (List.length records + S (MAX_POLL_RETRIES - S (List.length records)))%nat
    at 1 by lia.
  erewrite poll_loop_answers;
    [| exact Ha | exact Hall | exact poll_init_keeps
     | cbn [poll_init pv_retryCount]; lia].
  erewrite poll_loop_raises; [| | exact Hq].
  - rewrite <- app_assoc, ticks_add.
    replace (List.length records + 1)%nat with (S (List.length records))
      by lia.
    reflexivity.
  - unfold poll_continues.
    rewrite vars_after_keeps by (exact poll_init_keeps || exact Hall).
    cbn [andb]. rewrite vars_after_retryCount. cbn [poll_init pv_retryCount].
    apply Nat.ltb_lt. lia.
Qed.

(** X11. When the entry that ends the loop is read before the 120th query,
    does not hold the fail state 30 and holds a list of items, the call
    returns one result per item, in the order of the list (also for an
    empty list, and also when the status is still a processing one): the
    large image URL when it is a non-empty string, else the cover URL when
    it is one, else null.  No returned URL is an empty string. *)
Theorem X11_polling_success_urls :
  forall (World : Type) (env : Env World) (X : Exceptions)
         (_model prompt : jsstring) (options : Options) (token : jsstring)
         (st : State World) hid st1 records record items w',
    submit_job env X _model prompt options token st = (Return hid, st1) ->
    answers env token hid (world st1) (records ++ [record]) w' ->
    Forall (fun r => keeps_polling r = true) records ->
    keeps_polling record = false ->
    (S (List.length records) < 120)%nat ->
    strict_eq (status record) (Number 30) = false ->
    item_list record = Some items ->
    generateImages env X _model prompt options token st
    = (Return (map item_url items),
       mkState w' (trace st1 ++ ticks token hid (S (List.length records))))
    /\ List.length (map item_url items) = List.length items
    /\ Forall (fun u => match u with
                        | Some s => truthy s = true
                        | None => True
                        end) (map item_url items).
Proof.
  intros World env X _model prompt options token st hid st1 records record
         items w' Hsub Hans Hall Hlast Hlen Hstatus Hitems.
  split; [|split].
  - rewrite (generateImages_poll env X _model prompt options token st Hsub).
    destruct st1 as [w1 tr1]. cbn [world trace] in *.
    erewrite poll_leaves_on;
      [| exact Hans | exact Hall | exact Hlast
       | unfold MAX_POLL_RETRIES; lia].
    unfold poll_result. cbn [vars_of pv_retryCount pv_status pv_item_list].
    assert (E : (MAX_POLL_RETRIES <=? S (List.length records))%nat = false)
      by (apply Nat.leb_gt; unfold MAX_POLL_RETRIES; lia).
    rewrite E. unfold FAIL_STATE. rewrite Hstatus, Hitems. reflexivity.
  - apply length_map.
  - apply Forall_forall. intros u Hu. apply in_map_iff in Hu.
    destruct Hu as [item [Hi _]]. destruct u as [s|]; [|exact I].
    eapply item_url_truthy. exact Hi.
Qed.

(** X12. An error thrown by a history query leaves the call as it is, after
    the entries read so far, and ends the polling: the trace ends with the
    failed query. *)
Theorem X12_polling_request_error :
  forall (World : Type) (env : Env World) (X : Exceptions)
         (_model prompt : jsstring) (options : Options) (token : jsstring)
         (st : State World) hid st1 records w' e w'',
    submit_job env X _model prompt options token st = (Return hid, st1) ->
    answers env token hid (world st1) records w' ->
    Forall (fun r => keeps_polling r = true) records ->
    (List.length records < 120)%nat ->
    request_history env token hid w' = (inl e, w'') ->
    generateImages env X _model prompt options token st
    = (Throw e,
       mkState w'' (trace st1 ++ ticks token hid (S (List.length records)))).
Proof.
  intros World env X _model prompt options token st hid st1 records w' e w''
         Hsub Hans Hall Hlen Hq.
  rewrite (generateImages_poll env X _model prompt options token st Hsub).
  destruct st1 as [w1 tr1]. cbn [world trace] in *.
  eapply poll_request_error; eauto.
Qed.

(** X13. When the entry that ends the loop (before the 120th query) has a
    status other than 30 and no [item_list] at all, the call does not fail
    with one of its own exceptions: the read of [item_list.map] raises the
    [TypeError] of the runtime. *)
Theorem X13_terminal_without_item_list :
  forall (World : Type) (env : Env World) (X : Exceptions)
         (_model prompt : jsstring) (options : Options) (token : jsstring)
         (st : State World) hid st1 records record w',
    submit_job env X _model prompt options token st = (Return hid, st1) ->
    answers env token hid (world st1) (records ++ [record]) w' ->
    Forall (fun r => keeps_polling r = true) records ->
    keeps_polling record = false ->
    (S (List.length records) < 120)%nat ->
    strict_eq (status record) (Number 30) = false ->
    item_list record = None ->
    generateImages env X _model prompt options token st
    = (Throw (TypeError
                (js "Cannot read properties of undefined (reading 'map')")),
       mkState w' (trace st1 ++ ticks token hid (S (List.length records)))).
Proof.
  intros World env X _model prompt options token st hid st1 records record
         w' Hsub Hans Hall Hlast Hlen Hstatus Hitems.
  rewrite (generateImages_poll env X _model prompt options token st Hsub).
  destruct st1 as [w1 tr1]. cbn [world trace] in *.
  erewrite poll_leaves_on;
    [| exact Hans | exact Hall | exact Hlast
     | unfold MAX_POLL_RETRIES; lia].
  unfold poll_result. cbn [vars_of pv_retryCount pv_status pv_item_list].
  assert (E : (MAX_POLL_RETRIES <=? S (List.length records))%nat = false)
    by (apply Nat.leb_gt; unfold MAX_POLL_RETRIES; lia).
  rewrite E. unfold FAIL_STATE. rewrite Hstatus, Hitems. reflexivity.
Qed.

(** ** Further properties of the request data *)

(** X14. A call whose calls before the request succeed submits exactly one
    request, and a call in which one of them fails submits none.  In a
    submitted request [metrics_extra] is absent exactly when a non-empty
    path of a reference image was given; when present, its [generateId] is
    the [submit_id] of the request, and its one scene option holds the value
    of [getModel] for the model name, the tier of the call, and a benefit
    count of 4 for a 4.x model at tier ["2k"] and of 1 otherwise.  The value
    of [getModel] is one of the mapped strings unless the model name is the
    name of a property of [Object.prototype]; then it is the inherited
    function or object, for which [JSON.stringify] writes no string. *)
Theorem X14_metrics_only_without_reference :
  forall (World : Type) (env : Env World) (X : Exceptions)
         (_model prompt : jsstring) (options : Options) (token : jsstring)
         (w : World),
    let g := request_geometry _model prompt options in
    let sent :=
        submitted
          (trace (snd (run (generateImages env X _model prompt options token)
                           w))) in
    Forall
      (fun d =>
         (rd_metrics_extra d = None
          <-> truthy (with_default (filePath options) []) = true)
         /\ forall m,
             rd_metrics_extra d = Some m ->
             me_generateId m = rd_submit_id d
             /\ exists so,
                 me_sceneOptions m = [so]
                 /\ so_modelReqKey so = getModel _model
                 /\ (lookup Object_prototype _model = None ->
                     exists v, so_modelReqKey so = Own v
                               /\ In v (map snd MODEL_MAP))
                 /\ (forall b, lookup Object_prototype _model = Some b ->
                               so_modelReqKey so = Inherited b
                               /\ forall s, stringify_member (so_modelReqKey so)
                                            <> JsonString s)
                 /\ so_resolutionType so = resolutionType g
                 /\ so_benefitCount so
                    = (if is4xModel _model && eqb (resolutionType g) (js "2k")
                       then 4%Z else 1%Z))
      sent
    /\ match fst (run (credit_stage env X options token) w) with
       | Return _ => List.length sent = 1%nat
       | Throw _ => sent = []
       | OutOfFuel => False
       end.
Proof.
  intros World env X _model prompt options token w g sent.
  split.
  - eapply Forall_impl;
      [|apply (generateImages_envelopes env X _model prompt options token w)].
    intros d [_ [Hm _]]. fold g in Hm. rewrite Hm.
    destruct (truthy (with_default (filePath options) [])).
    + split; [split; reflexivity|]. intros m Habs. discriminate.
    + split; [split; discriminate|].
      intros m E. inversion E; subst m. cbn [me_generateId me_sceneOptions].
      split; [reflexivity|]. eexists. split; [reflexivity|].
      cbn [so_modelReqKey so_resolutionType so_benefitCount].
      split; [reflexivity|]. split; [apply getModel_mapped|].
      split; [|auto].
      intros b Hb. rewrite (getModel_inherited _model Hb).
      split; [reflexivity|]. intros s. destruct b; discriminate.
  - subst sent. unfold run.
    pose proof (credit_stage_submitted env X options token (mkState w []))
      as [Hnone Hfuel].
    destruct (credit_stage env X options token (mkState w []))
      as [[u|e|] st0] eqn:Hc; cbn [fst snd trace] in *.
    + destruct (generateImages_credit_stage_returns
                  env X _model prompt options token _ Hc) as [d Hd].
      cbn [trace submitted flat_map app] in Hd. rewrite Hd. reflexivity.
    + rewrite (generateImages_credit_stage_throws
                 env X _model prompt options token _ Hc).
      cbn [snd]. exact Hnone.
    + apply Hfuel. reflexivity.
Qed.

(** X15. When a path of a reference image is given but the upload yields no
    usable URI, the request that is submitted is labelled with the generate
    type ["blend"] and carries no metrics, while its ability graph has the
    generate shape with the prompt as given. *)
Theorem X15_blend_label_without_uri :
  forall (World : Type) (env : Env World) (X : Exceptions)
         (_model prompt : jsstring) (options : Options) (token : jsstring)
         (w : World),
    truthy (with_default (filePath options) []) = true ->
    reference_uploaded env options token w = false ->
    Forall
      (fun d =>
         rd_metrics_extra d = None
         /\ exists c gen,
             dr_component_list (rd_draft_content d) = [c]
             /\ co_generate_type c = js "blend"
             /\ ab_shape (co_abilities c) = ShapeGenerate gen
             /\ cp_prompt (gen_core_param gen) = prompt)
      (submitted
         (trace (snd (run (generateImages env X _model prompt options token)
                          w)))).
Proof.
  intros World env X _model prompt options token w Hfp Hup.
  pose proof (generateImages_envelopes env X _model prompt options token w)
    as He.
  pose proof (generateImages_submitted env X _model prompt options token w)
    as Hs.
  rewrite Hup in Hs.
  apply Forall_forall. intros d Hd.
  rewrite Forall_forall in He, Hs.
  destruct (He d Hd) as [_ [Hm [c [Hc [_ [Hg _]]]]]].
  destruct (Hs d Hd) as [a [dims [Hab [_ [_ [_ [_ [_ [_ [[gen Hgen] Hp]]]]]]]]]].
  rewrite Hfp in Hm, Hg.
  split; [exact Hm|].
  unfold abilities_of in Hab. rewrite Hc in Hab. cbn [map] in Hab.
  inversion Hab; subst a.
  exists c, gen. split; [exact Hc|]. split; [exact Hg|].
  split; [exact Hgen|].
  unfold core_param_of in Hp. rewrite Hgen in Hp. exact Hp.
Qed.

(** X16. When [Math.floor(Math.random() * 100000000)] is in its range, every
    seed that a call submits lies between 2500000000 (included) and
    2600000000 (excluded); a request with the blend shape carries no seed
    and no negative prompt. *)
Theorem X16_seed_range :
  forall (World : Type) (env : Env World) (X : Exceptions)
         (_model prompt : jsstring) (options : Options) (token : jsstring)
         (w : World),
    (forall w0, (0 <= fst (random_below env 100000000 w0) < 100000000)%Z) ->
    Forall
      (fun d =>
         Forall
           (fun a =>
              match ab_shape a with
              | ShapeGenerate gen =>
                exists seed,
                  cp_seed (gen_core_param gen) = Some seed
                  /\ (2500000000 <= seed < 2600000000)%Z
              | ShapeBlend b =>
                cp_seed (blend_core_param b) = None
                /\ cp_negative_prompt (blend_core_param b) = None
              end)
           (abilities_of d))
      (submitted
         (trace (snd (run (generateImages env X _model prompt options token)
                          w)))).
Proof.
  intros World env X _model prompt options token w Hrange.
  eapply Forall_impl;
    [|apply (generateImages_envelopes env X _model prompt options token w)].
  intros d [_ [_ [c [Hc [_ [_ [_ Hsh]]]]]]].
  unfold abilities_of. rewrite Hc. cbn [map].
  constructor; [|constructor].
  unfold shape_matches in Hsh.
  destruct (ab_shape (co_abilities c)) as [b|gen].
  - destruct Hsh as [_ [Hn [Hs _]]]. auto.
  - destruct Hsh as [_ [w0 Hs]]. eexists. split; [exact Hs|].
    specialize (Hrange w0). lia.
Qed.

(** ** Further properties of the retry wrapper *)

(** X17. In every world, whatever the inner pipeline returns or throws,
    [generateImagesWithRetry] enters it once or twice and never more: once
    at ["1k"] when the caller asked for ["1k"]; otherwise at ["2k"], and
    then possibly once at ["1k"]. *)
Theorem X17_wrapper_attempts :
  forall (World : Type) (env : Env World) (X : Exceptions)
         (_model prompt : jsstring) (options : Options) (token : jsstring)
         (st : State World),
    let made :=
        attempts
          (trace (snd (generateImagesWithRetry env X _model prompt options
                                               token st))) in
    (resolution options = Some (js "1k") ->
     made = attempts (trace st) ++ [js "1k"])
    /\ (resolution options <> Some (js "1k") ->
        made = attempts (trace st) ++ [js "2k"]
        \/ made = attempts (trace st) ++ [js "2k"; js "1k"]).
Proof.
  intros World env X _model prompt options token st made. subst made.
  unfold generateImagesWithRetry.
  change (List.length resolutionLevels) with 2%nat.
  set (pipeline := fun o => generateImages env X _model prompt o token).
  assert (H1 : forall s,
             attempts (trace (snd (retry_loop X pipeline options 1 1 s)))
             = attempts (trace s) ++ [js "1k"]).
  { intros s. rewrite retry_loop_1k.
    pose proof (attempt_attempts env X _model prompt options token
                                 (js "1k") s) as Ha.
    fold pipeline in Ha.
    destruct (attempt pipeline options (js "1k") s) as [[v|e|] s1];
      exact Ha. }
  split; intros Hr;
    destruct (start_index_cases options) as [[Er Es]|[Er Es]];
    try contradiction; rewrite Es.
  - rewrite retry_loop_1k.
    pose proof (attempt_attempts env X _model prompt options token
                                 (js "1k") st) as Ha.
    fold pipeline in Ha.
    destruct (attempt pipeline options (js "1k") st) as [[v|e|] s1];
      exact Ha.
  - rewrite retry_loop_2k.
    pose proof (attempt_attempts env X _model prompt options token
                                 (js "2k") st) as Ha.
    fold pipeline in Ha.
    destruct (attempt pipeline options (js "2k") st) as [[v|e|] s1];
      cbn [snd] in *; try (left; exact Ha).
    destruct (isInsufficientCredits X e); [|left; exact Ha].
    right. rewrite H1, Ha, <- app_assoc. reflexivity.
Qed.

(** X18. When the first attempt of the wrapper returns a list of URLs, the
    wrapper returns that list, in the state in which the inner pipeline
    left, after that one attempt. *)
Theorem X18_wrapper_first_success :
  forall (World : Type) (env : Env World) (X : Exceptions)
         (_model prompt : jsstring) (options : Options) (token : jsstring)
         (st : State World) level urls st1,
    let pipeline := fun o => generateImages env X _model prompt o token in
    nth_error resolutionLevels (start_index options) = Some level ->
    attempt pipeline options level st = (Return urls, st1) ->
    generateImagesWithRetry env X _model prompt options token st
    = (Return urls, st1)
    /\ attempts (trace st1) = attempts (trace st) ++ [level].
Proof.
  intros World env X _model prompt options token st level urls st1 pipeline
         Hlevel Hrun.
  pose proof (attempt_attempts env X _model prompt options token level st)
    as Ha.
  fold pipeline in Ha. rewrite Hrun in Ha. cbn [snd] in Ha.
  split; [|exact Ha].
  unfold generateImagesWithRetry. fold pipeline.
  change (List.length resolutionLevels) with 2%nat.
  destruct (start_index_cases options) as [[_ Hs]|[_ Hs]]; rewrite Hs in *.
  - assert (El : level = js "1k")
      by (cbn [nth_error resolutionLevels] in Hlevel; congruence).
    subst level. rewrite retry_loop_1k, Hrun. reflexivity.
  - assert (El : level = js "2k")
      by (cbn [nth_error resolutionLevels] in Hlevel; congruence).
    subst level. rewrite retry_loop_2k, Hrun. reflexivity.
Qed.

(** * Further scenarios on the scripted world *)

Module ScenarioMore.

Import Script Scenario.

Lemma answers_scripted_rest : forall token records rest u c s n,
    answers env token (js "h1")
            (mkWorld u c s (map entry records ++ rest) n) records
            (mkWorld u c s rest n).
Proof.
  induction records as [|r records IH]; intros rest u c s n; cbn [map app].
  - constructor.
  - econstructor; [reflexivity | reflexivity | apply IH].
Qed.

(** The submission stage with any script of history answers. *)
Lemma submit_scripted_any : forall histories,
    exists tr,
      submit_job env exceptions model cat no_options tok
                 (mkState (mkWorld [] [] [] histories 0) [])
      = (Return (js "h1"), mkState (mkWorld [] [] [] histories 9) tr).
Proof.
  intros histories. eexists. vm_compute. reflexivity.
Qed.

(** A reference whose upload gives no URI is still submitted. *)
Example upload_without_uri_submits :
  map (fun d => map co_generate_type (dr_component_list (rd_draft_content d)))
      (submitted
         (trace (snd (run (generateImages env exceptions model cat
                                          with_reference tok)
                          upload_without_uri))))
  = [[js "blend"]].
Proof. vm_compute. reflexivity. Qed.

End ScenarioMore.

(** * Instances of the further conditional statements *)

Lemma X1_detect_only_supported_witness :
  detectAspectRatioKey (js "at 10:30 draw 5:4 then 2:3 or 16:9")
  = Some (js "2:3")
  /\ In (js "2:3") ASPECT_RATIOS.
Proof.
  assert (H : detectAspectRatioKey (js "at 10:30 draw 5:4 then 2:3 or 16:9")
              = Some (js "2:3")) by (vm_compute; reflexivity).
  split; [exact H|].
  exact (@X1_detect_only_supported _ _ H).
Defined.

Lemma X2_detect_without_colon_witness :
  let prompt := js "横屏 竖屏 海报" in
  Forall (fun c => colon c = false) prompt
  /\ detectAspectRatioKey prompt = Some (js "16:9").
Proof.
  intros prompt.
  assert (H : Forall (fun c => colon c = false) prompt)
    by (repeat constructor).
  split; [exact H|].
  rewrite (@X2_detect_without_colon prompt H). vm_compute. reflexivity.
Defined.

Lemma X3_detect_spelled_ratio_witness :
  detectAspectRatioKey
    (js "比例 " ++ js "16" ++ js " " ++ [65306%N] ++ [] ++ js "9"
        ++ js " 竖屏")
  = Some (js "16" ++ js ":" ++ js "9").
Proof.
  apply (@X3_detect_spelled_ratio
           (js "比例 ") (js "16") (js " ") 65306%N [] (js "9") (js " 竖屏")).
  - repeat constructor.
  - vm_compute. discriminate.
  - repeat constructor.
  - repeat constructor.
  - reflexivity.
  - constructor.
  - vm_compute. discriminate.
  - repeat constructor.
  - reflexivity.
  - unfold ASPECT_RATIOS. cbn [In]. right. left. reflexivity.
Defined.

Lemma X4_getModel_cases_witness :
  (lookup MODEL_MAP (js "jimeng-image-3.0")
   = Some (js "high_aes_general_v30l:general_v3.0_18b")
   /\ lookup Object_prototype (js "constructor")
      = Some (NativeFunction (js "Object"))
   /\ lookup MODEL_MAP (js "dall-e") = None
   /\ lookup Object_prototype (js "dall-e") = None)
  /\ getModel (js "jimeng-image-3.0")
     = Own (js "high_aes_general_v30l:general_v3.0_18b")
  /\ getModel (js "constructor") = Inherited (NativeFunction (js "Object"))
  /\ getModel (js "dall-e") = Own (js "high_aes_general_v40l").
Proof.
  assert (H1 : lookup MODEL_MAP (js "jimeng-image-3.0")
               = Some (js "high_aes_general_v30l:general_v3.0_18b"))
    by (vm_compute; reflexivity).
  assert (H2 : lookup Object_prototype (js "constructor")
               = Some (NativeFunction (js "Object")))
    by (vm_compute; reflexivity).
  assert (H3 : lookup MODEL_MAP (js "dall-e") = None)
    by (vm_compute; reflexivity).
  assert (H4 : lookup Object_prototype (js "dall-e") = None)
    by (vm_compute; reflexivity).
  split; [auto|]. split; [|split].
  - exact (proj1 (@X4_getModel_cases (js "jimeng-image-3.0")) _ H1).
  - exact (proj1 (proj1 (proj2 (@X4_getModel_cases (js "constructor")))
                        _ H2)).
  - exact (proj1 (proj2 (proj2 (@X4_getModel_cases (js "dall-e")))) H3 H4).
Defined.

Lemma X7_unrecognised_hint_entry_points_witness :
  let options := mkOptions None (Some (js "4k")) None None None in
  resolutionType (request_geometry (js "jimeng-image-3.0") Scenario.cat
                                   options)
  = js "1k"
  /\ nth_error resolutionLevels (start_index options) = Some (js "2k")
  /\ resolutionType
       (request_geometry (js "jimeng-image-3.0") Scenario.cat
          (set_resolution options
             (nth_error resolutionLevels (start_index options))))
     = js "2k".
Proof.
  intros options.
  apply (@X7_unrecognised_hint_entry_points Scenario.cat options (js "4k")).
  - reflexivity.
  - vm_compute. discriminate.
  - vm_compute. discriminate.
Defined.

Lemma X9_upload_failure_witness :
  fst (generateImages Script.env Script.exceptions Scenario.model
                      Scenario.cat Scenario.with_reference Scenario.tok
                      (mkState Scenario.upload_fails []))
  = Throw (APIException API_REQUEST_FAILED
                        (Some (js "参考图上传失败: socket hang up"))).
Proof.
  rewrite (@X9_upload_failure
             _ Script.env Script.exceptions Scenario.model Scenario.cat
             Scenario.with_reference Scenario.tok
             (mkState Scenario.upload_fails []) Scenario.hangup
             (Script.mkWorld [] [] [] [Scenario.entry Scenario.finished] 0)
             eq_refl eq_refl).
  vm_compute. reflexivity.
Defined.

Lemma X10_credit_failure_aborts_witness :
  fst (generateImages Script.env Script.exceptions Scenario.model
                      Scenario.cat Script.no_options Scenario.tok
                      (mkState Scenario.balance_fails []))
  = Throw Scenario.hangup
  /\ generateImages Scenario.env_without_topup Script.exceptions
                    Scenario.model Scenario.cat Script.no_options
                    Scenario.tok (mkState Scenario.no_balance [])
     = (Throw Scenario.hangup,
        mkState (Script.mkWorld [] [] [] [Scenario.entry Scenario.finished] 0)
                [EvGetCredit Scenario.tok; EvReceiveCredit Scenario.tok]).
Proof.
  split.
  - rewrite (proj1 (@X10_credit_failure_aborts
                      _ Script.env Script.exceptions Scenario.model
                      Scenario.cat Script.no_options Scenario.tok
                      (mkState Scenario.balance_fails [])
                      (mkState Scenario.balance_fails []) None eq_refl)
                   Scenario.hangup
                   (Script.mkWorld [] [] []
                                   [Scenario.entry Scenario.finished] 0)
                   eq_refl).
    reflexivity.
  - assert (Hle : (0 <= 0)%Z) by lia.
    exact (proj2 (@X10_credit_failure_aborts
                    _ Scenario.env_without_topup Script.exceptions
                    Scenario.model Scenario.cat Script.no_options
                    Scenario.tok (mkState Scenario.no_balance [])
                    (mkState Scenario.no_balance []) None eq_refl)
                 0%Z
                 (Script.mkWorld [] [] []
                                 [Scenario.entry Scenario.finished] 0)
                 Scenario.hangup
                 (Script.mkWorld [] [] []
                                 [Scenario.entry Scenario.finished] 0)
                 eq_refl Hle eq_refl).
Defined.

Lemma X11_polling_success_urls_witness :
  fst (generateImages Script.env Script.exceptions Scenario.model
                      Scenario.cat Script.no_options Scenario.tok
                      (mkState (Scenario.job_world
                                  [Scenario.busy; Scenario.finished]) []))
  = Return [Some (js "https://x/img1.png")].
Proof.
  destruct (ScenarioFacts.submit_scripted [Scenario.busy; Scenario.finished])
    as [tr Hs].
  assert (Hlen : (S (List.length [Scenario.busy]) < 120)%nat)
    by (cbn [List.length]; lia).
  rewrite (proj1 (@X11_polling_success_urls
                    _ Script.env Script.exceptions Scenario.model
                    Scenario.cat Script.no_options Scenario.tok _ (js "h1") _
                    [Scenario.busy] Scenario.finished
                    [Script.picture "https://x/img1.png"] _ Hs
                    (ScenarioFacts.answers_scripted
                       Scenario.tok [Scenario.busy; Scenario.finished]
                       [] [] [] 9)
                    (ScenarioFacts.repeat_busy 1) eq_refl Hlen eq_refl
                    eq_refl)).
  vm_compute. reflexivity.
Defined.

Lemma X12_polling_request_error_witness :
  fst (generateImages Script.env Script.exceptions Scenario.model
                      Scenario.cat Script.no_options Scenario.tok
                      (mkState Scenario.poll_fails []))
  = Throw Scenario.hangup.
Proof.
  destruct (ScenarioMore.submit_scripted_any
              [Scenario.entry Scenario.busy; inl Scenario.hangup])
    as [tr Hs].
  assert (Hlen : (List.length [Scenario.busy] < 120)%nat)
    by (cbn [List.length]; lia).
  unfold Scenario.poll_fails.
  rewrite (@X12_polling_request_error
             _ Script.env Script.exceptions Scenario.model Scenario.cat
             Script.no_options Scenario.tok _ (js "h1") _
             [Scenario.busy] _ Scenario.hangup
             (Script.mkWorld [] [] [] [] 9) Hs
             (ScenarioMore.answers_scripted_rest
                Scenario.tok [Scenario.busy] [inl Scenario.hangup]
                [] [] [] 9)
             (ScenarioFacts.repeat_busy 1) Hlen eq_refl).
  reflexivity.
Defined.

Lemma X13_terminal_without_item_list_witness :
  fst (generateImages Script.env Script.exceptions Scenario.model
                      Scenario.cat Script.no_options Scenario.tok
                      (mkState (Scenario.job_world
                                  [Scenario.busy;
                                   Scenario.finished_without_list]) []))
  = Throw (TypeError
             (js "Cannot read properties of undefined (reading 'map')")).
Proof.
  destruct (ScenarioFacts.submit_scripted
              [Scenario.busy; Scenario.finished_without_list]) as [tr Hs].
  assert (Hlen : (S (List.length [Scenario.busy]) < 120)%nat)
    by (cbn [List.length]; lia).
  rewrite (@X13_terminal_without_item_list
             _ Script.env Script.exceptions Scenario.model Scenario.cat
             Script.no_options Scenario.tok _ (js "h1") _
             [Scenario.busy] Scenario.finished_without_list _ Hs
             (ScenarioFacts.answers_scripted
                Scenario.tok [Scenario.busy; Scenario.finished_without_list]
                [] [] [] 9)
             (ScenarioFacts.repeat_busy 1) eq_refl Hlen eq_refl eq_refl).
  reflexivity.
Defined.

Lemma X14_metrics_only_without_reference_witness :
  let sent :=
      submitted
        (trace (snd (run (generateImages Script.env Script.exceptions
                                         (js "constructor") Scenario.cat
                                         Script.no_options Scenario.tok)
                         (Scenario.job_world [Scenario.finished])))) in
  exists d m so,
    sent = [d] /\ rd_metrics_extra d = Some m /\ me_sceneOptions m = [so]
    /\ so_modelReqKey so = Inherited (NativeFunction (js "Object"))
    /\ so_resolutionType so = js "2k"
    /\ so_benefitCount so = 1%Z.
Proof.
  intros sent.
  destruct (@X14_metrics_only_without_reference
              _ Script.env Script.exceptions (js "constructor") Scenario.cat
              Script.no_options Scenario.tok
              (Scenario.job_world [Scenario.finished])) as [Hall Hone].
  cbv zeta in Hall, Hone. fold sent in Hall, Hone.
  assert (Hc : fst (run (credit_stage Script.env Script.exceptions
                                      Script.no_options Scenario.tok)
                        (Scenario.job_world [Scenario.finished]))
               = Return None)
    by (vm_compute; reflexivity).
  rewrite Hc in Hone.
  destruct sent as [|d [|d' rest]]; try discriminate.
  inversion Hall as [|? ? [Habsent Hm] _]; subst.
  destruct (rd_metrics_extra d) as [m|] eqn:Em.
  - destruct (Hm m eq_refl) as [_ [so [Hso [_ [_ [Hinh [Hrt Hbc]]]]]]].
    assert (Hp : lookup Object_prototype (js "constructor")
                 = Some (NativeFunction (js "Object")))
      by (vm_compute; reflexivity).
    exists d, m, so. split; [reflexivity|]. split; [exact Em|].
    split; [exact Hso|]. split; [exact (proj1 (Hinh _ Hp))|].
    split; [rewrite Hrt | rewrite Hbc]; vm_compute; reflexivity.
  - assert (Habs : truthy (with_default (filePath Script.no_options) [])
                   = true) by (apply Habsent; reflexivity).
    discriminate.
Defined.

Lemma X15_blend_label_without_uri_witness :
  (truthy (with_default (filePath Scenario.with_reference) []) = true
   /\ reference_uploaded Script.env Scenario.with_reference Scenario.tok
                         Scenario.upload_without_uri = false)
  /\ Forall
       (fun d =>
          rd_metrics_extra d = None
          /\ exists c gen,
              dr_component_list (rd_draft_content d) = [c]
              /\ co_generate_type c = js "blend"
              /\ ab_shape (co_abilities c) = ShapeGenerate gen
              /\ cp_prompt (gen_core_param gen) = Scenario.cat)
       (submitted
          (trace (snd (run (generateImages Script.env Script.exceptions
                              Scenario.model Scenario.cat
                              Scenario.with_reference Scenario.tok)
                           Scenario.upload_without_uri)))).
Proof.
  assert (H1 : truthy (with_default (filePath Scenario.with_reference) [])
               = true) by reflexivity.
  assert (H2 : reference_uploaded Script.env Scenario.with_reference
                                  Scenario.tok Scenario.upload_without_uri
               = false) by reflexivity.
  split; [auto|].
  exact (@X15_blend_label_without_uri
           _ Script.env Script.exceptions Scenario.model Scenario.cat
           Scenario.with_reference Scenario.tok Scenario.upload_without_uri
           H1 H2).
Defined.

Lemma X16_seed_range_witness :
  Forall
    (fun d =>
       Forall
         (fun a =>
            match ab_shape a with
            | ShapeGenerate gen =>
              exists seed,
                cp_seed (gen_core_param gen) = Some seed
                /\ (2500000000 <= seed < 2600000000)%Z
            | ShapeBlend b =>
              cp_seed (blend_core_param b) = None
              /\ cp_negative_prompt (blend_core_param b) = None
            end)
         (abilities_of d))
    (submitted
       (trace (snd (run (generateImages Script.env Script.exceptions
                           Scenario.model Scenario.cat Script.no_options
                           Scenario.tok)
                        (Scenario.job_world [Scenario.finished]))))).
Proof.
  apply (@X16_seed_range _ Script.env Script.exceptions Scenario.model
                         Scenario.cat Script.no_options Scenario.tok
                         (Scenario.job_world [Scenario.finished])).
  intros w0. cbn. lia.
Defined.

Lemma X17_wrapper_attempts_witness :
  let made :=
      attempts
        (trace (snd (generateImagesWithRetry
                       Script.env Script.exceptions Scenario.model
                       Scenario.cat Script.no_options Scenario.tok
                       (mkState Scenario.short_of_credit_once [])))) in
  resolution Script.no_options <> Some (js "1k")
  /\ (made = [] ++ [js "2k"] \/ made = [] ++ [js "2k"; js "1k"]).
Proof.
  intros made.
  assert (H : resolution Script.no_options <> Some (js "1k"))
    by discriminate.
  split; [exact H|].
  exact (proj2 (@X17_wrapper_attempts
                  _ Script.env Script.exceptions Scenario.model Scenario.cat
                  Script.no_options Scenario.tok
                  (mkState Scenario.short_of_credit_once [])) H).
Defined.

Lemma X18_wrapper_first_success_witness :
  fst (generateImagesWithRetry
         Script.env Script.exceptions Scenario.model Scenario.cat
         Script.no_options Scenario.tok
         (mkState (Scenario.job_world [Scenario.finished]) []))
  = Return [Some (js "https://x/img1.png")].
Proof.
  set (st := mkState (Scenario.job_world [Scenario.finished]) []).
  set (pipeline := fun o => generateImages Script.env Script.exceptions
                                           Scenario.model Scenario.cat o
                                           Scenario.tok).
  assert (Hrun : attempt pipeline Script.no_options (js "2k") st
                 = (Return [Some (js "https://x/img1.png")],
                    snd (attempt pipeline Script.no_options (js "2k") st)))
    by (vm_compute; reflexivity).
  rewrite (proj1 (@X18_wrapper_first_success
                    _ Script.env Script.exceptions Scenario.model
                    Scenario.cat Script.no_options Scenario.tok st (js "2k")
                    _ _ eq_refl Hrun)).
  reflexivity.
Defined.
